(** * Freight bookkeeping dashboard: profit, filtering, statistics and store

    A shallow embedding of the profit computation of the shipment list
    ([calculateTotalProfit]) and of the shipment form ([estimatedProfit]), the
    list filter ([filteredShipments]), the aggregations of the statistics view
    ([StatsView]) and the optimistic mutations of the shipment store
    ([useShipmentStore]).

    JavaScript numbers are IEEE 754 binary64 values and are embedded as the
    kernel's primitive floats, so [+], [-], [*], [/] and [===] below round and
    compare exactly as the program does.  A string is held as the bytes of
    its UTF-8 form; where the program orders strings, their UTF-16 code units
    are compared. *)

From Stdlib Require Import PrimFloat String Ascii List ZArith Bool Arith Lia.
From Stdlib Require Import Permutation Sorted.
Import ListNotations.

Set Warnings "-inexact-float".
Set Implicit Arguments.

Open Scope string_scope.
Open Scope list_scope.

(** ** JavaScript values *)

(** How a text is read as a number ([Number(text)], and what [-] and [*] do
    to a string operand) is the language's; it is taken as given, with what
    the language fixes for the empty text. *)
Class StringToNumber : Type := {
  toNumber : string -> float;
  toNumber_empty : toNumber "" = 0%float
}.

Module Js.

(** Truthiness of a number: [0], [-0] and [NaN] are falsy. *)
Definition truthy_num (x : float) : bool :=
  negb (PrimFloat.eqb x 0 || negb (PrimFloat.eqb x x)).

(** Truthiness of a string: only the empty string is falsy. *)
Definition truthy_str (s : string) : bool :=
  match s with EmptyString => false | String _ _ => true end.

(** [x || d] for a numeric field that may be [null] or [undefined] ([None]). *)
Definition or_num (x : option float) (d : float) : float :=
  match x with
  | Some v => if truthy_num v then v else d
  | None => d
  end.

(** [x || d] for a string field that may be [null] or [undefined]. *)
Definition or_str (x : option string) (d : string) : string :=
  match x with
  | Some v => if truthy_str v then v else d
  | None => d
  end.

(** [Number(x)] applied to a number is the number itself. *)
Definition Number (x : float) : float := x.

(** What a numeric field of a form holds: a number, a text, or [undefined]. *)
Inductive value : Type :=
| num (x : float)
| str (text : string)
| undefined.

Definition truthy (v : value) : bool :=
  match v with
  | num x => truthy_num x
  | str text => truthy_str text
  | undefined => false
  end.

(** [v || d] for a number [d]. *)
Definition or_value (v : value) (d : float) : value :=
  if truthy v then v else num d.

(** The number an operand of [-] or [*], or the argument of [Number], is
    taken for. *)
Definition ToNumber `{StringToNumber} (v : value) : float :=
  match v with
  | num x => x
  | str text => toNumber text
  | undefined => PrimFloat.nan
  end.

(** [a === b] on numbers. *)
Definition strict_eq_num (a b : float) : bool := PrimFloat.eqb a b.

(** [s.includes(sub)]: [sub] occurs in [s] at some position. *)
Fixpoint includes (s sub : string) : bool :=
  match s with
  | EmptyString => String.prefix sub EmptyString
  | String _ rest => String.prefix sub s || includes rest sub
  end.

(** [arr[i]] for an integer index: [undefined] ([None]) outside the array. *)
Definition index {A : Type} (arr : list A) (i : Z) : option A :=
  if (i <? 0)%Z then None else nth_error arr (Z.to_nat i).

(** [Array.prototype.sort(compareFn)].  The sort is stable and orders [a]
    before [b] whenever [compareFn a b < 0]; for a consistent comparison the
    result is determined by these two facts, and the embedding computes it by
    stable insertion. *)
Fixpoint sort_insert {A : Type} (compareFn : A -> A -> Z) (x : A) (l : list A) : list A :=
  match l with
  | [] => [x]
  | y :: rest =>
      if (compareFn x y <=? 0)%Z then x :: y :: rest
      else y :: sort_insert compareFn x rest
  end.

Definition sort {A : Type} (compareFn : A -> A -> Z) (arr : list A) : list A :=
  fold_right (sort_insert compareFn) [] arr.

(** A text is held as the bytes of its UTF-8 form.  JavaScript compares
    strings by their UTF-16 code units: [utf16] reads the bytes one
    character at a time and gives the code unit of a character of the basic
    plane and the two surrogates of a character beyond it.  A byte that
    begins no complete character is passed on as it is. *)
Fixpoint utf16 (bytes : list N) : list N :=
  match bytes with
  | [] => []
  | b0 :: rest =>
      let single := b0 :: utf16 rest in
      if (b0 <? 192)%N then single
      else
        match rest with
        | [] => single
        | b1 :: rest1 =>
            if (b0 <? 224)%N
            then ((b0 mod 32) * 64 + b1 mod 64)%N :: utf16 rest1
            else
              match rest1 with
              | [] => single
              | b2 :: rest2 =>
                  if (b0 <? 240)%N
                  then ((b0 mod 16) * 4096 + (b1 mod 64) * 64 + b2 mod 64)%N
                       :: utf16 rest2
                  else
                    match rest2 with
                    | [] => single
                    | b3 :: rest3 =>
                        let codePoint :=
                          ((b0 mod 8) * 262144 + (b1 mod 64) * 4096
                           + (b2 mod 64) * 64 + b3 mod 64)%N in
                        let offset := (codePoint - 65536)%N in
                        (55296 + offset / 1024)%N :: (56320 + offset mod 1024)%N
                        :: utf16 rest3
                    end
              end
        end
  end.

Definition codeUnits (s : string) : list N :=
  utf16 (map N_of_ascii (list_ascii_of_string s)).

(** The order of two sequences of code units: by the first unit in which
    they differ, a proper prefix coming first. *)
Fixpoint compare_units (a b : list N) : comparison :=
  match a, b with
  | [], [] => Eq
  | [], _ :: _ => Lt
  | _ :: _, [] => Gt
  | x :: a', y :: b' =>
      match (x ?= y)%N with
      | Eq => compare_units a' b'
      | Lt => Lt
      | Gt => Gt
      end
  end.

(** The default comparison of [sort()] on strings: by code units. *)
Definition compare_default (a b : string) : Z :=
  match compare_units (codeUnits a) (codeUnits b) with
  | Lt => (-1)%Z
  | Eq => 0%Z
  | Gt => 1%Z
  end.

(** [x || 0] for a count read from a map ([undefined] when the key is new). *)
Definition or_count (x : option nat) (d : nat) : nat :=
  match x with
  | Some v => if (v =? 0)%nat then d else v
  | None => d
  end.

(** [arr.forEach(body)] over a state [S] that the body updates; [None] when
    the body throws (it reads a property of [undefined]). *)
Fixpoint forEach {A S : Type} (body : S -> A -> option S) (arr : list A) (st : S)
  : option S :=
  match arr with
  | [] => Some st
  | x :: rest =>
      match body st x with
      | Some st' => forEach body rest st'
      | None => None
      end
  end.

End Js.

(** [Map<string, V>]: keys in insertion order; [set] on a present key keeps
    its position. *)
Module JsMap.

Definition t (V : Type) : Type := list (string * V).

Fixpoint get {V : Type} (k : string) (m : t V) : option V :=
  match m with
  | [] => None
  | (k', v) :: rest => if (k' =? k)%string then Some v else get k rest
  end.

Definition has {V : Type} (k : string) (m : t V) : bool :=
  match get k m with Some _ => true | None => false end.

Fixpoint set {V : Type} (k : string) (v : V) (m : t V) : t V :=
  match m with
  | [] => [(k, v)]
  | (k', v') :: rest =>
      if (k' =? k)%string then (k, v) :: rest else (k', v') :: set k v rest
  end.

Definition keys {V : Type} (m : t V) : list string := map fst m.
Definition values {V : Type} (m : t V) : list V := map snd m.
Definition entries {V : Type} (m : t V) : list (string * V) := m.

End JsMap.

(** [Set<T>]: values in insertion order, each once; [eqb] decides when two
    values are the same. *)
Module JsSet.

Section WithEquality.
Context {T : Type} (eqb : T -> T -> bool).

Definition has (x : T) (s : list T) : bool := existsb (eqb x) s.

Definition add (x : T) (s : list T) : list T :=
  if has x s then s else s ++ [x].

Definition delete (x : T) (s : list T) : list T :=
  filter (fun y => negb (eqb x y)) s.

(** [new Set(values)] *)
Definition from (values : list T) : list T :=
  fold_left (fun s x => add x s) values [].

Definition size (s : list T) : nat := List.length s.

End WithEquality.

End JsSet.

Declare Scope js_scope.
Delimit Scope js_scope with js.
Notation "x |? d" := (Js.or_num x d) (at level 45, left associativity) : js_scope.
Notation "u ?: d" := (match u with Some v => v | None => d end)
  (at level 46, no associativity) : js_scope.
Open Scope js_scope.

(** ** The shipment record ([types/record.ts]) *)

(** [createdAt] is declared a number; the store's optimistic insert writes an
    ISO string in its place, so both shapes occur at run time. *)
Inductive CreatedAt : Type :=
| CreatedNum (t : float)
| CreatedIso (s : string).

(** [Omit<ShipmentRecord, 'id' | 'createdAt'>]: what the form submits.  Fields
    that the program guards against [null]/[undefined] are options; every fee
    field is read through [|| 0] and is an option too. *)
Record ShipmentData : Type := mkShipmentData {
  bookingNo : string; businessNo : string; shipper : string; client : option string;
  fleet : option string; loadingDate : option string; sailingDate : option string;
  arrivalDate : option string; pol : string; pod : string; vesselName : option string;
  containerType : string; containerNo : string; oceanFreightCost : option float;
  oceanFreightPrice : option float; truckingFeeCost : option float;
  truckingFeePrice : option float; customsFeeCost : option float;
  customsFeePrice : option float; thcCost : option float; thcPrice : option float;
  printingFeeCost : option float; printingFeePrice : option float;
  sealFeeCost : option float; sealFeePrice : option float; docFeeCost : option float;
  docFeePrice : option float; telexFeeCost : option float; telexFeePrice : option float;
  blFeeCost : option float; blFeePrice : option float; diffPickupFeeCost : option float;
  diffPickupFeePrice : option float; weighingFeeCost : option float;
  weighingFeePrice : option float; vgmFeeCost : option float; vgmFeePrice : option float;
  amendmentFeeCost : option float; amendmentFeePrice : option float;
  detentionFeeCost : option float; detentionFeePrice : option float;
  demurrageFeeCost : option float; demurrageFeePrice : option float;
  handlingFeeCost : option float; handlingFeePrice : option float;
  insuranceFeeCost : option float; insuranceFeePrice : option float;
  exchangeRate : option float; isSpecialDeclaration : bool
}.

Record ShipmentRecord : Type := mkShipment {
  id : string;
  createdAt : CreatedAt;
  fields :> ShipmentData
}.

Definition DEFAULT_EXCHANGE_RATE : float := 7.2%float.

(** The fourteen keys of [feeKeys]; [record[`${key}Cost`]] and
    [record[`${key}Price`]] select the field named after the key. *)
Inductive FeeKey : Type :=
| thc | printingFee | sealFee | docFee | telexFee | blFee | diffPickupFee
| weighingFee | vgmFee | amendmentFee | detentionFee | demurrageFee
| handlingFee | insuranceFee.

Definition keyCost (key : FeeKey) (record : ShipmentData) : option float :=
  match key with
  | thc => thcCost record | printingFee => printingFeeCost record
  | sealFee => sealFeeCost record | docFee => docFeeCost record
  | telexFee => telexFeeCost record | blFee => blFeeCost record
  | diffPickupFee => diffPickupFeeCost record | weighingFee => weighingFeeCost record
  | vgmFee => vgmFeeCost record | amendmentFee => amendmentFeeCost record
  | detentionFee => detentionFeeCost record | demurrageFee => demurrageFeeCost record
  | handlingFee => handlingFeeCost record | insuranceFee => insuranceFeeCost record
  end.

Definition keyPrice (key : FeeKey) (record : ShipmentData) : option float :=
  match key with
  | thc => thcPrice record | printingFee => printingFeePrice record
  | sealFee => sealFeePrice record | docFee => docFeePrice record
  | telexFee => telexFeePrice record | blFee => blFeePrice record
  | diffPickupFee => diffPickupFeePrice record | weighingFee => weighingFeePrice record
  | vgmFee => vgmFeePrice record | amendmentFee => amendmentFeePrice record
  | detentionFee => detentionFeePrice record | demurrageFee => demurrageFeePrice record
  | handlingFee => handlingFeePrice record | insuranceFee => insuranceFeePrice record
  end.

(** [Partial<ShipmentRecord>]: [Some v] where the object has the key. *)
Record PartialShipment : Type := mkPartial {
  set_id : option string; set_createdAt : option CreatedAt; set_bookingNo : option string;
  set_businessNo : option string; set_shipper : option string;
  set_client : option (option string); set_fleet : option (option string);
  set_loadingDate : option (option string); set_sailingDate : option (option string);
  set_arrivalDate : option (option string); set_pol : option string; set_pod : option string;
  set_vesselName : option (option string); set_containerType : option string;
  set_containerNo : option string; set_oceanFreightCost : option (option float);
  set_oceanFreightPrice : option (option float); set_truckingFeeCost : option (option float);
  set_truckingFeePrice : option (option float); set_customsFeeCost : option (option float);
  set_customsFeePrice : option (option float); set_thcCost : option (option float);
  set_thcPrice : option (option float); set_printingFeeCost : option (option float);
  set_printingFeePrice : option (option float); set_sealFeeCost : option (option float);
  set_sealFeePrice : option (option float); set_docFeeCost : option (option float);
  set_docFeePrice : option (option float); set_telexFeeCost : option (option float);
  set_telexFeePrice : option (option float); set_blFeeCost : option (option float);
  set_blFeePrice : option (option float); set_diffPickupFeeCost : option (option float);
  set_diffPickupFeePrice : option (option float);
  set_weighingFeeCost : option (option float); set_weighingFeePrice : option (option float);
  set_vgmFeeCost : option (option float); set_vgmFeePrice : option (option float);
  set_amendmentFeeCost : option (option float);
  set_amendmentFeePrice : option (option float);
  set_detentionFeeCost : option (option float);
  set_detentionFeePrice : option (option float);
  set_demurrageFeeCost : option (option float);
  set_demurrageFeePrice : option (option float); set_handlingFeeCost : option (option float);
  set_handlingFeePrice : option (option float); set_insuranceFeeCost : option (option float);
  set_insuranceFeePrice : option (option float); set_exchangeRate : option (option float);
  set_isSpecialDeclaration : option bool
}.

(** [{ ...s, ...updatedShipment }]. *)
Definition spread (s : ShipmentRecord) (u : PartialShipment) : ShipmentRecord :=
  {| id := set_id u ?: id s; createdAt := set_createdAt u ?: createdAt s;
     fields := {|
       bookingNo := set_bookingNo u ?: bookingNo s;
       businessNo := set_businessNo u ?: businessNo s; shipper := set_shipper u ?: shipper s;
       client := set_client u ?: client s; fleet := set_fleet u ?: fleet s;
       loadingDate := set_loadingDate u ?: loadingDate s;
       sailingDate := set_sailingDate u ?: sailingDate s;
       arrivalDate := set_arrivalDate u ?: arrivalDate s; pol := set_pol u ?: pol s;
       pod := set_pod u ?: pod s; vesselName := set_vesselName u ?: vesselName s;
       containerType := set_containerType u ?: containerType s;
       containerNo := set_containerNo u ?: containerNo s;
       oceanFreightCost := set_oceanFreightCost u ?: oceanFreightCost s;
       oceanFreightPrice := set_oceanFreightPrice u ?: oceanFreightPrice s;
       truckingFeeCost := set_truckingFeeCost u ?: truckingFeeCost s;
       truckingFeePrice := set_truckingFeePrice u ?: truckingFeePrice s;
       customsFeeCost := set_customsFeeCost u ?: customsFeeCost s;
       customsFeePrice := set_customsFeePrice u ?: customsFeePrice s;
       thcCost := set_thcCost u ?: thcCost s; thcPrice := set_thcPrice u ?: thcPrice s;
       printingFeeCost := set_printingFeeCost u ?: printingFeeCost s;
       printingFeePrice := set_printingFeePrice u ?: printingFeePrice s;
       sealFeeCost := set_sealFeeCost u ?: sealFeeCost s;
       sealFeePrice := set_sealFeePrice u ?: sealFeePrice s;
       docFeeCost := set_docFeeCost u ?: docFeeCost s;
       docFeePrice := set_docFeePrice u ?: docFeePrice s;
       telexFeeCost := set_telexFeeCost u ?: telexFeeCost s;
       telexFeePrice := set_telexFeePrice u ?: telexFeePrice s;
       blFeeCost := set_blFeeCost u ?: blFeeCost s;
       blFeePrice := set_blFeePrice u ?: blFeePrice s;
       diffPickupFeeCost := set_diffPickupFeeCost u ?: diffPickupFeeCost s;
       diffPickupFeePrice := set_diffPickupFeePrice u ?: diffPickupFeePrice s;
       weighingFeeCost := set_weighingFeeCost u ?: weighingFeeCost s;
       weighingFeePrice := set_weighingFeePrice u ?: weighingFeePrice s;
       vgmFeeCost := set_vgmFeeCost u ?: vgmFeeCost s;
       vgmFeePrice := set_vgmFeePrice u ?: vgmFeePrice s;
       amendmentFeeCost := set_amendmentFeeCost u ?: amendmentFeeCost s;
       amendmentFeePrice := set_amendmentFeePrice u ?: amendmentFeePrice s;
       detentionFeeCost := set_detentionFeeCost u ?: detentionFeeCost s;
       detentionFeePrice := set_detentionFeePrice u ?: detentionFeePrice s;
       demurrageFeeCost := set_demurrageFeeCost u ?: demurrageFeeCost s;
       demurrageFeePrice := set_demurrageFeePrice u ?: demurrageFeePrice s;
       handlingFeeCost := set_handlingFeeCost u ?: handlingFeeCost s;
       handlingFeePrice := set_handlingFeePrice u ?: handlingFeePrice s;
       insuranceFeeCost := set_insuranceFeeCost u ?: insuranceFeeCost s;
       insuranceFeePrice := set_insuranceFeePrice u ?: insuranceFeePrice s;
       exchangeRate := set_exchangeRate u ?: exchangeRate s;
       isSpecialDeclaration := set_isSpecialDeclaration u ?: isSpecialDeclaration s
     |} |}.

(** The empty object [{}]. *)
Definition emptyPatch : PartialShipment :=
  {| set_id := None; set_createdAt := None; set_bookingNo := None; set_businessNo := None;
     set_shipper := None; set_client := None; set_fleet := None; set_loadingDate := None;
     set_sailingDate := None; set_arrivalDate := None; set_pol := None; set_pod := None;
     set_vesselName := None; set_containerType := None; set_containerNo := None;
     set_oceanFreightCost := None; set_oceanFreightPrice := None;
     set_truckingFeeCost := None; set_truckingFeePrice := None; set_customsFeeCost := None;
     set_customsFeePrice := None; set_thcCost := None; set_thcPrice := None;
     set_printingFeeCost := None; set_printingFeePrice := None; set_sealFeeCost := None;
     set_sealFeePrice := None; set_docFeeCost := None; set_docFeePrice := None;
     set_telexFeeCost := None; set_telexFeePrice := None; set_blFeeCost := None;
     set_blFeePrice := None; set_diffPickupFeeCost := None; set_diffPickupFeePrice := None;
     set_weighingFeeCost := None; set_weighingFeePrice := None; set_vgmFeeCost := None;
     set_vgmFeePrice := None; set_amendmentFeeCost := None; set_amendmentFeePrice := None;
     set_detentionFeeCost := None; set_detentionFeePrice := None;
     set_demurrageFeeCost := None; set_demurrageFeePrice := None;
     set_handlingFeeCost := None; set_handlingFeePrice := None; set_insuranceFeeCost := None;
     set_insuranceFeePrice := None; set_exchangeRate := None;
     set_isSpecialDeclaration := None |}.

(** [{ ...data }] for submitted form values: every key of the form, and
    neither [id] nor [createdAt]. *)
Definition patchOfData (data : ShipmentData) : PartialShipment :=
  {| set_id := None; set_createdAt := None;
     set_bookingNo := Some (bookingNo data); set_businessNo := Some (businessNo data);
     set_shipper := Some (shipper data); set_client := Some (client data);
     set_fleet := Some (fleet data); set_loadingDate := Some (loadingDate data);
     set_sailingDate := Some (sailingDate data); set_arrivalDate := Some (arrivalDate data);
     set_pol := Some (pol data); set_pod := Some (pod data);
     set_vesselName := Some (vesselName data);
     set_containerType := Some (containerType data);
     set_containerNo := Some (containerNo data);
     set_oceanFreightCost := Some (oceanFreightCost data);
     set_oceanFreightPrice := Some (oceanFreightPrice data);
     set_truckingFeeCost := Some (truckingFeeCost data);
     set_truckingFeePrice := Some (truckingFeePrice data);
     set_customsFeeCost := Some (customsFeeCost data);
     set_customsFeePrice := Some (customsFeePrice data); set_thcCost := Some (thcCost data);
     set_thcPrice := Some (thcPrice data);
     set_printingFeeCost := Some (printingFeeCost data);
     set_printingFeePrice := Some (printingFeePrice data);
     set_sealFeeCost := Some (sealFeeCost data);
     set_sealFeePrice := Some (sealFeePrice data); set_docFeeCost := Some (docFeeCost data);
     set_docFeePrice := Some (docFeePrice data);
     set_telexFeeCost := Some (telexFeeCost data);
     set_telexFeePrice := Some (telexFeePrice data); set_blFeeCost := Some (blFeeCost data);
     set_blFeePrice := Some (blFeePrice data);
     set_diffPickupFeeCost := Some (diffPickupFeeCost data);
     set_diffPickupFeePrice := Some (diffPickupFeePrice data);
     set_weighingFeeCost := Some (weighingFeeCost data);
     set_weighingFeePrice := Some (weighingFeePrice data);
     set_vgmFeeCost := Some (vgmFeeCost data); set_vgmFeePrice := Some (vgmFeePrice data);
     set_amendmentFeeCost := Some (amendmentFeeCost data);
     set_amendmentFeePrice := Some (amendmentFeePrice data);
     set_detentionFeeCost := Some (detentionFeeCost data);
     set_detentionFeePrice := Some (detentionFeePrice data);
     set_demurrageFeeCost := Some (demurrageFeeCost data);
     set_demurrageFeePrice := Some (demurrageFeePrice data);
     set_handlingFeeCost := Some (handlingFeeCost data);
     set_handlingFeePrice := Some (handlingFeePrice data);
     set_insuranceFeeCost := Some (insuranceFeeCost data);
     set_insuranceFeePrice := Some (insuranceFeePrice data);
     set_exchangeRate := Some (exchangeRate data);
     set_isSpecialDeclaration := Some (isSpecialDeclaration data) |}.

(** The record with [exchangeRate] replaced and every other field kept. *)
Definition with_exchangeRate (x : option float) (d : ShipmentData) : ShipmentData :=
  {| bookingNo := bookingNo d; businessNo := businessNo d; shipper := shipper d;
     client := client d; fleet := fleet d; loadingDate := loadingDate d;
     sailingDate := sailingDate d; arrivalDate := arrivalDate d; pol := pol d; pod := pod d;
     vesselName := vesselName d; containerType := containerType d;
     containerNo := containerNo d; oceanFreightCost := oceanFreightCost d;
     oceanFreightPrice := oceanFreightPrice d; truckingFeeCost := truckingFeeCost d;
     truckingFeePrice := truckingFeePrice d; customsFeeCost := customsFeeCost d;
     customsFeePrice := customsFeePrice d; thcCost := thcCost d; thcPrice := thcPrice d;
     printingFeeCost := printingFeeCost d; printingFeePrice := printingFeePrice d;
     sealFeeCost := sealFeeCost d; sealFeePrice := sealFeePrice d;
     docFeeCost := docFeeCost d; docFeePrice := docFeePrice d;
     telexFeeCost := telexFeeCost d; telexFeePrice := telexFeePrice d;
     blFeeCost := blFeeCost d; blFeePrice := blFeePrice d;
     diffPickupFeeCost := diffPickupFeeCost d; diffPickupFeePrice := diffPickupFeePrice d;
     weighingFeeCost := weighingFeeCost d; weighingFeePrice := weighingFeePrice d;
     vgmFeeCost := vgmFeeCost d; vgmFeePrice := vgmFeePrice d;
     amendmentFeeCost := amendmentFeeCost d; amendmentFeePrice := amendmentFeePrice d;
     detentionFeeCost := detentionFeeCost d; detentionFeePrice := detentionFeePrice d;
     demurrageFeeCost := demurrageFeeCost d; demurrageFeePrice := demurrageFeePrice d;
     handlingFeeCost := handlingFeeCost d; handlingFeePrice := handlingFeePrice d;
     insuranceFeeCost := insuranceFeeCost d; insuranceFeePrice := insuranceFeePrice d;
     exchangeRate := x; isSpecialDeclaration := isSpecialDeclaration d |}.

(** ** Library functions the program calls

    [String.prototype.toLowerCase] follows the Unicode case tables; the
    development only uses that it maps the empty string to itself. *)

Class StringCase : Type := {
  toLowerCase : string -> string;
  toLowerCase_empty : toLowerCase "" = ""
}.

(** ** The shipment list: filter and profit of one record ([ShipmentList]) *)

Module ShipmentList.

Section Filter.
Context `{StringCase}.

Definition matchesSearch (searchQuery : string) (item : ShipmentRecord) : bool :=
  Js.includes (toLowerCase (bookingNo item)) (toLowerCase searchQuery)
  || Js.includes (toLowerCase (businessNo item)) (toLowerCase searchQuery)
  || Js.includes (toLowerCase (containerNo item)) (toLowerCase searchQuery)
  || Js.includes (toLowerCase (shipper item)) (toLowerCase searchQuery)
  || match client item with
     | Some c => Js.truthy_str c && Js.includes (toLowerCase c) (toLowerCase searchQuery)
     | None => false
     end.

Definition matchesFilter (filterType : string) (item : ShipmentRecord) : bool :=
  (filterType =? "all")%string || (containerType item =? filterType)%string.

Definition matchesClient (clientFilter : string) (item : ShipmentRecord) : bool :=
  (clientFilter =? "all")%string
  || match client item with
     | Some c => (c =? clientFilter)%string
     | None => false
     end.

Definition filteredShipments (shipments : list ShipmentRecord)
    (searchQuery filterType clientFilter : string) : list ShipmentRecord :=
  filter
    (fun item =>
       matchesSearch searchQuery item
       && matchesFilter filterType item
       && matchesClient clientFilter item)
    shipments.

End Filter.

(** [a === b] on the client of a record: a string, or [null]. *)
Definition same_client (a b : option string) : bool :=
  match a, b with
  | Some x, Some y => (x =? y)%string
  | None, None => true
  | _, _ => false
  end.

(** The clients offered by the client filter: [Array.from(new
    Set(shipments.map(s => s.client))).filter(Boolean).sort()].  What
    [filter(Boolean)] keeps are non-empty strings. *)
Definition uniqueClients (shipments : list ShipmentRecord) : list string :=
  let distinct :=
    JsSet.from same_client (map (fun s : ShipmentRecord => client s) shipments) in
  let present :=
    flat_map
      (fun c => match c with
                | Some text => if Js.truthy_str text then [text] else []
                | None => []
                end)
      distinct in
  Js.sort Js.compare_default present.

Open Scope float_scope.

Definition rate (record : ShipmentData) : float :=
  exchangeRate record |? 7.2.

Definition oceanProfit (record : ShipmentData) : float :=
  ((oceanFreightPrice record |? 0) - (oceanFreightCost record |? 0)) * rate record.

Definition truckingProfit (record : ShipmentData) : float :=
  (truckingFeePrice record |? 0) - (truckingFeeCost record |? 0).

Definition customsProfit (record : ShipmentData) : float :=
  (customsFeePrice record |? 0) - (customsFeeCost record |? 0).

Definition feeKeys : list FeeKey :=
  [ thc; printingFee; sealFee; docFee; telexFee; blFee;
    diffPickupFee; weighingFee; vgmFee; amendmentFee;
    detentionFee; demurrageFee; handlingFee; insuranceFee ].

(** The [forEach] over [feeKeys], accumulating into [additionalProfit]. *)
Definition additionalProfit (record : ShipmentData) : float :=
  fold_left
    (fun additionalProfit key =>
       let cost := Js.Number (keyCost key record |? 0) in
       let price := Js.Number (keyPrice key record |? 0) in
       additionalProfit + (price - cost))
    feeKeys 0.

Definition calculateTotalProfit (record : ShipmentData) : float :=
  oceanProfit record + truckingProfit record + customsProfit record
  + additionalProfit record.

End ShipmentList.

(** ** Estimated profit shown by the form ([ShipmentForm]) *)

Module ShipmentForm.
Open Scope float_scope.

(** The numeric inputs of the form, [costInput key] and [priceInput key]
    being those named [`${key}Cost`] and [`${key}Price`]. *)
Inductive NumberInput : Type :=
| exchangeRateInput
| oceanFreightCostInput | oceanFreightPriceInput
| truckingFeeCostInput | truckingFeePriceInput
| customsFeeCostInput | customsFeePriceInput
| costInput (key : FeeKey)
| priceInput (key : FeeKey).

(** The number a set of values holds under the name of an input. *)
Definition fieldOf (input : NumberInput) (values : ShipmentData) : option float :=
  match input with
  | exchangeRateInput => exchangeRate values
  | oceanFreightCostInput => oceanFreightCost values
  | oceanFreightPriceInput => oceanFreightPrice values
  | truckingFeeCostInput => truckingFeeCost values
  | truckingFeePriceInput => truckingFeePrice values
  | customsFeeCostInput => customsFeeCost values
  | customsFeePriceInput => customsFeePrice values
  | costInput key => keyCost key values
  | priceInput key => keyPrice key values
  end.

(** The values of the form: those that [defaultValues] or [form.reset]
    installed, and over them the text of every numeric input that was typed
    into since.  The inputs are registered without [valueAsNumber], so what
    is typed is held as the text of the input. *)
Record FormValues : Type := mkForm {
  installed : ShipmentData;
  typed : NumberInput -> option string
}.

(** The form as [defaultValues] or [form.reset] leaves it. *)
Definition ofValues (values : ShipmentData) : FormValues :=
  mkForm values (fun _ => None).

(** [watch(name)], and [getValues()[name]]. *)
Definition watch (form : FormValues) (input : NumberInput) : Js.value :=
  match typed form input with
  | Some text => Js.str text
  | None =>
      match fieldOf input (installed form) with
      | Some x => Js.num x
      | None => Js.undefined
      end
  end.

Definition getValues (form : FormValues) : NumberInput -> Js.value := watch form.

Definition oceanCost (form : FormValues) : Js.value :=
  Js.or_value (watch form oceanFreightCostInput) 0.
Definition oceanPrice (form : FormValues) : Js.value :=
  Js.or_value (watch form oceanFreightPriceInput) 0.
Definition rate (form : FormValues) : Js.value :=
  Js.or_value (watch form exchangeRateInput) 7.2.

Definition feeKeys : list FeeKey :=
  [ thc; printingFee; sealFee; docFee; telexFee; blFee;
    diffPickupFee; weighingFee; vgmFee; amendmentFee;
    detentionFee; demurrageFee; handlingFee; insuranceFee ].

Definition estimatedProfit `{StringToNumber} (form : FormValues) : float :=
  let oceanProfitUSD := Js.ToNumber (oceanPrice form) - Js.ToNumber (oceanCost form) in
  let oceanProfitCNY := oceanProfitUSD * Js.ToNumber (rate form) in
  let truckingProfit :=
    Js.ToNumber (Js.or_value (watch form truckingFeePriceInput) 0)
    - Js.ToNumber (Js.or_value (watch form truckingFeeCostInput) 0) in
  let customsProfit :=
    Js.ToNumber (Js.or_value (watch form customsFeePriceInput) 0)
    - Js.ToNumber (Js.or_value (watch form customsFeeCostInput) 0) in
  let values := getValues form in
  let totalAdditionalProfit :=
    fold_left
      (fun totalAdditionalProfit key =>
         let cost := Js.ToNumber (Js.or_value (values (costInput key)) 0) in
         let price := Js.ToNumber (Js.or_value (values (priceInput key)) 0) in
         totalAdditionalProfit + (price - cost))
      feeKeys 0 in
  oceanProfitCNY + truckingProfit + customsProfit + totalAdditionalProfit.

(** [shipmentSchema], as a test of the values it hands to [onSubmit]: the
    required texts are non-empty, the required costs and prices are numbers
    not below 0, an optional one is a number or is missing, and the exchange
    rate is a number not below 0.01. *)
Definition required (text : string) : bool := Js.truthy_str text.

Definition atLeast (bound : float) (x : option float) : bool :=
  match x with
  | Some v => PrimFloat.leb bound v
  | None => false
  end.

Definition optionalNumber (x : option float) : bool :=
  match x with
  | Some v => PrimFloat.eqb v v
  | None => true
  end.

Definition schemaAccepts (data : ShipmentData) : bool :=
  required (bookingNo data) && required (businessNo data) && required (shipper data)
  && match client data with Some text => required text | None => false end
  && required (pol data) && required (pod data) && required (containerType data)
  && required (containerNo data)
  && forallb (fun input => atLeast 0 (fieldOf input data))
       [ oceanFreightCostInput; oceanFreightPriceInput; truckingFeeCostInput;
         truckingFeePriceInput; customsFeeCostInput; customsFeePriceInput;
         costInput thc; priceInput thc; costInput printingFee; priceInput printingFee;
         costInput sealFee; priceInput sealFee; costInput docFee; priceInput docFee;
         costInput telexFee; priceInput telexFee; costInput blFee; priceInput blFee;
         costInput diffPickupFee; priceInput diffPickupFee; costInput weighingFee;
         priceInput weighingFee ]
  && forallb (fun input => optionalNumber (fieldOf input data))
       [ costInput vgmFee; priceInput vgmFee; costInput amendmentFee;
         priceInput amendmentFee; costInput detentionFee; priceInput detentionFee;
         costInput demurrageFee; priceInput demurrageFee; costInput handlingFee;
         priceInput handlingFee; costInput insuranceFee; priceInput insuranceFee ]
  && atLeast 0.01 (exchangeRate data).

(** [defaultValues] of the form, also what it is reset to for a new record. *)
Definition defaultValues : ShipmentData :=
  {| bookingNo := ""; businessNo := ""; shipper := ""; client := Some ""; fleet := Some "";
     loadingDate := Some ""; sailingDate := Some ""; arrivalDate := Some ""; pol := "";
     pod := ""; vesselName := Some ""; containerType := ""; containerNo := "";
     oceanFreightCost := Some 0; oceanFreightPrice := Some 0; truckingFeeCost := Some 0;
     truckingFeePrice := Some 0; customsFeeCost := Some 0; customsFeePrice := Some 0;
     thcCost := Some 0; thcPrice := Some 0; printingFeeCost := Some 0;
     printingFeePrice := Some 0; sealFeeCost := Some 0; sealFeePrice := Some 0;
     docFeeCost := Some 0; docFeePrice := Some 0; telexFeeCost := Some 0;
     telexFeePrice := Some 0; blFeeCost := Some 0; blFeePrice := Some 0;
     diffPickupFeeCost := Some 0; diffPickupFeePrice := Some 0; weighingFeeCost := Some 0;
     weighingFeePrice := Some 0; vgmFeeCost := Some 0; vgmFeePrice := Some 0;
     amendmentFeeCost := Some 0; amendmentFeePrice := Some 0; detentionFeeCost := Some 0;
     detentionFeePrice := Some 0; demurrageFeeCost := Some 0; demurrageFeePrice := Some 0;
     handlingFeeCost := Some 0; handlingFeePrice := Some 0; insuranceFeeCost := Some 0;
     insuranceFeePrice := Some 0; exchangeRate := Some 7.2; isSpecialDeclaration := false |}.

(** The values [form.reset] installs: for a record opened for editing
    [{ ...initialData, client: initialData.client || "", ... }], the nullable
    texts and the six optional fee pairs with their defaults. *)
Definition resetValues (initialData : option ShipmentRecord) : ShipmentData :=
  match initialData with
  | Some initialData =>
      {| bookingNo := bookingNo initialData; businessNo := businessNo initialData;
         shipper := shipper initialData; client := Some (Js.or_str (client initialData) "");
         fleet := Some (Js.or_str (fleet initialData) "");
         loadingDate := Some (Js.or_str (loadingDate initialData) "");
         sailingDate := Some (Js.or_str (sailingDate initialData) "");
         arrivalDate := Some (Js.or_str (arrivalDate initialData) "");
         pol := pol initialData; pod := pod initialData;
         vesselName := Some (Js.or_str (vesselName initialData) "");
         containerType := containerType initialData; containerNo := containerNo initialData;
         oceanFreightCost := oceanFreightCost initialData;
         oceanFreightPrice := oceanFreightPrice initialData;
         truckingFeeCost := truckingFeeCost initialData;
         truckingFeePrice := truckingFeePrice initialData;
         customsFeeCost := customsFeeCost initialData;
         customsFeePrice := customsFeePrice initialData; thcCost := thcCost initialData;
         thcPrice := thcPrice initialData; printingFeeCost := printingFeeCost initialData;
         printingFeePrice := printingFeePrice initialData;
         sealFeeCost := sealFeeCost initialData; sealFeePrice := sealFeePrice initialData;
         docFeeCost := docFeeCost initialData; docFeePrice := docFeePrice initialData;
         telexFeeCost := telexFeeCost initialData;
         telexFeePrice := telexFeePrice initialData; blFeeCost := blFeeCost initialData;
         blFeePrice := blFeePrice initialData;
         diffPickupFeeCost := diffPickupFeeCost initialData;
         diffPickupFeePrice := diffPickupFeePrice initialData;
         weighingFeeCost := weighingFeeCost initialData;
         weighingFeePrice := weighingFeePrice initialData;
         vgmFeeCost := Some (vgmFeeCost initialData |? 0);
         vgmFeePrice := Some (vgmFeePrice initialData |? 0);
         amendmentFeeCost := Some (amendmentFeeCost initialData |? 0);
         amendmentFeePrice := Some (amendmentFeePrice initialData |? 0);
         detentionFeeCost := Some (detentionFeeCost initialData |? 0);
         detentionFeePrice := Some (detentionFeePrice initialData |? 0);
         demurrageFeeCost := Some (demurrageFeeCost initialData |? 0);
         demurrageFeePrice := Some (demurrageFeePrice initialData |? 0);
         handlingFeeCost := Some (handlingFeeCost initialData |? 0);
         handlingFeePrice := Some (handlingFeePrice initialData |? 0);
         insuranceFeeCost := Some (insuranceFeeCost initialData |? 0);
         insuranceFeePrice := Some (insuranceFeePrice initialData |? 0);
         exchangeRate := exchangeRate initialData;
         isSpecialDeclaration := isSpecialDeclaration initialData |}
  | None => defaultValues
  end.

End ShipmentForm.

(** ** Calendar dates and [date-fns]

    A [Date] is read through its local calendar fields.  How an ISO string or
    a creation stamp is turned into a date, where a week starts and how text
    is collated are the libraries' business and are taken as given.

    A text that does not parse, or a stamp that is no time, gives an Invalid
    Date, whose [getFullYear()] is [NaN].  [validISO] and [validStamp] tell
    whether the date is valid; the calendar fields of [parseISO] and
    [newDate] are those of the date when it is, and stand for nothing when
    it is not.  Only the year selector and the year filter meet an Invalid
    Date: the filter keeps no record that has one, and every other memo of
    the statistics view works on the records the filter kept. *)

Inductive Month : Type :=
| Jan | Feb | Mar | Apr | May | Jun | Jul | Aug | Sep | Oct | Nov | Dec.

Record Date : Type := mkDate {
  getFullYear : nat;
  getMonth : Month;
  getDate : nat
}.

Class DateFns : Type := {
  parseISO : string -> Date;
  newDate : CreatedAt -> Date;
  validISO : string -> bool;
  validStamp : CreatedAt -> bool;
  (** [startOfWeek(d, { weekStartsOn: 1 })] *)
  startOfWeek : Date -> Date;
  (** the number [format(d, 'w')] prints *)
  weekOfYear : Date -> nat;
  localeCompare : string -> string -> Z
}.

Module DateFormat.

Definition monthNumber (m : Month) : nat :=
  match m with
  | Jan => 1 | Feb => 2 | Mar => 3 | Apr => 4 | May => 5 | Jun => 6
  | Jul => 7 | Aug => 8 | Sep => 9 | Oct => 10 | Nov => 11 | Dec => 12
  end.

Definition digit (n : nat) : ascii := ascii_of_nat (48 + n).

Fixpoint decimal_from (fuel n : nat) (acc : string) : string :=
  match fuel with
  | O => acc
  | S fuel' =>
      let acc' := String (digit (n mod 10)) acc in
      if (n / 10 =? 0)%nat then acc' else decimal_from fuel' (n / 10) acc'
  end.

(** The decimal numeral of [n]. *)
Definition decimal (n : nat) : string := decimal_from (S n) n "".

Fixpoint zeros (n : nat) : string :=
  match n with O => "" | S n' => String "0" (zeros n') end.

(** [s.padStart(len, '0')] *)
Definition padStart (len : nat) (s : string) : string :=
  zeros (len - String.length s) ++ s.

Definition yyyy (d : Date) : string := padStart 4 (decimal (getFullYear d)).
Definition MM (d : Date) : string := padStart 2 (decimal (monthNumber (getMonth d))).
Definition dd (d : Date) : string := padStart 2 (decimal (getDate d)).

(** [format(d, 'yyyy-MM-dd')] *)
Definition format_yyyy_MM_dd (d : Date) : string := yyyy d ++ "-" ++ MM d ++ "-" ++ dd d.
(** [format(d, 'yyyy-MM')] *)
Definition format_yyyy_MM (d : Date) : string := yyyy d ++ "-" ++ MM d.
(** [format(d, 'MM/dd')] *)
Definition format_MM_dd (d : Date) : string := MM d ++ "/" ++ dd d.
(** [format(d, 'MMM')] *)
Definition format_MMM (d : Date) : string :=
  match getMonth d with
  | Jan => "Jan" | Feb => "Feb" | Mar => "Mar" | Apr => "Apr" | May => "May"
  | Jun => "Jun" | Jul => "Jul" | Aug => "Aug" | Sep => "Sep" | Oct => "Oct"
  | Nov => "Nov" | Dec => "Dec"
  end.

End DateFormat.

(** ** The statistics view ([StatsView]) *)

Module Totals.
Record t : Type := mk {
  vol : float; profit : float; volGrowth : float; profitGrowth : float
}.
End Totals.

Module MonthEntry.
Record t : Type := mk { vol : float; profit : float }.
End MonthEntry.

Module ChartEntry.
Record t : Type := mk {
  label : string; dateStr : string; volume : float; profit : float
}.
End ChartEntry.

Module ClientCount.
Record t : Type := mk { name : string; count : nat }.
End ClientCount.

Module RouteCount.
Record t : Type := mk { route : string; count : nat }.
End RouteCount.

Module TypeCount.
Record t : Type := mk { name : string; value : nat }.
End TypeCount.

Module ProfitEntry.
Record t : Type := mk { label : string; dateStr : string; profit : float }.
End ProfitEntry.

Inductive ViewMode : Type := day | week | month.

Module StatsView.
Import DateFormat.

Section WithDates.
Context `{DateFns}.
Open Scope float_scope.

(** [s.loadingDate ? parseISO(s.loadingDate) : new Date(s.createdAt)] *)
Definition anchorDate (s : ShipmentRecord) : Date :=
  match loadingDate s with
  | Some text => if Js.truthy_str text then parseISO text else newDate (createdAt s)
  | None => newDate (createdAt s)
  end.

(** Whether that date is a valid one. *)
Definition anchorValid (s : ShipmentRecord) : bool :=
  match loadingDate s with
  | Some text => if Js.truthy_str text then validISO text else validStamp (createdAt s)
  | None => validStamp (createdAt s)
  end.

(** [d.getFullYear()] for that date [d]: a year, or [NaN] ([None]) when [d]
    is an Invalid Date. *)
Definition anchorYear (s : ShipmentRecord) : option nat :=
  let d := anchorDate s in
  if anchorValid s then Some (getFullYear d) else None.

(** [a === b] on two years: [NaN] is equal to nothing, not even to [NaN]. *)
Definition strictEqYear (a b : option nat) : bool :=
  match a, b with
  | Some x, Some y => (x =? y)%nat
  | _, _ => false
  end.

(** The records of the selected year, which is a year, or [NaN] once the
    selector has offered it and the user has chosen it. *)
Definition yearShipments (shipments : list ShipmentRecord) (selectedYear : option nat)
  : list ShipmentRecord :=
  filter (fun s => strictEqYear (anchorYear s) selectedYear) shipments.

(** The totals of the selected year, as the first loop accumulates them. *)
Definition currentTotals (yearShipments : list ShipmentRecord) : float * float :=
  fold_left
    (fun '(currentVol, currentProfit) (s : ShipmentRecord) =>
       let currentVol := currentVol + 1 in
       let rate := exchangeRate s |? 7.2 in
       let ocean := ((oceanFreightPrice s |? 0) - (oceanFreightCost s |? 0)) * rate in
       let truck := (truckingFeePrice s |? 0) - (truckingFeeCost s |? 0) in
       let customs := (customsFeePrice s |? 0) - (customsFeeCost s |? 0) in
       (currentVol, currentProfit + (ocean + truck + customs)))
    yearShipments (0, 0).

(** The second loop: volume and profit per month key. *)
Definition monthlyStats (yearShipments : list ShipmentRecord)
  : option (JsMap.t MonthEntry.t) :=
  Js.forEach
    (fun monthlyStats (s : ShipmentRecord) =>
       let d := anchorDate s in
       let k := format_yyyy_MM d in
       let monthlyStats :=
         if negb (JsMap.has k monthlyStats)
         then JsMap.set k (MonthEntry.mk 0 0) monthlyStats
         else monthlyStats in
       match JsMap.get k monthlyStats with
       | None => None
       | Some e =>
           let vol := MonthEntry.vol e + 1 in
           let rate := exchangeRate s |? 7.2 in
           let p := (((oceanFreightPrice s |? 0) - (oceanFreightCost s |? 0)) * rate)
                    + ((truckingFeePrice s |? 0) - (truckingFeeCost s |? 0))
                    + ((customsFeePrice s |? 0) - (customsFeeCost s |? 0)) in
           Some (JsMap.set k (MonthEntry.mk vol (MonthEntry.profit e + p)) monthlyStats)
       end)
    yearShipments [].

(** [prev === 0 ? 100 : ((curr - prev) / prev) * 100] *)
Definition growth (curr prev : float) : float :=
  if Js.strict_eq_num prev 0 then 100 else ((curr - prev) / prev) * 100.

(** Truthiness of [string | undefined]. *)
Definition truthy_key (k : option string) : bool :=
  match k with Some text => Js.truthy_str text | None => false end.

(** The memo of the annual totals and the month-over-month growth. *)
Definition annualTotals (yearShipments : list ShipmentRecord) : option Totals.t :=
  let '(currentVol, currentProfit) := currentTotals yearShipments in
  if (List.length yearShipments =? 0)%nat then Some (Totals.mk 0 0 0 0)
  else
    match monthlyStats yearShipments with
    | None => None
    | Some monthlyStats =>
        let sortedMonths := Js.sort Js.compare_default (JsMap.keys monthlyStats) in
        let n := Z.of_nat (List.length sortedMonths) in
        let latestMonth := Js.index sortedMonths (n - 1) in
        let prevMonth := Js.index sortedMonths (n - 2) in
        if negb (truthy_key latestMonth) || negb (truthy_key prevMonth)
        then Some (Totals.mk currentVol currentProfit 0 0)
        else
          match latestMonth, prevMonth with
          | Some latestMonth, Some prevMonth =>
              match JsMap.get latestMonth monthlyStats, JsMap.get prevMonth monthlyStats with
              | Some curr, Some prev =>
                  let vGrowth := growth (MonthEntry.vol curr) (MonthEntry.vol prev) in
                  let pGrowth := growth (MonthEntry.profit curr) (MonthEntry.profit prev) in
                  Some (Totals.mk currentVol currentProfit vGrowth pGrowth)
              | _, _ => None
              end
          | _, _ => None
          end
    end.

(** Records per client, most frequent first, five at most. *)
Definition clientCounts (yearShipments : list ShipmentRecord) : JsMap.t nat :=
  fold_left
    (fun map (s : ShipmentRecord) =>
       let name := Js.or_str (client s) "Unknown" in
       JsMap.set name (Js.or_count (JsMap.get name map) 0 + 1)%nat map)
    yearShipments [].

Definition byCountDescending (a b : string * nat) : Z :=
  (Z.of_nat (snd b) - Z.of_nat (snd a))%Z.

Definition topClients (yearShipments : list ShipmentRecord) : list ClientCount.t :=
  map (fun '(name, count) => ClientCount.mk name count)
    (firstn 5 (Js.sort byCountDescending (JsMap.entries (clientCounts yearShipments)))).

(** The template [`${s.pol} → ${s.pod}`]. *)
Definition routeOf (s : ShipmentRecord) : string :=
  (pol s ++ " → " ++ pod s)%string.

Definition routeCounts (yearShipments : list ShipmentRecord) : JsMap.t nat :=
  fold_left
    (fun map (s : ShipmentRecord) =>
       let route := routeOf s in
       JsMap.set route (Js.or_count (JsMap.get route map) 0 + 1)%nat map)
    yearShipments [].

Definition topRoutes (yearShipments : list ShipmentRecord) : list RouteCount.t :=
  map (fun '(route, count) => RouteCount.mk route count)
    (firstn 5 (Js.sort byCountDescending (JsMap.entries (routeCounts yearShipments)))).

(** The key and the label of the period a date falls in. *)
Definition periodOf (viewMode : ViewMode) (d : Date) : string * string :=
  match viewMode with
  | day => (format_yyyy_MM_dd d, format_MM_dd d)
  | week =>
      let weekStart := startOfWeek d in
      (format_yyyy_MM_dd weekStart, ("W" ++ decimal (weekOfYear weekStart))%string)
  | month => (format_yyyy_MM d, format_MMM d)
  end.

Definition grouped (yearShipments : list ShipmentRecord) (viewMode : ViewMode)
  : option (JsMap.t ChartEntry.t) :=
  Js.forEach
    (fun grouped (s : ShipmentRecord) =>
       let d := anchorDate s in
       let '(key, label) := periodOf viewMode d in
       let grouped :=
         if negb (JsMap.has key grouped)
         then JsMap.set key (ChartEntry.mk label key 0 0) grouped
         else grouped in
       match JsMap.get key grouped with
       | None => None
       | Some entry =>
           let volume := ChartEntry.volume entry + 1 in
           let rate := exchangeRate s |? 7.2 in
           let p := (((oceanFreightPrice s |? 0) - (oceanFreightCost s |? 0)) * rate)
                    + ((truckingFeePrice s |? 0) - (truckingFeeCost s |? 0))
                    + ((customsFeePrice s |? 0) - (customsFeeCost s |? 0)) in
           Some (JsMap.set key
                   (ChartEntry.mk (ChartEntry.label entry) (ChartEntry.dateStr entry)
                      volume (ChartEntry.profit entry + p))
                   grouped)
       end)
    yearShipments [].

(** Volume and profit over time, ascending by period key. *)
Definition chartData (yearShipments : list ShipmentRecord) (viewMode : ViewMode)
  : option (list ChartEntry.t) :=
  match grouped yearShipments viewMode with
  | None => None
  | Some grouped =>
      Some (Js.sort
              (fun a b => localeCompare (ChartEntry.dateStr a) (ChartEntry.dateStr b))
              (JsMap.values grouped))
  end.

(** Equality of two years in a [Set]: [NaN] is the same value as [NaN]. *)
Definition sameYear (a b : option nat) : bool :=
  match a, b with
  | Some x, Some y => (x =? y)%nat
  | None, None => true
  | _, _ => false
  end.

(** [(a, b) => b - a] on years; the difference is [NaN] when one of them is,
    which [sort] takes for 0. *)
Definition laterFirst (a b : option nat) : Z :=
  match a, b with
  | Some x, Some y => (Z.of_nat y - Z.of_nat x)%Z
  | _, _ => 0%Z
  end.

(** The years offered by the selector: the current one and the year of every
    record, a year or [NaN] ([None]), each once, sorted with [laterFirst].
    [currentYear] is [new Date().getFullYear()].  With [NaN] among the years
    the comparison is not consistent and the order of the result is the
    engine's own: only what the list holds is meant in that case. *)
Definition availableYears (currentYear : nat) (shipments : list ShipmentRecord)
  : list (option nat) :=
  let years := JsSet.add sameYear (Some currentYear) [] in
  let years :=
    fold_left
      (fun years (s : ShipmentRecord) => JsSet.add sameYear (anchorYear s) years)
      shipments years in
  Js.sort laterFirst years.

(** Records per container type, in the order the types are first met. *)
Definition containerTypes (yearShipments : list ShipmentRecord) : list TypeCount.t :=
  let map :=
    fold_left
      (fun map (s : ShipmentRecord) =>
         let type := Js.or_str (Some (containerType s)) "Other" in
         JsMap.set type (Js.or_count (JsMap.get type map) 0 + 1)%nat map)
      yearShipments [] in
  List.map (fun '(name, value) => TypeCount.mk name value) (JsMap.entries map).

(** Profit per month, whatever the view mode. *)
Definition monthlyProfitData (yearShipments : list ShipmentRecord)
  : option (list ProfitEntry.t) :=
  match
    Js.forEach
      (fun grouped (s : ShipmentRecord) =>
         let d := anchorDate s in
         let key := format_yyyy_MM d in
         let label := format_MMM d in
         let grouped :=
           if negb (JsMap.has key grouped)
           then JsMap.set key (ProfitEntry.mk label key 0) grouped
           else grouped in
         match JsMap.get key grouped with
         | None => None
         | Some entry =>
             let rate := exchangeRate s |? 7.2 in
             let p := (((oceanFreightPrice s |? 0) - (oceanFreightCost s |? 0)) * rate)
                      + ((truckingFeePrice s |? 0) - (truckingFeeCost s |? 0))
                      + ((customsFeePrice s |? 0) - (customsFeeCost s |? 0)) in
             Some (JsMap.set key
                     (ProfitEntry.mk (ProfitEntry.label entry) (ProfitEntry.dateStr entry)
                        (ProfitEntry.profit entry + p))
                     grouped)
         end)
      yearShipments []
  with
  | None => None
  | Some grouped =>
      Some (Js.sort
              (fun a b => localeCompare (ProfitEntry.dateStr a) (ProfitEntry.dateStr b))
              (JsMap.values grouped))
  end.

End WithDates.

End StatsView.

(** ** The shipment store ([useShipmentStore])

    Every action first updates the store, then awaits the remote call, then
    settles.  Each action is given as its two synchronous halves, with the
    values the first half captures passed to the second, and as their
    composition when nothing else touches the store in between. *)

Module ShipmentStore.

Record State : Type := mkState {
  shipments : list ShipmentRecord;
  loading : bool;
  error : option string
}.

(** What the awaited call yields: [{ data }] or [{ error: { message } }]. *)
Inductive Response (A : Type) : Type :=
| Done (data : A)
| Failed (message : string).
Arguments Done {A} data.
Arguments Failed {A} message.

Definition initial : State := mkState [] false None.

Definition fetchShipments_begin (state : State) : State :=
  mkState (shipments state) true None.

Definition fetchShipments_settle (response : Response (list ShipmentRecord))
    (state : State) : State :=
  match response with
  | Failed message => mkState (shipments state) false (Some message)
  | Done data => mkState data false (error state)
  end.

Definition fetchShipments (response : Response (list ShipmentRecord))
    (state : State) : State :=
  fetchShipments_settle response (fetchShipments_begin state).

(** [tempId] is the UUID drawn for the provisional record and [now] the ISO
    text of the clock. *)
Definition newRecord (shipment : ShipmentData) (tempId now : string) : ShipmentRecord :=
  mkShipment tempId (CreatedIso now) shipment.

Definition addShipment_begin (shipment : ShipmentData) (tempId now : string)
    (state : State) : State :=
  mkState (newRecord shipment tempId now :: shipments state)
    (loading state) (error state).

Definition addShipment_settle (tempId : string) (response : Response unit)
    (state : State) : State :=
  match response with
  | Failed message =>
      mkState (filter (fun s => negb (id s =? tempId)%string) (shipments state))
        (loading state) (Some message)
  | Done _ => fetchShipments_begin state
  end.

Definition addShipment (shipment : ShipmentData) (tempId now : string)
    (response : Response unit) (state : State) : State :=
  addShipment_settle tempId response (addShipment_begin shipment tempId now state).

(** The revert of the three actions below: [set({ shipments:
    originalShipments, error: error.message })]. *)
Definition revert (originalShipments : list ShipmentRecord)
    (response : Response unit) (state : State) : State :=
  match response with
  | Failed message => mkState originalShipments (loading state) (Some message)
  | Done _ => state
  end.

Definition updateShipment_begin (id' : string) (updatedShipment : PartialShipment)
    (state : State) : State * list ShipmentRecord :=
  let originalShipments := shipments state in
  (mkState
     (map (fun s => if (id s =? id')%string then spread s updatedShipment else s)
        (shipments state))
     (loading state) (error state),
   originalShipments).

Definition updateShipment (id' : string) (updatedShipment : PartialShipment)
    (response : Response unit) (state : State) : State :=
  let '(state', originalShipments) := updateShipment_begin id' updatedShipment state in
  revert originalShipments response state'.

Definition deleteShipment_begin (id' : string) (state : State)
  : State * list ShipmentRecord :=
  let originalShipments := shipments state in
  (mkState (filter (fun s => negb (id s =? id')%string) (shipments state))
     (loading state) (error state),
   originalShipments).

Definition deleteShipment (id' : string) (response : Response unit) (state : State)
  : State :=
  let '(state', originalShipments) := deleteShipment_begin id' state in
  revert originalShipments response state'.

(** [ids.includes(s.id)] *)
Definition includes_id (ids : list string) (x : string) : bool :=
  existsb (fun y => (y =? x)%string) ids.

Definition deleteShipments_begin (ids : list string) (state : State)
  : State * list ShipmentRecord :=
  let originalShipments := shipments state in
  (mkState (filter (fun s => negb (includes_id ids (id s))) (shipments state))
     (loading state) (error state),
   originalShipments).

Definition deleteShipments (ids : list string) (response : Response unit)
    (state : State) : State :=
  let '(state', originalShipments) := deleteShipments_begin ids state in
  revert originalShipments response state'.

End ShipmentStore.

(** ** The selection of the shipment list ([ShipmentList], continued)

    [selectedIds] is a [Set<string>].  Of the export handlers the embedding
    keeps what they decide: which records go into the document, under which
    title and file name, or that the handler throws; laying out the PDF or
    Word document is the libraries' work. *)

Module Selection.
Import ShipmentStore.

Definition handleSelectAll (filteredShipments : list ShipmentRecord) (checked : bool)
  : list string :=
  if checked
  then JsSet.from String.eqb (map (fun s : ShipmentRecord => id s) filteredShipments)
  else [].

Definition handleSelectOne (selectedIds : list string) (id' : string) (checked : bool)
  : list string :=
  let next := selectedIds in
  if checked then JsSet.add String.eqb id' next else JsSet.delete String.eqb id' next.

Definition getExportTargets (selectedIds : list string)
    (filteredShipments : list ShipmentRecord) : list ShipmentRecord :=
  if (0 <? JsSet.size selectedIds)%nat
  then filter (fun s => JsSet.has String.eqb (id s) selectedIds) filteredShipments
  else filteredShipments.

Definition allSelected (selectedIds : list string)
    (filteredShipments : list ShipmentRecord) : bool :=
  (0 <? List.length filteredShipments)%nat
  && (JsSet.size selectedIds =? List.length filteredShipments)%nat.

Definition isIndeterminate (selectedIds : list string)
    (filteredShipments : list ShipmentRecord) : bool :=
  (0 <? JsSet.size selectedIds)%nat
  && (JsSet.size selectedIds <? List.length filteredShipments)%nat.

(** What an export handler produces. *)
Inductive Export : Type :=
| Detail (item : ShipmentRecord) (fileName : string)
| Report (title : string) (targets : list ShipmentRecord) (fileName : string)
| Throws.

(** [handleBatchExportPDF] and [handleBatchExportWord], which differ in the
    file extension: with one id selected the detail of [targets[0]], whose
    fields are read at once (a [TypeError] when it is [undefined]);
    otherwise the report of all targets. *)
Definition handleBatchExport (extension : string) (selectedIds : list string)
    (filteredShipments : list ShipmentRecord) : Export :=
  let targets := getExportTargets selectedIds filteredShipments in
  if (JsSet.size selectedIds =? 1)%nat then
    match Js.index targets 0 with
    | Some item => Detail item ("shipment_" ++ bookingNo item ++ "_detail." ++ extension)
    | None => Throws
    end
  else
    let title := if (0 <? JsSet.size selectedIds)%nat
                 then "Selected Shipments Report" else "Shipment Report List" in
    Report title targets
      (if (0 <? JsSet.size selectedIds)%nat
       then "selected_shipments." ++ extension
       else "shipments_list." ++ extension).

Definition handleBatchExportPDF := handleBatchExport "pdf".
Definition handleBatchExportWord := handleBatchExport "docx".

(** [handleBatchDelete], once the user has answered the confirmation: the
    store after the optimistic half of [deleteShipments], and the selection
    that is left. *)
Definition handleBatchDelete (confirmed : bool) (selectedIds : list string)
    (state : State) : State * list string :=
  if confirmed
  then (fst (deleteShipments_begin selectedIds state), [])
  else (state, selectedIds).

End Selection.

(** ** Submitting the form ([ShipmentForm], continued) *)

Module FormSubmit.
Import ShipmentStore.

(** [onSubmit(data)] up to the first [await] of the store action it starts:
    an edit updates the record opened for editing, a new form adds a
    provisional record.  The object passed on, [{ ...data, bookingNo:
    data.bookingNo, businessNo: data.businessNo }], has the keys of [data]. *)
Definition onSubmit (initialData : option ShipmentRecord) (data : ShipmentData)
    (tempId now : string) (state : State) : State :=
  match initialData with
  | Some initialData =>
      fst (updateShipment_begin (id initialData) (patchOfData data) state)
  | None => addShipment_begin data tempId now state
  end.

End FormSubmit.

(** ** The session store ([useAuthStore]) and what the application shows

    [User] and [Session] are the authentication library's; of a session the
    store reads its user. *)

Module AuthStore.

Section WithLibrary.
Variables (User Session : Type) (sessionUser : Session -> User).

Record State : Type := mkState {
  session : option Session;
  user : option User;
  loading : bool
}.

Definition initial : State := mkState None None true.

(** [set({ session, user: session?.user ?? null, loading: false })], done
    by [initialize] with the stored session and by the listener it installs
    with every later one. *)
Definition sessionArrived (s : option Session) (state : State) : State :=
  mkState s (option_map sessionUser s) false.

(** [logout], after [signOut] has returned: [set({ session: null, user:
    null })]. *)
Definition logout (state : State) : State :=
  mkState None None (loading state).

Inductive Event : Type :=
| Initialized (s : option Session)
| AuthStateChanged (s : option Session)
| LoggedOut.

Definition step (state : State) (e : Event) : State :=
  match e with
  | Initialized s | AuthStateChanged s => sessionArrived s state
  | LoggedOut => logout state
  end.

Definition run (events : list Event) (state : State) : State :=
  fold_left step events state.

(** What [App] renders. *)
Inductive Screen : Type := Spinner | Login | Dashboard.

Definition screen (state : State) : Screen :=
  if loading state then Spinner
  else match user state with
       | None => Login
       | Some _ => Dashboard
       end.

End WithLibrary.

End AuthStore.

(** ** The login page ([LoginPage]) *)

Module LoginPage.

Inductive View : Type := login | register | forgot.

Record State : Type := mkState {
  view : View;
  email : string;
  password : string;
  username : string;
  loading : bool;
  error : option string;
  successMsg : option string
}.

(** The [{ error }] a call of the session store resolves to: none, or an
    error with its message, which may be missing. *)
Definition AuthError : Type := option (option string).

(** [handleSubmit], given what the awaited call resolves to. *)
Definition handleSubmit (authError : AuthError) (state : State) : State :=
  let state := mkState (view state) (email state) (password state) (username state)
                 true None None in
  match view state with
  | login =>
      match authError with
      | Some message =>
          mkState (view state) (email state) (password state) (username state)
            false (Some (Js.or_str message "Login failed")) (successMsg state)
      | None => state
      end
  | register =>
      match authError with
      | Some message =>
          mkState (view state) (email state) (password state) (username state)
            false (Some (Js.or_str message "Registration failed")) (successMsg state)
      | None =>
          mkState login (email state) "" "" false (error state)
            (Some "Account created! You can now log in.")
      end
  | forgot =>
      match authError with
      | Some message =>
          mkState (view state) (email state) (password state) (username state)
            false (Some (Js.or_str message "Failed to send reset email"))
            (successMsg state)
      | None =>
          mkState (view state) (email state) (password state) (username state)
            false (error state) (Some "Password reset email sent! Check your inbox.")
      end
  end.

End LoginPage.

(** ** Loading the PDF font ([lib/pdf-font.ts])

    Of the document the embedding keeps its virtual file system and its
    fonts.  The font file is fetched over the network; [btoa] is the
    browser's. *)

Module PdfFont.

Record Doc : Type := mkDoc {
  vfs : list (string * string);
  fonts : list (string * string * string)
}.

Definition existsFileInVFS (fileName : string) (doc : Doc) : bool :=
  existsb (fun file => (fst file =? fileName)%string) (vfs doc).

(** The two additions are taken to succeed, as jsPDF's do on a file name
    and a font the document does not hold yet. *)
Definition addFileToVFS (fileName data : string) (doc : Doc) : Doc :=
  mkDoc (vfs doc ++ [(fileName, data)]) (fonts doc).

Definition addFont (fileName fontName style : string) (doc : Doc) : Doc :=
  mkDoc (vfs doc) (fonts doc ++ [(fileName, fontName, style)]).

(** What [fetch] comes to: it rejects, or resolves to a response that is
    [ok] or not and whose body yields its bytes, or fails to ([None]). *)
Inductive Fetched : Type :=
| Rejected
| Response (ok : bool) (body : option (list ascii)).

Section WithBrowser.
Variable btoa : string -> string.

(** The loop appends [String.fromCharCode(bytes[i])], the character with
    the code of the byte. *)
Definition arrayBufferToBase64 (buffer : list ascii) : string :=
  let binary := fold_left (fun binary byte => (binary ++ String byte "")%string) buffer "" in
  btoa binary.

Definition loadChineseFont (fetched : Fetched) (doc : Doc) : string * Doc :=
  let fontName := "NotoSansSC" in
  if existsFileInVFS "NotoSansSC-Regular.ttf" doc then (fontName, doc)
  else
    match fetched with
    | Response true (Some buffer) =>
        let base64 := arrayBufferToBase64 buffer in
        let doc := addFileToVFS "NotoSansSC-Regular.ttf" base64 doc in
        let doc := addFont "NotoSansSC-Regular.ttf" fontName "normal" doc in
        (fontName, doc)
    | Response true None | Response false _ | Rejected => ("helvetica", doc)
    end.

End WithBrowser.

End PdfFont.

(** * Vocabulary of the properties

    Definitions the statements below are written with: what the claims talk
    about (occurrence of a text in another, ranking of counted keys, the
    records of a month) and the sample records of the examples. *)

(** ** Profit *)

Section ProfitVocabulary.
Open Scope float_scope.

Definition zero_or_absent (x : option float) : Prop := x = None \/ x = Some 0.

(** The contribution of one of the fourteen additional fees. *)
Definition keyProfit (key : FeeKey) (record : ShipmentData) : float :=
  Js.Number (keyPrice key record |? 0) - Js.Number (keyCost key record |? 0).

(** The profit the statistics view books for one record: ocean freight,
    trucking and customs. *)
Definition statsProfit (s : ShipmentRecord) : float :=
  ShipmentList.oceanProfit s + ShipmentList.truckingProfit s
  + ShipmentList.customsProfit s.

Definition sumProfit (l : list ShipmentRecord) : float :=
  fold_left (fun acc s => acc + statsProfit s) l 0.

Definition countVolume (l : list ShipmentRecord) : float :=
  fold_left (fun acc (_ : ShipmentRecord) => acc + 1) l 0.

(** One more record in a chart entry. *)
Definition chartStep (e : ChartEntry.t) (s : ShipmentRecord) : ChartEntry.t :=
  ChartEntry.mk (ChartEntry.label e) (ChartEntry.dateStr e)
    (ChartEntry.volume e + 1) (ChartEntry.profit e + statsProfit s).

(** One more record in a month entry. *)
Definition bump (e : MonthEntry.t) (s : ShipmentRecord) : MonthEntry.t :=
  MonthEntry.mk (MonthEntry.vol e + 1) (MonthEntry.profit e + statsProfit s).

End ProfitVocabulary.

(** ** What the form holds *)

Section FormVocabulary.
Context `{StringToNumber}.
Import ShipmentForm.
Open Scope float_scope.

(** The number an input of the form stands for: the number installed, or
    the number its text reads as. *)
Definition figure (form : FormValues) (input : NumberInput) : option float :=
  match typed form input with
  | Some text => Some (toNumber text)
  | None => fieldOf input (installed form)
  end.

(** The record that holds what the form holds: its texts, and under the
    name of every numeric input the number the input stands for. *)
Definition entered (form : FormValues) : ShipmentData :=
  {| bookingNo := bookingNo (installed form);
     businessNo := businessNo (installed form); shipper := shipper (installed form);
     client := client (installed form); fleet := fleet (installed form);
     loadingDate := loadingDate (installed form);
     sailingDate := sailingDate (installed form);
     arrivalDate := arrivalDate (installed form); pol := pol (installed form);
     pod := pod (installed form); vesselName := vesselName (installed form);
     containerType := containerType (installed form);
     containerNo := containerNo (installed form);
     oceanFreightCost := figure form oceanFreightCostInput;
     oceanFreightPrice := figure form oceanFreightPriceInput;
     truckingFeeCost := figure form truckingFeeCostInput;
     truckingFeePrice := figure form truckingFeePriceInput;
     customsFeeCost := figure form customsFeeCostInput;
     customsFeePrice := figure form customsFeePriceInput;
     thcCost := figure form (costInput thc);
     thcPrice := figure form (priceInput thc);
     printingFeeCost := figure form (costInput printingFee);
     printingFeePrice := figure form (priceInput printingFee);
     sealFeeCost := figure form (costInput sealFee);
     sealFeePrice := figure form (priceInput sealFee);
     docFeeCost := figure form (costInput docFee);
     docFeePrice := figure form (priceInput docFee);
     telexFeeCost := figure form (costInput telexFee);
     telexFeePrice := figure form (priceInput telexFee);
     blFeeCost := figure form (costInput blFee);
     blFeePrice := figure form (priceInput blFee);
     diffPickupFeeCost := figure form (costInput diffPickupFee);
     diffPickupFeePrice := figure form (priceInput diffPickupFee);
     weighingFeeCost := figure form (costInput weighingFee);
     weighingFeePrice := figure form (priceInput weighingFee);
     vgmFeeCost := figure form (costInput vgmFee);
     vgmFeePrice := figure form (priceInput vgmFee);
     amendmentFeeCost := figure form (costInput amendmentFee);
     amendmentFeePrice := figure form (priceInput amendmentFee);
     detentionFeeCost := figure form (costInput detentionFee);
     detentionFeePrice := figure form (priceInput detentionFee);
     demurrageFeeCost := figure form (costInput demurrageFee);
     demurrageFeePrice := figure form (priceInput demurrageFee);
     handlingFeeCost := figure form (costInput handlingFee);
     handlingFeePrice := figure form (priceInput handlingFee);
     insuranceFeeCost := figure form (costInput insuranceFee);
     insuranceFeePrice := figure form (priceInput insuranceFee);
     exchangeRate := figure form exchangeRateInput;
     isSpecialDeclaration := isSpecialDeclaration (installed form) |}.

(** What [||] puts in the place of a falsy value of the input. *)
Definition fallbackOf (input : NumberInput) : float :=
  match input with
  | exchangeRateInput => 7.2
  | _ => 0
  end.

(** The text typed into the input, if any, is empty, or reads as a number
    that is neither a zero nor [NaN], or reads as the fallback of the input. *)
Definition readsAlike (form : FormValues) (input : NumberInput) : Prop :=
  match typed form input with
  | None => True
  | Some text =>
      text = "" \/ Js.truthy_num (toNumber text) = true
      \/ toNumber text = fallbackOf input
  end.

End FormVocabulary.

(** ** Searching and selecting *)

(** [sub] occurs in [s]: some text before it and some text after it. *)
Definition occursIn (sub s : string) : Prop :=
  exists before after : string, s = (before ++ sub ++ after)%string.

(** Order-preserving selection of elements. *)
Inductive Subsequence {A : Type} : list A -> list A -> Prop :=
| sub_nil : Subsequence [] []
| sub_keep x l1 l2 : Subsequence l1 l2 -> Subsequence (x :: l1) (x :: l2)
| sub_drop x l1 l2 : Subsequence l1 l2 -> Subsequence l1 (x :: l2).

Section SearchVocabulary.
Context `{StringCase}.

(** The search predicate, as the claim words it. *)
Definition searchMatches (searchQuery : string) (item : ShipmentRecord) : Prop :=
  let q := toLowerCase searchQuery in
  occursIn q (toLowerCase (bookingNo item))
  \/ occursIn q (toLowerCase (businessNo item))
  \/ occursIn q (toLowerCase (containerNo item))
  \/ occursIn q (toLowerCase (shipper item))
  \/ exists c, client item = Some c /\ occursIn q (toLowerCase c).

End SearchVocabulary.

(** ** Counting and ranking keys *)

(** The position at which [k] is first met in [l] ([length l] when never). *)
Fixpoint firstIndex (k : string) (l : list string) : nat :=
  match l with
  | [] => 0
  | x :: rest => if (x =? k)%string then 0 else S (firstIndex k rest)
  end.

(** How often [k] is met in [l]. *)
Definition occurrences (k : string) (l : list string) : nat :=
  count_occ string_dec l k.

(** The counting loop of the top-clients and top-routes memos, over the
    keys of the records. *)
Definition tally (names : list string) : JsMap.t nat :=
  fold_left
    (fun map name => JsMap.set name (Js.or_count (JsMap.get name map) 0 + 1) map)
    names [].

(** [a] is listed before [b]: a larger count, or the same count and a key
    first met earlier among [names]. *)
Definition ranksBefore (names : list string) (a b : string * nat) : Prop :=
  snd b < snd a
  \/ (snd a = snd b /\ firstIndex (fst a) names < firstIndex (fst b) names).

(** What it is for [top] to be the five most frequent keys of [names]:
    at most five entries, each a key of [names] with the number of its
    occurrences, no key twice, in ranking order, and whatever key is left
    out is left out of a full list and ranks after every listed one: it
    occurs less often, or as often and is first met later. *)
Definition isTopFive (names : list string) (top : list (string * nat)) : Prop :=
  List.length top <= 5
  /\ (forall k c, In (k, c) top -> In k names /\ c = occurrences k names)
  /\ NoDup (map fst top)
  /\ StronglySorted (ranksBefore names) top
  /\ (forall k, In k names -> ~ In k (map fst top) ->
        List.length top = 5
        /\ forall e, In e top -> ranksBefore names e (k, occurrences k names)).

(** The name a record is counted under: its client, or the placeholder when
    the client is missing or empty. *)
Definition clientName (s : ShipmentRecord) : string :=
  match client s with
  | Some (String a rest) => String a rest
  | Some EmptyString | None => "Unknown"
  end.

Definition clientPair (c : ClientCount.t) : string * nat :=
  (ClientCount.name c, ClientCount.count c).

Definition routePair (r : RouteCount.t) : string * nat :=
  (RouteCount.route r, RouteCount.count r).

(** ** Grouping records under a key

    The loops that fill [monthlyStats] and [grouped] have one shape: make
    the entry of the record's key if there is none, then update it. *)

Section GroupingVocabulary.
Variables (E : Type) (groupKey : ShipmentRecord -> string)
  (init : ShipmentRecord -> E) (step : E -> ShipmentRecord -> E).

Definition groupLoop (l : list ShipmentRecord) : option (JsMap.t E) :=
  Js.forEach
    (fun m s =>
       let k := groupKey s in
       let m := if negb (JsMap.has k m) then JsMap.set k (init s) m else m in
       match JsMap.get k m with
       | None => None
       | Some e => Some (JsMap.set k (step e s) m)
       end)
    l [].

Definition inGroup (k : string) (s : ShipmentRecord) : bool := (groupKey s =? k)%string.

(** The entry of the key [k]: started by the first record under [k] and
    updated by each record under [k] in turn; none when no record is. *)
Definition groupEntry (k : string) (l : list ShipmentRecord) : option E :=
  match filter (inGroup k) l with
  | [] => None
  | first :: _ => Some (fold_left step (filter (inGroup k) l) (init first))
  end.

End GroupingVocabulary.

(** ** Months *)

(** A text of characters below 128, each of which is one byte and one code
    unit. *)
Definition plainText (s : string) : Prop :=
  Forall (fun c => (N_of_ascii c < 128)%N) (list_ascii_of_string s).

Section MonthVocabulary.
Context `{DateFns}.
Import StatsView DateFormat.

Definition monthKey (s : ShipmentRecord) : string := format_yyyy_MM (anchorDate s).

Definition inMonth (k : string) (s : ShipmentRecord) : bool := (monthKey s =? k)%string.

(** The entry of the month with key [k]: its records, taken in order. *)
Definition monthEntry (k : string) (l : list ShipmentRecord) : MonthEntry.t :=
  fold_left bump (filter (inMonth k) l) (MonthEntry.mk 0 0).

Definition monthOf (s : ShipmentRecord) : Month := getMonth (anchorDate s).

(** The key [format(d, 'yyyy-MM')] of a month of a year. *)
Definition keyOf (year : nat) (mth : Month) : string :=
  format_yyyy_MM (mkDate year mth 1).

Definition monthCmp (a b : Month) : Z :=
  match Nat.compare (monthNumber a) (monthNumber b) with
  | Lt => (-1)%Z | Eq => 0%Z | Gt => 1%Z
  end.

Definition inCalendarMonth (mth : Month) (s : ShipmentRecord) : bool :=
  (monthNumber (monthOf s) =? monthNumber mth)%nat.

(** The records of the month [mth], in the order of the collection. *)
Definition recordsOf (mth : Month) (l : list ShipmentRecord) : list ShipmentRecord :=
  filter (inCalendarMonth mth) l.

(** The key and the label of the period of a record's anchor date. *)
Definition periodKey (viewMode : ViewMode) (s : ShipmentRecord) : string :=
  fst (periodOf viewMode (anchorDate s)).

Definition periodLabel (viewMode : ViewMode) (s : ShipmentRecord) : string :=
  snd (periodOf viewMode (anchorDate s)).

(** The records of the period with key [k], in the order of the collection. *)
Definition recordsIn (viewMode : ViewMode) (k : string) (l : list ShipmentRecord)
  : list ShipmentRecord :=
  filter (inGroup (periodKey viewMode) k) l.

End MonthVocabulary.

(** ** Sample data

    A record builder for the examples: the listed fields are given, every
    other text field is empty and every other fee is [0].  The examples run
    the definitions with [ascii_case] for the case tables and with
    [iso_dates] for the date library: ISO loading dates are read digit by
    digit.  The examples use ISO dates and no weekly view; for them
    [iso_dates] reads a numeric creation stamp as the epoch day and leaves a
    date where it is when asked for the start of its week. *)

Section SampleData.
Import ShipmentStore.
Open Scope float_scope.

Definition sampleData (bookingNo' : string) (client' loadingDate' : option string)
    (pol' pod' containerType' : string)
    (oceanCost' oceanPrice' truckingCost' truckingPrice' customsCost' customsPrice'
       thcPrice' exchangeRate' : option float) : ShipmentData :=
  {| bookingNo := bookingNo'; businessNo := ""; shipper := ""; client := client';
     fleet := Some ""; loadingDate := loadingDate'; sailingDate := Some "";
     arrivalDate := Some ""; pol := pol'; pod := pod'; vesselName := Some "";
     containerType := containerType'; containerNo := ""; oceanFreightCost := oceanCost';
     oceanFreightPrice := oceanPrice'; truckingFeeCost := truckingCost';
     truckingFeePrice := truckingPrice'; customsFeeCost := customsCost';
     customsFeePrice := customsPrice'; thcCost := Some 0%float; thcPrice := thcPrice';
     printingFeeCost := Some 0%float; printingFeePrice := Some 0%float;
     sealFeeCost := Some 0%float; sealFeePrice := Some 0%float; docFeeCost := Some 0%float;
     docFeePrice := Some 0%float; telexFeeCost := Some 0%float;
     telexFeePrice := Some 0%float; blFeeCost := Some 0%float; blFeePrice := Some 0%float;
     diffPickupFeeCost := Some 0%float; diffPickupFeePrice := Some 0%float;
     weighingFeeCost := Some 0%float; weighingFeePrice := Some 0%float;
     vgmFeeCost := Some 0%float; vgmFeePrice := Some 0%float;
     amendmentFeeCost := Some 0%float; amendmentFeePrice := Some 0%float;
     detentionFeeCost := Some 0%float; detentionFeePrice := Some 0%float;
     demurrageFeeCost := Some 0%float; demurrageFeePrice := Some 0%float;
     handlingFeeCost := Some 0%float; handlingFeePrice := Some 0%float;
     insuranceFeeCost := Some 0%float; insuranceFeePrice := Some 0%float;
     exchangeRate := exchangeRate'; isSpecialDeclaration := false |}.

(** Lower-casing of the letters [A]-[Z], every other character kept. *)
Definition lower_ascii (c : ascii) : ascii :=
  let n := nat_of_ascii c in
  if ((65 <=? n) && (n <=? 90))%nat then ascii_of_nat (n + 32) else c.

Fixpoint lower (s : string) : string :=
  match s with
  | EmptyString => EmptyString
  | String c rest => String (lower_ascii c) (lower rest)
  end.

Definition ascii_case : StringCase :=
  {| toLowerCase := lower; toLowerCase_empty := eq_refl |}.

(** The value of a decimal digit. *)
Definition digitNumber (c : ascii) : float :=
  match (nat_of_ascii c - 48)%nat with
  | 0%nat => 0 | 1%nat => 1 | 2%nat => 2 | 3%nat => 3 | 4%nat => 4
  | 5%nat => 5 | 6%nat => 6 | 7%nat => 7 | 8%nat => 8 | _ => 9
  end.

(** The digits of a decimal text read as a whole number, and the power of
    ten its decimals divide it by. *)
Fixpoint decimalParts (text : string) (decimals : bool) (digits scale : float)
  : float * float :=
  match text with
  | EmptyString => (digits, scale)
  | String c rest =>
      if (c =? ".")%char then decimalParts rest true digits scale
      else decimalParts rest decimals (digits * 10 + digitNumber c)
             (if decimals then scale * 10 else scale)
  end.

(** The number a short decimal text such as [1200] or [7.25] reads as: the
    quotient, rounded once, of two numbers that are exact. *)
Definition decimalValue (text : string) : float :=
  let '(digits, scale) := decimalParts text false 0 1 in digits / scale.

Definition decimal_texts : StringToNumber :=
  {| toNumber := decimalValue; toNumber_empty := eq_refl |}.

(** A new form into which the ocean-freight cost and price and the exchange
    rate were typed. *)
Definition typedForm (oceanCost' oceanPrice' rate' : string) : ShipmentForm.FormValues :=
  ShipmentForm.mkForm ShipmentForm.defaultValues
    (fun input =>
       match input with
       | ShipmentForm.oceanFreightCostInput => Some oceanCost'
       | ShipmentForm.oceanFreightPriceInput => Some oceanPrice'
       | ShipmentForm.exchangeRateInput => Some rate'
       | _ => None
       end).

Definition zeroRateForm : ShipmentForm.FormValues := typedForm "1000" "1200" "0".

(** A new form into which the seven figures of the scenario were typed. *)
Definition scenarioForm : ShipmentForm.FormValues :=
  ShipmentForm.mkForm ShipmentForm.defaultValues
    (fun input =>
       match input with
       | ShipmentForm.oceanFreightCostInput => Some "1000"
       | ShipmentForm.oceanFreightPriceInput => Some "1200"
       | ShipmentForm.exchangeRateInput => Some "7.0"
       | ShipmentForm.truckingFeeCostInput => Some "500"
       | ShipmentForm.truckingFeePriceInput => Some "600"
       | ShipmentForm.customsFeeCostInput => Some "200"
       | ShipmentForm.customsFeePriceInput => Some "250"
       | _ => None
       end).

Definition scenarioRecord : ShipmentData :=
  sampleData "BK-1" (Some "Acme") (Some "2024-03-15") "Shanghai" "Los Angeles" "40HQ"
    (Some 1000) (Some 1200) (Some 500) (Some 600) (Some 200) (Some 250)
    (Some 0) (Some 7.0).

Definition storedRecord : ShipmentRecord :=
  mkShipment "a1" (CreatedIso "2024-03-15T08:00:00.000Z") scenarioRecord.

Definition storedState : State := mkState [storedRecord] false None.

Definition thcOnlyRecord : ShipmentRecord :=
  mkShipment "r1" (CreatedIso "2024-03-15T08:00:00.000Z")
    (sampleData "BK-7" (Some "Acme") (Some "2024-03-15") "Shanghai" "Rotterdam" "40HQ"
       (Some 0) (Some 0) (Some 0) (Some 0) (Some 0) (Some 0)
       (Some 10) (Some 7.2)).

(** A record as the server may hand it over: no client, no dates, no
    optional fee but an insurance sold at 5, no exchange rate, and a
    terminal handling charge sold at 10. *)
Definition sparseRecord : ShipmentRecord :=
  mkShipment "p9" (CreatedIso "2024-05-02T10:00:00.000Z")
    {| bookingNo := "BK-9"; businessNo := "B-9"; shipper := "Delta Ltd";
       client := None; fleet := None; loadingDate := None; sailingDate := None;
       arrivalDate := None; pol := "Ningbo"; pod := "Hamburg"; vesselName := None;
       containerType := "20GP"; containerNo := "DLTU7654321";
       oceanFreightCost := Some 0; oceanFreightPrice := Some 0;
       truckingFeeCost := Some 0; truckingFeePrice := Some 0;
       customsFeeCost := Some 0; customsFeePrice := Some 0; thcCost := Some 0;
       thcPrice := Some 10; printingFeeCost := Some 0; printingFeePrice := Some 0;
       sealFeeCost := Some 0; sealFeePrice := Some 0; docFeeCost := Some 0;
       docFeePrice := Some 0; telexFeeCost := Some 0; telexFeePrice := Some 0;
       blFeeCost := Some 0; blFeePrice := Some 0; diffPickupFeeCost := Some 0;
       diffPickupFeePrice := Some 0; weighingFeeCost := Some 0;
       weighingFeePrice := Some 0; vgmFeeCost := None; vgmFeePrice := None;
       amendmentFeeCost := None; amendmentFeePrice := None; detentionFeeCost := None;
       detentionFeePrice := None; demurrageFeeCost := None;
       demurrageFeePrice := None; handlingFeeCost := None; handlingFeePrice := None;
       insuranceFeeCost := None; insuranceFeePrice := Some 5; exchangeRate := None;
       isSpecialDeclaration := false |}.

(** Values the form's schema accepts: the booking of [storedRecord] with
    trucking sold at 700 and a terminal handling charge sold at 30. *)
Definition editedData : ShipmentData :=
  {| bookingNo := "BK-1"; businessNo := "B-1"; shipper := "Acme Ltd";
     client := Some "Acme"; fleet := Some ""; loadingDate := Some "2024-03-15";
     sailingDate := Some ""; arrivalDate := Some ""; pol := "Shanghai";
     pod := "Los Angeles"; vesselName := Some ""; containerType := "40HQ";
     containerNo := "ACMU1234567"; oceanFreightCost := Some 1000;
     oceanFreightPrice := Some 1200; truckingFeeCost := Some 500;
     truckingFeePrice := Some 700; customsFeeCost := Some 200;
     customsFeePrice := Some 250; thcCost := Some 0; thcPrice := Some 30;
     printingFeeCost := Some 0; printingFeePrice := Some 0; sealFeeCost := Some 0;
     sealFeePrice := Some 0; docFeeCost := Some 0; docFeePrice := Some 0;
     telexFeeCost := Some 0; telexFeePrice := Some 0; blFeeCost := Some 0;
     blFeePrice := Some 0; diffPickupFeeCost := Some 0; diffPickupFeePrice := Some 0;
     weighingFeeCost := Some 0; weighingFeePrice := Some 0; vgmFeeCost := Some 0;
     vgmFeePrice := Some 0; amendmentFeeCost := Some 0; amendmentFeePrice := Some 0;
     detentionFeeCost := Some 0; detentionFeePrice := Some 0;
     demurrageFeeCost := Some 0; demurrageFeePrice := Some 0;
     handlingFeeCost := Some 0; handlingFeePrice := Some 0;
     insuranceFeeCost := Some 0; insuranceFeePrice := Some 0;
     exchangeRate := Some 7.0; isSpecialDeclaration := false |}.

Definition twoRecordState : State := mkState [storedRecord; thcOnlyRecord] false None.

(** An update of the exchange rate alone. *)
Definition ratePatch : PartialShipment :=
  {| set_id := None; set_createdAt := None; set_bookingNo := None; set_businessNo := None;
     set_shipper := None; set_client := None; set_fleet := None; set_loadingDate := None;
     set_sailingDate := None; set_arrivalDate := None; set_pol := None; set_pod := None;
     set_vesselName := None; set_containerType := None; set_containerNo := None;
     set_oceanFreightCost := None; set_oceanFreightPrice := None;
     set_truckingFeeCost := None; set_truckingFeePrice := None; set_customsFeeCost := None;
     set_customsFeePrice := None; set_thcCost := None; set_thcPrice := None;
     set_printingFeeCost := None; set_printingFeePrice := None; set_sealFeeCost := None;
     set_sealFeePrice := None; set_docFeeCost := None; set_docFeePrice := None;
     set_telexFeeCost := None; set_telexFeePrice := None; set_blFeeCost := None;
     set_blFeePrice := None; set_diffPickupFeeCost := None; set_diffPickupFeePrice := None;
     set_weighingFeeCost := None; set_weighingFeePrice := None; set_vgmFeeCost := None;
     set_vgmFeePrice := None; set_amendmentFeeCost := None; set_amendmentFeePrice := None;
     set_detentionFeeCost := None; set_detentionFeePrice := None;
     set_demurrageFeeCost := None; set_demurrageFeePrice := None;
     set_handlingFeeCost := None; set_handlingFeePrice := None; set_insuranceFeeCost := None;
     set_insuranceFeePrice := None; set_exchangeRate := Some (Some 6.9);
     set_isSpecialDeclaration := None |}.

Definition digitsValue (text : string) : nat :=
  fold_left (fun acc c => 10 * acc + (nat_of_ascii c - 48))%nat
    (list_ascii_of_string text) 0%nat.

Definition monthOfNumber (n : nat) : Month :=
  match n with
  | 1 => Jan | 2 => Feb | 3 => Mar | 4 => Apr | 5 => May | 6 => Jun
  | 7 => Jul | 8 => Aug | 9 => Sep | 10 => Oct | 11 => Nov | _ => Dec
  end.

(** The calendar day an ISO text [yyyy-MM-dd...] begins with. *)
Definition isoDate (text : string) : Date :=
  mkDate (digitsValue (substring 0 4 text))
    (monthOfNumber (digitsValue (substring 5 2 text)))
    (digitsValue (substring 8 2 text)).

Definition isDigit (c : ascii) : bool :=
  (48 <=? nat_of_ascii c)%nat && (nat_of_ascii c <=? 57)%nat.

Definition allDigits (text : string) : bool :=
  forallb isDigit (list_ascii_of_string text).

(** Whether a text begins with a calendar day written [yyyy-MM-dd]. *)
Definition isIsoDate (text : string) : bool :=
  (10 <=? String.length text)%nat
  && allDigits (substring 0 4 text) && (substring 4 1 text =? "-")%string
  && allDigits (substring 5 2 text) && (substring 7 1 text =? "-")%string
  && allDigits (substring 8 2 text)
  && (1 <=? digitsValue (substring 5 2 text))%nat
  && (digitsValue (substring 5 2 text) <=? 12)%nat
  && (1 <=? digitsValue (substring 8 2 text))%nat
  && (digitsValue (substring 8 2 text) <=? 31)%nat.

Definition iso_dates : DateFns :=
  {| parseISO := isoDate;
     newDate := fun stamp =>
                  match stamp with
                  | CreatedIso text => isoDate text
                  | CreatedNum _ => mkDate 1970 Jan 1
                  end;
     validISO := isIsoDate;
     validStamp := fun stamp =>
                     match stamp with
                     | CreatedIso text => isIsoDate text
                     | CreatedNum t => PrimFloat.eqb t t
                     end;
     startOfWeek := fun d => d;
     weekOfYear := fun _ => 1%nat;
     localeCompare := Js.compare_default |}.

Definition shipmentOf (id' bookingNo' client' loadingDate' : string)
    (truckingPrice' : float) : ShipmentRecord :=
  mkShipment id' (CreatedIso "2024-01-01T00:00:00.000Z")
    (sampleData bookingNo' (Some client') (Some loadingDate') "Shanghai" "Rotterdam"
       "40HQ" (Some 0) (Some 0) (Some 0) (Some truckingPrice') (Some 0) (Some 0)
       (Some 0) (Some 7.2)).

Definition februaryRecord : ShipmentRecord :=
  shipmentOf "s1" "ABC123" "Acme" "2024-02-10" 100.
Definition marchRecord : ShipmentRecord :=
  shipmentOf "s2" "XYZ900" "Acme" "2024-03-05" 150.
Definition otherYearRecord : ShipmentRecord :=
  shipmentOf "s3" "QRS555" "Beta" "2023-11-20" 75.

Definition sampleShipments : list ShipmentRecord :=
  [februaryRecord; marchRecord; otherYearRecord].

(** A record whose loading date has a year of five digits and does not
    parse. *)
Definition misdatedRecord : ShipmentRecord :=
  shipmentOf "s4" "LMN777" "Gamma" "20245-01-01" 20.

(** Two clients whose names begin with the full-width letter U+FF21 and
    with the emoji U+1F600, which is two surrogates in UTF-16. *)
Definition wideRecord : ShipmentRecord :=
  shipmentOf "s5" "WID001" "Ａcme" "2024-04-01" 10.
Definition emojiRecord : ShipmentRecord :=
  shipmentOf "s6" "EMO001" "😀 Freight" "2024-04-02" 10.

(** Six clients with one record each. *)
Definition singleClients : list ShipmentRecord :=
  [ shipmentOf "c1" "ONE001" "a" "2024-01-01" 0;
    shipmentOf "c2" "ONE002" "b" "2024-01-02" 0;
    shipmentOf "c3" "ONE003" "c" "2024-01-03" 0;
    shipmentOf "c4" "ONE004" "d" "2024-01-04" 0;
    shipmentOf "c5" "ONE005" "e" "2024-01-05" 0;
    shipmentOf "c6" "ONE006" "f" "2024-01-06" 0 ].

(** Two months whose only margin is a terminal handling charge, sold at 100
    in February and at 150 in March. *)
Definition thcMonths : list ShipmentRecord :=
  [ mkShipment "h1" (CreatedIso "2024-02-01T00:00:00.000Z")
      (sampleData "THC001" (Some "Acme") (Some "2024-02-10") "Shanghai" "Rotterdam"
         "40HQ" (Some 0) (Some 0) (Some 0) (Some 0) (Some 0) (Some 0)
         (Some 100) (Some 7.2));
    mkShipment "h2" (CreatedIso "2024-03-01T00:00:00.000Z")
      (sampleData "THC002" (Some "Acme") (Some "2024-03-05") "Shanghai" "Rotterdam"
         "40HQ" (Some 0) (Some 0) (Some 0) (Some 0) (Some 0) (Some 0)
         (Some 150) (Some 7.2)) ].

Definition visibleShipments : list ShipmentRecord := [februaryRecord; marchRecord].

Definition registerPage : LoginPage.State :=
  LoginPage.mkState LoginPage.register "a@b.c" "secret" "ann" false None None.

Definition emptyDoc : PdfFont.Doc := PdfFont.mkDoc [] [].

End SampleData.

(** ** Further vocabulary: years, container types, monthly profit *)

Section YearVocabulary.
Context `{DateFns}.
Import StatsView.

(** The year a record is booked under. *)
(** The year a record falls in: that of its loading date when it has a
    non-empty one, else that of its creation stamp; none when that date is
    not a valid one. *)
Definition yearOf (s : ShipmentRecord) : option nat :=
  match loadingDate s with
  | Some (String c rest) =>
      if validISO (String c rest)
      then Some (getFullYear (parseISO (String c rest)))
      else None
  | Some EmptyString | None =>
      if validStamp (createdAt s)
      then Some (getFullYear (newDate (createdAt s)))
      else None
  end.

End YearVocabulary.

(** The type a record is counted under: its container type, or the
    placeholder when that is empty. *)
Definition typeName (s : ShipmentRecord) : string :=
  match containerType s with
  | EmptyString => "Other"
  | String a rest => String a rest
  end.

Definition typePair (t : TypeCount.t) : string * nat :=
  (TypeCount.name t, TypeCount.value t).

(** The counts of a map, added up. *)
Definition total (m : JsMap.t nat) : nat := list_sum (map snd m).

(** A chart entry without its volume. *)
Definition withoutVolume (e : ChartEntry.t) : ProfitEntry.t :=
  ProfitEntry.mk (ChartEntry.label e) (ChartEntry.dateStr e) (ChartEntry.profit e).

(** A map with [f] applied to every value. *)
Definition mapValues {V W : Type} (f : V -> W) (m : JsMap.t V) : JsMap.t W :=
  map (fun entry => (fst entry, f (snd entry))) m.

(** [a] does not come after [b] in the order by code units. *)
Definition notAfter (a b : string) : Prop :=
  Js.compare_units (Js.codeUnits a) (Js.codeUnits b) <> Gt.

(** The non-empty strings among [l], as [filter(Boolean)] leaves them. *)
Definition presentClients (l : list (option string)) : list string :=
  flat_map
    (fun c => match c with
              | Some text => if Js.truthy_str text then [text] else []
              | None => []
              end)
    l.

Section SessionVocabulary.
Import AuthStore.
Variables (User Session : Type) (sessionUser : Session -> User).

(** The user is the one of the session, if any. *)
Definition consistent (state : State User Session) : Prop :=
  user state = option_map sessionUser (session state).

End SessionVocabulary.

(** * Properties *)

(** ** Folds *)

Lemma fold_left_map {B C S : Type} (f : B -> C) (step : S -> C -> S)
    (l : list B) (init : S) :
  fold_left (fun acc x => step acc (f x)) l init = fold_left step (map f l) init.
Proof. revert init. induction l as [|x l IH]; simpl; intros init; auto. Qed.

Lemma fold_left_same {B S : Type} (f g : S -> B -> S) (l : list B) (init : S) :
  (forall acc x, f acc x = g acc x) -> fold_left f l init = fold_left g l init.
Proof.
  intros Hfg. revert init. induction l as [|x l IH]; simpl; intros init; auto.
  rewrite Hfg. apply IH.
Qed.

(** ** Numbers *)

Section Numbers.
Open Scope float_scope.

Lemma or_num_zero_or_absent (x : option float) (d : float) :
  zero_or_absent x -> x |? d = d.
Proof. intros [-> | ->]; reflexivity. Qed.

Lemma or_num_truthy (v d : float) : Js.truthy_num v = true -> Some v |? d = v.
Proof. intros Hv. unfold Js.or_num. now rewrite Hv. Qed.

(** A number is truthy exactly when it is neither a zero nor [NaN]. *)
Lemma truthy_num_spec (v : float) :
  Js.truthy_num v = true <-> PrimFloat.eqb v 0 = false /\ PrimFloat.eqb v v = true.
Proof.
  unfold Js.truthy_num.
  destruct (PrimFloat.eqb v 0), (PrimFloat.eqb v v); simpl; intuition congruence.
Qed.

End Numbers.

(** ** Profit of one record *)

Section Profit.
Context `{StringToNumber}.
Open Scope float_scope.
Import ShipmentList.

Lemma additionalProfit_unfold (record : ShipmentData) :
  additionalProfit record =
  fold_left (fun acc key => acc + keyProfit key record) feeKeys 0.
Proof. reflexivity. Qed.

Lemma additionalProfit_zero (record : ShipmentData) :
  (forall key, zero_or_absent (keyCost key record)
               /\ zero_or_absent (keyPrice key record)) ->
  additionalProfit record = 0.
Proof.
  intros Hzero. rewrite additionalProfit_unfold.
  assert (Hk : forall key, keyProfit key record = 0).
  { intros key. destruct (Hzero key) as [Hc Hp]. unfold keyProfit.
    rewrite (or_num_zero_or_absent 0 Hc), (or_num_zero_or_absent 0 Hp).
    reflexivity. }
  assert (Hfold : forall keys,
             fold_left (fun acc key => acc + keyProfit key record) keys 0 = 0).
  { induction keys as [|key keys IH]; simpl; [reflexivity|].
    rewrite Hk. exact IH. }
  apply Hfold.
Qed.

(** *** The form and the list *)

Lemma fieldOf_entered (form : ShipmentForm.FormValues)
    (input : ShipmentForm.NumberInput) :
  ShipmentForm.fieldOf input (entered form) = figure form input.
Proof. destruct input as [| | | | | | |key|key]; try destruct key; reflexivity. Qed.

(** What the form takes an input for, after [||] and the conversion to a
    number, is what the list takes the number of the input for. *)
Lemma effective_number (form : ShipmentForm.FormValues)
    (input : ShipmentForm.NumberInput) (d : float) :
  d = fallbackOf input -> readsAlike form input ->
  Js.ToNumber (Js.or_value (ShipmentForm.watch form input) d)
  = ShipmentForm.fieldOf input (entered form) |? d.
Proof.
  intros -> Halike. rewrite fieldOf_entered.
  unfold readsAlike in Halike. unfold ShipmentForm.watch, figure.
  destruct (ShipmentForm.typed form input) as [[|c text]|].
  - rewrite toNumber_empty.
    destruct input as [| | | | | | |key|key]; reflexivity.
  - unfold Js.or_value, Js.or_num. cbn [Js.truthy Js.truthy_str Js.ToNumber].
    destruct Halike as [Hempty|[Htruthy|Hsame]]; [discriminate| |].
    + now rewrite Htruthy.
    + rewrite Hsame. now destruct (Js.truthy_num (fallbackOf input)).
  - destruct (ShipmentForm.fieldOf input (ShipmentForm.installed form)) as [x|];
      [|reflexivity].
    unfold Js.or_value, Js.or_num. cbn [Js.truthy].
    now destruct (Js.truthy_num x).
Qed.

Lemma estimatedProfit_entered (form : ShipmentForm.FormValues) :
  (forall input, readsAlike form input) ->
  ShipmentForm.estimatedProfit form = calculateTotalProfit (entered form).
Proof.
  intros Halike.
  unfold ShipmentForm.estimatedProfit, ShipmentForm.oceanPrice, ShipmentForm.oceanCost,
    ShipmentForm.rate, ShipmentForm.getValues.
  cbv zeta.
  rewrite !effective_number by first [reflexivity | apply Halike].
  unfold calculateTotalProfit, oceanProfit, truckingProfit, customsProfit, rate,
    additionalProfit.
  f_equal. apply fold_left_same. intros acc key.
  rewrite !effective_number by first [reflexivity | apply Halike].
  reflexivity.
Qed.

Lemma entered_ofValues (values : ShipmentData) :
  entered (ShipmentForm.ofValues values) = values.
Proof. now destruct values. Qed.

Lemma form_profit_is_list_profit (values : ShipmentData) :
  ShipmentForm.estimatedProfit (ShipmentForm.ofValues values)
  = calculateTotalProfit values.
Proof.
  rewrite estimatedProfit_entered; [now rewrite entered_ofValues|].
  intros input. exact I.
Qed.

(** A rate typed as a text that reads as zero is kept by the form and
    replaced by the list. *)
Lemma typed_zero_rate (form : ShipmentForm.FormValues) (text : string) :
  ShipmentForm.typed form ShipmentForm.exchangeRateInput = Some text ->
  text <> "" -> toNumber text = 0 ->
  Js.ToNumber (ShipmentForm.rate form) = 0 /\ rate (entered form) = 7.2.
Proof.
  intros Htyped Hne Hzero.
  unfold ShipmentForm.rate, ShipmentForm.watch, rate. cbn [entered exchangeRate].
  unfold figure. rewrite Htyped.
  destruct text as [|c text]; [contradiction|].
  split; [exact Hzero|]. now rewrite Hzero.
Qed.

(** C9: the estimated profit of the form and [calculateTotalProfit] of the
    list are the same function of the seventeen cost/price pairs and the
    exchange rate as long as the form holds numbers, and as long as every
    text typed into it is empty or reads as a number that [||] keeps, or as
    the fallback itself.  They part at an exchange rate typed as [0]: the
    form keeps the text and multiplies by 0, the list falls back to 7.2.
    With 1000 and 1200 typed for the ocean freight and 0 for the rate the
    form shows 0 where the list computes 1440. *)
Theorem form_and_list_profit_part_at_typed_zero_rate :
  (forall values : ShipmentData,
      ShipmentForm.estimatedProfit (ShipmentForm.ofValues values)
      = calculateTotalProfit values)
  /\ (forall form : ShipmentForm.FormValues,
         (forall input, readsAlike form input) ->
         ShipmentForm.estimatedProfit form = calculateTotalProfit (entered form))
  /\ (forall (form : ShipmentForm.FormValues) (text : string),
         ShipmentForm.typed form ShipmentForm.exchangeRateInput = Some text ->
         text <> "" -> toNumber text = 0 ->
         Js.ToNumber (ShipmentForm.rate form) = 0 /\ rate (entered form) = 7.2)
  /\ @ShipmentForm.estimatedProfit decimal_texts zeroRateForm = 0
  /\ calculateTotalProfit (@entered decimal_texts zeroRateForm) = 1440.
Proof.
  split; [exact form_profit_is_list_profit|].
  split; [exact estimatedProfit_entered|].
  split; [exact typed_zero_rate|].
  split; vm_compute; reflexivity.
Qed.

(** C2: with ocean freight 1000/1200 at rate 7.0, trucking 500/600, customs
    200/250 and every other fee zero or absent, the profit is exactly 1550,
    in the list and in the form. *)
Theorem scenario_profit_1550 (record : ShipmentData) :
  oceanFreightCost record = Some 1000 ->
  oceanFreightPrice record = Some 1200 ->
  exchangeRate record = Some 7.0 ->
  truckingFeeCost record = Some 500 ->
  truckingFeePrice record = Some 600 ->
  customsFeeCost record = Some 200 ->
  customsFeePrice record = Some 250 ->
  (forall key, zero_or_absent (keyCost key record)
               /\ zero_or_absent (keyPrice key record)) ->
  calculateTotalProfit record = 1550
  /\ ShipmentForm.estimatedProfit (ShipmentForm.ofValues record) = 1550.
Proof.
  intros Hoc Hop Hrate Htc Htp Hcc Hcp Hrest.
  assert (Hlist : calculateTotalProfit record = 1550).
  { unfold calculateTotalProfit, oceanProfit, truckingProfit, customsProfit, rate.
    rewrite (additionalProfit_zero _ Hrest).
    rewrite Hoc, Hop, Hrate, Htc, Htp, Hcc, Hcp.
    vm_compute. reflexivity. }
  split; [exact Hlist|].
  rewrite form_profit_is_list_profit. exact Hlist.
Qed.

Lemma scenarioRecord_rest :
  forall key, zero_or_absent (keyCost key scenarioRecord)
              /\ zero_or_absent (keyPrice key scenarioRecord).
Proof. intros key; destruct key; split; right; reflexivity. Qed.

(** C3: the ocean-freight term is the price/cost difference times the
    record's exchange rate when that is a non-zero number, and times 7.2 when
    it is 0, null or undefined; the other three terms of the total do not read
    the exchange rate. *)
Theorem ocean_profit_uses_rate_or_default (record : ShipmentData) :
  calculateTotalProfit record
  = oceanProfit record + truckingProfit record + customsProfit record
    + additionalProfit record
  /\ (forall r : float,
         exchangeRate record = Some r ->
         PrimFloat.eqb r 0 = false -> PrimFloat.eqb r r = true ->
         oceanProfit record
         = ((oceanFreightPrice record |? 0) - (oceanFreightCost record |? 0)) * r)
  /\ (exchangeRate record = Some 0 \/ exchangeRate record = None ->
      oceanProfit record
      = ((oceanFreightPrice record |? 0) - (oceanFreightCost record |? 0))
        * DEFAULT_EXCHANGE_RATE)
  /\ (forall x : option float,
         truckingProfit (with_exchangeRate x record) = truckingProfit record
         /\ customsProfit (with_exchangeRate x record) = customsProfit record
         /\ additionalProfit (with_exchangeRate x record) = additionalProfit record).
Proof.
  split; [reflexivity|]. split; [|split].
  - intros r Hrate Hnz Hnum. unfold oceanProfit, rate. rewrite Hrate.
    rewrite or_num_truthy; [reflexivity|].
    apply truthy_num_spec. split; assumption.
  - intros Hfalsy. unfold oceanProfit, rate.
    rewrite (@or_num_zero_or_absent (exchangeRate record) 7.2).
    + reflexivity.
    + destruct Hfalsy as [-> | ->]; [right | left]; reflexivity.
  - intros x. split; [reflexivity|]. split; [reflexivity|].
    rewrite !additionalProfit_unfold. unfold feeKeys. simpl fold_left.
    reflexivity.
Qed.

Lemma ocean_profit_uses_rate_or_default_witness :
  oceanProfit scenarioRecord = (1200 - 1000) * 7
  /\ oceanProfit (with_exchangeRate (Some 0) scenarioRecord) = (1200 - 1000) * 7.2
  /\ oceanProfit (with_exchangeRate None scenarioRecord) = (1200 - 1000) * 7.2
  /\ truckingProfit (with_exchangeRate None scenarioRecord) = 600 - 500.
Proof.
  pose proof (@ocean_profit_uses_rate_or_default scenarioRecord) as [_ [Hrate _]].
  pose proof (@ocean_profit_uses_rate_or_default
                (with_exchangeRate (Some 0) scenarioRecord)) as [_ [_ [Hzero _]]].
  pose proof (@ocean_profit_uses_rate_or_default
                (with_exchangeRate None scenarioRecord)) as [_ [_ [Hnone _]]].
  split; [exact (Hrate 7 eq_refl eq_refl eq_refl)|].
  split; [exact (Hzero (or_introl eq_refl))|].
  split; [exact (Hnone (or_intror eq_refl))|].
  reflexivity.
Defined.

End Profit.

(** With 1000, 1200 and 7 typed into a new form the two computations
    agree, on 1400. *)
Lemma form_and_list_profit_part_at_typed_zero_rate_witness :
  (@ShipmentForm.estimatedProfit decimal_texts (typedForm "1000" "1200" "7")
   = ShipmentList.calculateTotalProfit
       (@entered decimal_texts (typedForm "1000" "1200" "7")))%float.
Proof.
  refine (proj1 (proj2 (@form_and_list_profit_part_at_typed_zero_rate decimal_texts))
            (typedForm "1000" "1200" "7") _).
  intros input.
  destruct input as [| | | | | | |key|key];
    first [exact I | right; left; reflexivity].
Defined.

(** Typed into a new form, the figures of the scenario give 1550 as well. *)
Example scenario_typed :
  (@ShipmentForm.estimatedProfit decimal_texts scenarioForm = 1550)%float.
Proof. reflexivity. Qed.

Lemma scenario_profit_1550_witness :
  (ShipmentList.calculateTotalProfit scenarioRecord = 1550
   /\ @ShipmentForm.estimatedProfit decimal_texts (ShipmentForm.ofValues scenarioRecord)
      = 1550)%float.
Proof.
  apply (@scenario_profit_1550 decimal_texts scenarioRecord);
    first [ reflexivity | exact scenarioRecord_rest ].
Defined.

(** ** The store: a failed remote call leaves the list as it was *)

Section Store.
Import ShipmentStore.

Lemma filter_all_kept {A : Type} (keep : A -> bool) (l : list A) :
  (forall x, In x l -> keep x = true) -> filter keep l = l.
Proof.
  induction l as [|x l IH]; simpl; intros Hall; [reflexivity|].
  rewrite (Hall x (or_introl eq_refl)). f_equal.
  apply IH. intros y Hy. apply Hall. now right.
Qed.

Lemma provisional_record_removed (shipment : ShipmentData) (tempId now : string)
    (l : list ShipmentRecord) :
  ~ In tempId (map id l) ->
  filter (fun s => negb (id s =? tempId)%string) (newRecord shipment tempId now :: l) = l.
Proof.
  intros Hfresh. simpl. rewrite String.eqb_refl. simpl.
  apply filter_all_kept. intros s Hs.
  destruct (String.eqb_spec (id s) tempId) as [Heq|Hne]; [|reflexivity].
  exfalso. apply Hfresh. rewrite <- Heq. now apply in_map.
Qed.

(** The revert installs the list captured before the optimistic update,
    whatever the store holds when the call settles. *)
Lemma revert_installs_original (originalShipments : list ShipmentRecord)
    (message : string) (state : State) :
  revert originalShipments (Failed message) state
  = mkState originalShipments (loading state) (Some message).
Proof. reflexivity. Qed.

(** C10: when the remote call fails, [updateShipment], [deleteShipment] and
    [deleteShipments] put back the list the store held before the call, and
    [addShipment] removes its provisional record, which gives back the prior
    list when the provisional id was not in it; in each case [loading] is
    untouched and [error] holds the message. *)
Theorem failed_mutation_rolls_back (state : State) (message : string) :
  let restored := mkState (shipments state) (loading state) (Some message) in
  (forall id' updatedShipment,
      updateShipment id' updatedShipment (Failed message) state = restored)
  /\ (forall id', deleteShipment id' (Failed message) state = restored)
  /\ (forall ids, deleteShipments ids (Failed message) state = restored)
  /\ (forall shipment tempId now,
         ~ In tempId (map id (shipments state)) ->
         addShipment shipment tempId now (Failed message) state = restored)
  /\ (forall shipment tempId now,
         shipments (addShipment shipment tempId now (Failed message) state)
         = filter (fun s => negb (id s =? tempId)%string) (shipments state)).
Proof.
  intros restored. split; [|split; [|split; [|split]]].
  - intros id' updatedShipment. unfold updateShipment, updateShipment_begin.
    apply revert_installs_original.
  - intros id'. unfold deleteShipment, deleteShipment_begin.
    apply revert_installs_original.
  - intros ids. unfold deleteShipments, deleteShipments_begin.
    apply revert_installs_original.
  - intros shipment tempId now Hfresh.
    unfold addShipment, addShipment_begin, addShipment_settle, restored.
    cbn [shipments loading error]. f_equal.
    now apply provisional_record_removed.
  - intros shipment tempId now.
    unfold addShipment, addShipment_begin, addShipment_settle.
    cbn [shipments loading error]. unfold newRecord.
    cbn [filter id]. rewrite String.eqb_refl. reflexivity.
Qed.

Lemma failed_mutation_rolls_back_witness :
  addShipment scenarioRecord "tmp" "2024-03-16T08:00:00.000Z" (Failed "offline") storedState
  = mkState [storedRecord] false (Some "offline").
Proof.
  refine (proj1 (proj2 (proj2 (proj2
            (@failed_mutation_rolls_back storedState "offline"))))
            scenarioRecord "tmp" "2024-03-16T08:00:00.000Z" _).
  simpl. intros [Heq | []]. discriminate Heq.
Defined.

End Store.

(** ** The list filter *)

Section FilterFacts.

Lemma prefix_spec (p s : string) :
  String.prefix p s = true <-> exists after, s = (p ++ after)%string.
Proof.
  revert s. induction p as [|a p IH]; intros s; simpl.
  - destruct s; split; try reflexivity; intros _; eexists; reflexivity.
  - destruct s as [|b s]; simpl.
    + split; [discriminate|]. intros [after Heq]. discriminate Heq.
    + destruct (ascii_dec a b) as [->|Hne].
      * rewrite IH. split; intros [after Heq]; exists after.
        -- now rewrite Heq.
        -- now injection Heq.
      * split; [discriminate|]. intros [after Heq]. injection Heq as Hab _.
        now elim Hne.
Qed.

Lemma includes_spec (s sub : string) :
  Js.includes s sub = true <-> occursIn sub s.
Proof.
  unfold occursIn. induction s as [|c s IH].
  - change (Js.includes "" sub) with (String.prefix sub "").
    rewrite prefix_spec. split.
    + intros [after Heq]. exists EmptyString, after. exact Heq.
    + intros [before [after Heq]]. destruct before; simpl in Heq.
      * now exists after.
      * discriminate Heq.
  - change (Js.includes (String c s) sub)
      with (String.prefix sub (String c s) || Js.includes s sub).
    rewrite orb_true_iff, IH, prefix_spec. split.
    + intros [[after Heq] | [before [after Heq]]].
      * exists EmptyString, after. exact Heq.
      * exists (String c before), after. simpl. now rewrite Heq.
    + intros [before [after Heq]]. destruct before as [|b before]; simpl in Heq.
      * left. now exists after.
      * right. injection Heq as _ Heq. now exists before, after.
Qed.

Lemma includes_empty (s : string) : Js.includes s "" = true.
Proof. apply includes_spec. exists EmptyString, s. reflexivity. Qed.

Lemma occursIn_empty_inv (sub : string) : occursIn sub "" -> sub = "".
Proof.
  intros [before [after Heq]].
  destruct before; [destruct sub; [reflexivity|]|]; discriminate Heq.
Qed.

Lemma filter_Subsequence {A : Type} (keep : A -> bool) (l : list A) :
  Subsequence (filter keep l) l.
Proof.
  induction l as [|x l IH]; simpl; [constructor|].
  destruct (keep x); now constructor.
Qed.

Context `{StringCase}.
Import ShipmentList.

Lemma matchesSearch_spec (searchQuery : string) (item : ShipmentRecord) :
  matchesSearch searchQuery item = true <-> searchMatches searchQuery item.
Proof.
  unfold matchesSearch, searchMatches.
  rewrite !orb_true_iff, !includes_spec. split.
  - intros [[[[Hb | Hb] | Hb] | Hb] | Hc]; auto.
    destruct (client item) as [c|]; [|discriminate].
    apply andb_true_iff in Hc as [_ Hc]. apply includes_spec in Hc.
    do 4 right. now exists c.
  - intros [Hb | [Hb | [Hb | [Hb | [c [Hclient Hc]]]]]]; auto.
    rewrite Hclient. destruct c as [|a c].
    + rewrite toLowerCase_empty in Hc. apply occursIn_empty_inv in Hc.
      do 4 left. rewrite Hc. exists EmptyString. eexists. reflexivity.
    + right. simpl. now apply includes_spec.
Qed.

Lemma matchesSearch_empty (item : ShipmentRecord) : matchesSearch "" item = true.
Proof.
  unfold matchesSearch. rewrite toLowerCase_empty, includes_empty. reflexivity.
Qed.

Lemma matchesFilter_spec (filterType : string) (item : ShipmentRecord) :
  matchesFilter filterType item = true
  <-> filterType = "all" \/ containerType item = filterType.
Proof.
  unfold matchesFilter. now rewrite orb_true_iff, !String.eqb_eq.
Qed.

Lemma matchesClient_spec (clientFilter : string) (item : ShipmentRecord) :
  matchesClient clientFilter item = true
  <-> clientFilter = "all" \/ client item = Some clientFilter.
Proof.
  unfold matchesClient. rewrite orb_true_iff, String.eqb_eq.
  destruct (client item) as [c|].
  - rewrite String.eqb_eq. split; intros [Hall | Hc]; auto.
    + right. now rewrite Hc.
    + right. now injection Hc.
  - split; intros [Hall | Hc]; auto; discriminate Hc.
Qed.

(** C5: the filter keeps exactly the records for which the lower-cased query
    occurs in one of the five lower-cased text fields, the container-type
    filter is "all" or the record's type, and the client filter is "all" or
    the record's client; the empty query matches every record. *)
Theorem filteredShipments_keeps_iff
    (shipments : list ShipmentRecord) (searchQuery filterType clientFilter : string) :
  (exists keep : ShipmentRecord -> bool,
      filteredShipments shipments searchQuery filterType clientFilter
      = filter keep shipments
      /\ forall item,
           keep item = true
           <-> searchMatches searchQuery item
               /\ (filterType = "all" \/ containerType item = filterType)
               /\ (clientFilter = "all" \/ client item = Some clientFilter))
  /\ (forall item, searchMatches "" item).
Proof.
  split.
  - eexists. split; [reflexivity|]. intros item. cbv beta.
    now rewrite !andb_true_iff, matchesSearch_spec, matchesFilter_spec,
      matchesClient_spec.
  - intros item. apply matchesSearch_spec, matchesSearch_empty.
Qed.

(** C6: the filter returns its input thinned out in place, order kept, and
    with the empty query and both filters at "all" it returns its input. *)
Theorem filteredShipments_subsequence
    (shipments : list ShipmentRecord) (searchQuery filterType clientFilter : string) :
  Subsequence (filteredShipments shipments searchQuery filterType clientFilter)
    shipments
  /\ filteredShipments shipments "" "all" "all" = shipments.
Proof.
  split.
  - apply filter_Subsequence.
  - unfold filteredShipments. apply filter_all_kept. intros item _.
    rewrite matchesSearch_empty. reflexivity.
Qed.

End FilterFacts.

(** ** Insertion-ordered maps *)

Section MapFacts.
Context {V : Type}.
Implicit Types (m : JsMap.t V) (k : string) (v : V).

Lemma get_set_same k v m : JsMap.get k (JsMap.set k v m) = Some v.
Proof.
  induction m as [|[k' v'] m IH]; simpl.
  - now rewrite String.eqb_refl.
  - destruct (String.eqb_spec k' k) as [->|Hne]; simpl.
    + now rewrite String.eqb_refl.
    + destruct (String.eqb_spec k' k); [contradiction|exact IH].
Qed.

Lemma get_set_other k k' v m :
  k <> k' -> JsMap.get k' (JsMap.set k v m) = JsMap.get k' m.
Proof.
  intros Hne. induction m as [|[k0 v0] m IH]; simpl.
  - destruct (String.eqb_spec k k'); [contradiction|reflexivity].
  - destruct (String.eqb_spec k0 k) as [->|Hk0]; simpl.
    + destruct (String.eqb_spec k k'); [contradiction|reflexivity].
    + destruct (String.eqb_spec k0 k'); [reflexivity|exact IH].
Qed.

Lemma get_Some_In k v m : JsMap.get k m = Some v -> In (k, v) m.
Proof.
  induction m as [|[k' v'] m IH]; simpl; [discriminate|].
  destruct (String.eqb_spec k' k) as [->|Hne].
  - intros Hget. injection Hget as ->. now left.
  - intros Hget. right. now apply IH.
Qed.

Lemma get_None_keys k m : JsMap.get k m = None <-> ~ In k (JsMap.keys m).
Proof.
  induction m as [|[k' v'] m IH]; simpl.
  - tauto.
  - destruct (String.eqb_spec k' k) as [->|Hne].
    + split; [discriminate|]. intros Hnot. elim Hnot. now left.
    + rewrite IH. tauto.
Qed.

Lemma In_get_Some k v m : NoDup (JsMap.keys m) -> In (k, v) m -> JsMap.get k m = Some v.
Proof.
  induction m as [|[k' v'] m IH]; simpl; [tauto|].
  intros Hnodup [Heq | Hin].
  - injection Heq as -> ->. now rewrite String.eqb_refl.
  - inversion Hnodup as [| ? ? Hfresh Hrest]; subst.
    destruct (String.eqb_spec k' k) as [->|Hne].
    + elim Hfresh. change k with (fst (k, v)). now apply in_map.
    + now apply IH.
Qed.

Lemma has_true_iff k m : JsMap.has k m = true <-> In k (JsMap.keys m).
Proof.
  unfold JsMap.has. destruct (JsMap.get k m) eqn:Hget.
  - split; [intros _|reflexivity]. apply get_Some_In in Hget.
    change k with (fst (k, v)). now apply in_map.
  - apply get_None_keys in Hget. split; [discriminate|contradiction].
Qed.

Lemma keys_set k v m :
  JsMap.keys (JsMap.set k v m)
  = if JsMap.has k m then JsMap.keys m else JsMap.keys m ++ [k].
Proof.
  unfold JsMap.has. induction m as [|[k' v'] m IH]; simpl; [reflexivity|].
  destruct (String.eqb_spec k' k) as [->|Hne]; simpl; [reflexivity|].
  rewrite IH. now destruct (JsMap.get k m).
Qed.

End MapFacts.

(** ** Counting records per key *)

Section TallyFacts.

Lemma tally_snoc (names : list string) (name : string) :
  tally (names ++ [name])
  = JsMap.set name (Js.or_count (JsMap.get name (tally names)) 0 + 1) (tally names).
Proof. unfold tally. now rewrite fold_left_app. Qed.

Lemma occurrences_snoc (k name : string) (names : list string) :
  occurrences k (names ++ [name])
  = occurrences k names + (if string_dec name k then 1 else 0).
Proof.
  unfold occurrences. rewrite count_occ_app. simpl.
  destruct (string_dec name k); reflexivity.
Qed.

Lemma tally_get (names : list string) (k : string) :
  JsMap.get k (tally names)
  = if (occurrences k names =? 0)%nat then None else Some (occurrences k names).
Proof.
  induction names as [|name names IH] using rev_ind; [reflexivity|].
  rewrite tally_snoc, occurrences_snoc.
  destruct (string_dec name k) as [->|Hne].
  - rewrite get_set_same, IH.
    destruct (Nat.eqb_spec (occurrences k names) 0) as [Hz|Hnz].
    + rewrite Hz. reflexivity.
    + unfold Js.or_count.
      destruct (Nat.eqb_spec (occurrences k names) 0); [contradiction|].
      destruct (Nat.eqb_spec (occurrences k names + 1) 0); [lia|reflexivity].
  - rewrite get_set_other by assumption. now rewrite Nat.add_0_r.
Qed.

Lemma occurrences_pos_iff (k : string) (names : list string) :
  0 < occurrences k names <-> In k names.
Proof. unfold occurrences. symmetry. apply count_occ_In. Qed.

Lemma tally_keys_In (names : list string) (k : string) :
  In k (JsMap.keys (tally names)) <-> In k names.
Proof.
  rewrite <- has_true_iff. unfold JsMap.has. rewrite tally_get.
  rewrite <- occurrences_pos_iff.
  destruct (Nat.eqb_spec (occurrences k names) 0); split; intros; try lia;
    try discriminate; reflexivity.
Qed.

Lemma tally_keys_snoc (names : list string) (name : string) :
  JsMap.keys (tally (names ++ [name]))
  = if JsMap.has name (tally names) then JsMap.keys (tally names)
    else JsMap.keys (tally names) ++ [name].
Proof. rewrite tally_snoc. apply keys_set. Qed.

Lemma tally_keys_NoDup (names : list string) : NoDup (JsMap.keys (tally names)).
Proof.
  induction names as [|name names IH] using rev_ind; [constructor|].
  rewrite tally_keys_snoc.
  destruct (JsMap.has name (tally names)) eqn:Hhas; [exact IH|].
  apply NoDup_app; [exact IH | repeat constructor; easy |].
  intros k Hk [<-|[]].
  apply has_true_iff in Hk. congruence.
Qed.

Lemma tally_entry (names : list string) (k : string) (c : nat) :
  In (k, c) (tally names) <-> c = occurrences k names /\ In k names.
Proof.
  split.
  - intros Hin. apply In_get_Some in Hin; [|apply tally_keys_NoDup].
    rewrite tally_get in Hin.
    destruct (Nat.eqb_spec (occurrences k names) 0) as [Hz|Hnz]; [discriminate|].
    injection Hin as <-. split; [reflexivity|].
    apply occurrences_pos_iff. lia.
  - intros [-> Hin]. apply get_Some_In. rewrite tally_get.
    apply occurrences_pos_iff in Hin.
    destruct (Nat.eqb_spec (occurrences k names) 0); [lia|reflexivity].
Qed.

Lemma firstIndex_app_In (k : string) (l l' : list string) :
  In k l -> firstIndex k (l ++ l') = firstIndex k l.
Proof.
  induction l as [|x l IH]; simpl; [tauto|].
  destruct (String.eqb_spec x k) as [->|Hne]; [reflexivity|].
  intros [Heq|Hin]; [contradiction|]. now rewrite IH.
Qed.

Lemma firstIndex_lt_In (k : string) (l : list string) :
  In k l -> firstIndex k l < List.length l.
Proof.
  induction l as [|x l IH]; simpl; [tauto|].
  destruct (String.eqb_spec x k) as [->|Hne]; [lia|].
  intros [Heq|Hin]; [contradiction|]. apply IH in Hin. lia.
Qed.

Lemma firstIndex_fresh (k : string) (l l' : list string) :
  ~ In k l -> firstIndex k (l ++ k :: l') = List.length l.
Proof.
  induction l as [|x l IH]; simpl.
  - now rewrite String.eqb_refl.
  - intros Hnot. destruct (String.eqb_spec x k) as [->|Hne]; [tauto|].
    rewrite IH; tauto.
Qed.

(** The keys of the tally stand in the order in which they were first met. *)
Lemma tally_keys_ordered (names : list string) :
  StronglySorted (fun a b => firstIndex a names < firstIndex b names)
    (JsMap.keys (tally names)).
Proof.
  induction names as [|name names IH] using rev_ind; [constructor|].
  assert (Hold : StronglySorted
                   (fun a b => firstIndex a (names ++ [name])
                               < firstIndex b (names ++ [name]))
                   (JsMap.keys (tally names))).
  { assert (Hin : forall k, In k (JsMap.keys (tally names)) -> In k names)
      by (intros k; apply tally_keys_In).
    revert IH Hin. generalize (JsMap.keys (tally names)) as ks.
    induction ks as [|k ks IHks]; intros Hsorted Hin; [constructor|].
    inversion Hsorted as [| ? ? Htail Hhead]; subst. constructor.
    - apply IHks; [exact Htail|]. intros k' Hk'. apply Hin. now right.
    - rewrite Forall_forall in *. intros k' Hk'.
      rewrite !firstIndex_app_In; [now apply Hhead | | ].
      + apply Hin. now right.
      + apply Hin. now left. }
  rewrite tally_keys_snoc.
  destruct (JsMap.has name (tally names)) eqn:Hhas; [exact Hold|].
  assert (Hfresh : ~ In name names).
  { rewrite <- tally_keys_In, <- has_true_iff. congruence. }
  clear IH. revert Hold.
  assert (Hin : forall k, In k (JsMap.keys (tally names)) -> In k names)
    by (intros k; apply tally_keys_In).
  revert Hin. generalize (JsMap.keys (tally names)) as ks.
  induction ks as [|k ks IHks]; intros Hin Hsorted; simpl.
  - repeat constructor.
  - inversion Hsorted as [| ? ? Htail Hhead]; subst. constructor.
    + apply IHks; [|exact Htail]. intros k' Hk'. apply Hin. now right.
    + apply Forall_app. split; [exact Hhead|]. constructor; [|constructor].
      rewrite firstIndex_fresh by assumption.
      rewrite firstIndex_app_In by (apply Hin; now left).
      apply firstIndex_lt_In, Hin. now left.
Qed.

End TallyFacts.

(** ** Sorting *)

Section SortFacts.
Context {A : Type}.

Lemma sort_insert_Permutation (compareFn : A -> A -> Z) (x : A) (l : list A) :
  Permutation (Js.sort_insert compareFn x l) (x :: l).
Proof.
  induction l as [|y l IH]; simpl; [reflexivity|].
  destruct (compareFn x y <=? 0)%Z; [reflexivity|].
  rewrite IH. apply perm_swap.
Qed.

Lemma sort_Permutation (compareFn : A -> A -> Z) (l : list A) :
  Permutation (Js.sort compareFn l) l.
Proof.
  induction l as [|x l IH]; simpl; [reflexivity|].
  rewrite sort_insert_Permutation. now constructor.
Qed.

Lemma StronglySorted_map {B : Type} (f : A -> B) (R : B -> B -> Prop) (l : list A) :
  StronglySorted R (map f l) <-> StronglySorted (fun a b => R (f a) (f b)) l.
Proof.
  induction l as [|x l IH]; simpl.
  - split; constructor.
  - split; intros Hs; inversion Hs as [| ? ? Htail Hhead]; subst; constructor.
    + now apply IH.
    + rewrite Forall_forall in *. intros y Hy. apply Hhead. now apply in_map.
    + now apply IH.
    + rewrite Forall_forall in *. intros y Hy. apply in_map_iff in Hy.
      destruct Hy as [a [<- Ha]]. now apply Hhead.
Qed.

Lemma StronglySorted_app_cross (R : A -> A -> Prop) (l1 l2 : list A) :
  StronglySorted R (l1 ++ l2) ->
  forall x y, In x l1 -> In y l2 -> R x y.
Proof.
  induction l1 as [|a l1 IH]; simpl; intros Hs x y Hx Hy; [contradiction|].
  inversion Hs as [| ? ? Htail Hhead]; subst.
  destruct Hx as [<-|Hx].
  - rewrite Forall_forall in Hhead. apply Hhead. apply in_or_app. now right.
  - now apply IH.
Qed.

Lemma In_firstn (n : nat) (l : list A) (y : A) : In y (firstn n l) -> In y l.
Proof.
  intros Hy. rewrite <- (firstn_skipn n l). apply in_or_app. now left.
Qed.

Lemma StronglySorted_firstn (R : A -> A -> Prop) (n : nat) (l : list A) :
  StronglySorted R l -> StronglySorted R (firstn n l).
Proof.
  revert n. induction l as [|x l IH]; intros [|n] Hs; simpl; try constructor.
  - inversion Hs; subst. now apply IH.
  - inversion Hs as [| ? ? Htail Hhead]; subst.
    rewrite Forall_forall in *. intros y Hy. apply Hhead.
    now apply (In_firstn n).
Qed.

Lemma sort_insert_map {B : Type} (f : A -> B) (compareA : A -> A -> Z)
    (compareB : B -> B -> Z) (x : A) (l : list A) :
  (forall a b, compareB (f a) (f b) = compareA a b) ->
  Js.sort_insert compareB (f x) (map f l) = map f (Js.sort_insert compareA x l).
Proof.
  intros Hcmp. induction l as [|y l IH]; simpl; [reflexivity|].
  rewrite Hcmp. destruct (compareA x y <=? 0)%Z; simpl; [reflexivity|].
  now rewrite IH.
Qed.

Lemma sort_map {B : Type} (f : A -> B) (compareA : A -> A -> Z)
    (compareB : B -> B -> Z) (l : list A) :
  (forall a b, compareB (f a) (f b) = compareA a b) ->
  Js.sort compareB (map f l) = map f (Js.sort compareA l).
Proof.
  intros Hcmp. induction l as [|x l IH]; simpl; [reflexivity|].
  rewrite IH. now apply sort_insert_map.
Qed.

(** Sorting by a numeric key in ascending order. *)
Lemma sort_by_key (key : A -> nat) (compareFn : A -> A -> Z) (l : list A) :
  (forall a b, (compareFn a b <= 0)%Z <-> key a <= key b) ->
  StronglySorted (fun a b => key a <= key b) (Js.sort compareFn l).
Proof.
  intros Hcmp. induction l as [|x l IH]; simpl; [constructor|].
  revert IH. generalize (Js.sort compareFn l) as sorted.
  induction sorted as [|y sorted IHs]; simpl; intros Hsorted.
  - repeat constructor.
  - inversion Hsorted as [| ? ? Htail Hhead]; subst.
    destruct (Z.leb_spec (compareFn x y) 0) as [Hle|Hgt].
    + apply Hcmp in Hle. constructor; [exact Hsorted|].
      constructor; [exact Hle|].
      rewrite Forall_forall in *. intros z Hz. specialize (Hhead z Hz). lia.
    + assert (Hyx : key y <= key x).
      { destruct (Nat.le_gt_cases (key x) (key y)) as [Hxy|Hxy]; [|lia].
        apply Hcmp in Hxy. lia. }
      constructor; [now apply IHs|].
      eapply Permutation_Forall.
      * symmetry. apply sort_insert_Permutation.
      * now constructor.
Qed.

(** In a strictly ascending list the greatest key comes last and the
    greatest key below it comes just before. *)
Lemma ascending_last_two (key : A -> nat) (l : list A) (c p : A) :
  StronglySorted (fun a b => key a < key b) l ->
  In c l -> In p l -> key p < key c ->
  (forall x, In x l -> x = c \/ key x <= key p) ->
  exists front, l = front ++ [p; c].
Proof.
  intros Hsorted Hc Hp Hpc Hall.
  destruct (exists_last (l := l)) as [l0 [z Hl]].
  { intros ->. contradiction. }
  subst l.
  assert (Hz : z = c).
  { destruct (Hall z) as [Hzc|Hzp]; [apply in_or_app; right; now left|exact Hzc|].
    apply in_app_or in Hc as [Hc|[Hc|[]]]; [|now symmetry].
    assert (key c < key z)
      by (apply (@StronglySorted_app_cross _ _ _ Hsorted); [exact Hc|now left]).
    lia. }
  subst z.
  apply in_app_or in Hp as [Hp|[Hp|[]]]; [|subst p; lia].
  destruct (exists_last (l := l0)) as [l1 [y Hl0]].
  { intros ->. contradiction. }
  subst l0.
  assert (Hy : y = p).
  { assert (Hyc : key y < key c).
    { apply (@StronglySorted_app_cross _ _ _ Hsorted);
        [apply in_or_app; right|]; now left. }
    destruct (Hall y) as [Hyc'|Hyp].
    - apply in_or_app. left. apply in_or_app. right. now left.
    - subst y. lia.
    - apply in_app_or in Hp as [Hp|[Hp|[]]]; [|now symmetry].
      rewrite <- app_assoc in Hsorted.
      assert (key p < key y)
        by (apply (@StronglySorted_app_cross _ _ _ Hsorted); [exact Hp|now left]).
      lia. }
  subst y. exists l1. now rewrite <- app_assoc.
Qed.

Lemma index_last_two (front : list A) (p c : A) :
  let n := Z.of_nat (List.length (front ++ [p; c])) in
  Js.index (front ++ [p; c]) (n - 1) = Some c
  /\ Js.index (front ++ [p; c]) (n - 2) = Some p.
Proof.
  intros n. unfold n, Js.index. rewrite length_app. simpl List.length.
  destruct (Z.ltb_spec (Z.of_nat (List.length front + 2) - 1) 0) as [Hneg|_]; [lia|].
  destruct (Z.ltb_spec (Z.of_nat (List.length front + 2) - 2) 0) as [Hneg|_]; [lia|].
  replace (Z.to_nat (Z.of_nat (List.length front + 2) - 1))
    with (List.length front + 1) by lia.
  replace (Z.to_nat (Z.of_nat (List.length front + 2) - 2))
    with (List.length front + 0) by lia.
  rewrite !nth_error_app2 by lia.
  replace (List.length front + 1 - List.length front) with 1 by lia.
  replace (List.length front + 0 - List.length front) with 0 by lia.
  split; reflexivity.
Qed.

End SortFacts.

(** ** Top-five groupings *)

Section TopFive.
Import StatsView.

Lemma sort_insert_ranked (names : list string) (x : string * nat)
    (l : list (string * nat)) :
  StronglySorted (ranksBefore names) l ->
  Forall (fun y => firstIndex (fst x) names < firstIndex (fst y) names) l ->
  StronglySorted (ranksBefore names) (Js.sort_insert byCountDescending x l).
Proof.
  induction l as [|y l IH]; simpl; intros Hsorted Hlater.
  - repeat constructor.
  - inversion Hsorted as [| ? ? Htail Hhead]; subst.
    inversion Hlater as [| ? ? Hy Hl]; subst.
    unfold byCountDescending at 1.
    destruct (Z.leb_spec (Z.of_nat (snd y) - Z.of_nat (snd x)) 0) as [Hle|Hgt].
    + constructor; [exact Hsorted|]. constructor.
      * unfold ranksBefore. lia.
      * rewrite Forall_forall in *. intros z Hz.
        pose proof (Hhead z Hz) as Hyz. pose proof (Hl z Hz) as Hxz.
        unfold ranksBefore in *. lia.
    + constructor; [now apply IH|].
      eapply Permutation_Forall.
      * symmetry. apply sort_insert_Permutation.
      * constructor; [|exact Hhead]. unfold ranksBefore. lia.
Qed.

Lemma sort_ranked (names : list string) (l : list (string * nat)) :
  StronglySorted (fun a b => firstIndex (fst a) names < firstIndex (fst b) names) l ->
  StronglySorted (ranksBefore names) (Js.sort byCountDescending l).
Proof.
  induction l as [|x l IH]; simpl; intros Hsorted; [constructor|].
  inversion Hsorted as [| ? ? Htail Hhead]; subst.
  apply sort_insert_ranked; [now apply IH|].
  eapply Permutation_Forall; [|exact Hhead].
  symmetry. apply sort_Permutation.
Qed.

Lemma top_of_tally (names : list string) :
  isTopFive names (firstn 5 (Js.sort byCountDescending (JsMap.entries (tally names)))).
Proof.
  unfold JsMap.entries.
  set (sorted := Js.sort byCountDescending (tally names)).
  assert (Hperm : Permutation sorted (tally names)) by apply sort_Permutation.
  assert (Hranked : StronglySorted (ranksBefore names) sorted).
  { apply sort_ranked.
    apply (StronglySorted_map fst
             (fun a b => firstIndex a names < firstIndex b names)).
    apply tally_keys_ordered. }
  assert (Hnodup : NoDup (map fst sorted)).
  { eapply Permutation_NoDup; [|apply (tally_keys_NoDup names)].
    symmetry. apply Permutation_map. exact Hperm. }
  split; [apply firstn_le_length|]. split; [|split; [|split]].
  - intros k c Hin. apply In_firstn in Hin.
    apply (Permutation_in _ Hperm), tally_entry in Hin. tauto.
  - rewrite <- (firstn_skipn 5 sorted), map_app in Hnodup.
    now apply NoDup_app_remove_r in Hnodup.
  - now apply StronglySorted_firstn.
  - intros k Hk Hout.
    assert (Hentry : In (k, occurrences k names) sorted).
    { apply (Permutation_in _ (Permutation_sym Hperm)), tally_entry. tauto. }
    rewrite <- (firstn_skipn 5 sorted) in Hentry, Hranked.
    apply in_app_or in Hentry as [Hfirst|Hrest].
    { elim Hout. change k with (fst (k, occurrences k names)). now apply in_map. }
    split.
    + rewrite length_firstn. apply Nat.min_l.
      destruct (Nat.le_gt_cases 5 (List.length sorted)) as [Hge|Hlt]; [exact Hge|].
      rewrite skipn_all2 in Hrest by lia. contradiction.
    + intros e He.
      exact (@StronglySorted_app_cross _ _ _ _ Hranked e _ He Hrest).
Qed.

Lemma clientCounts_tally (yearShipments : list ShipmentRecord) :
  clientCounts yearShipments = tally (map clientName yearShipments).
Proof.
  unfold clientCounts, tally. rewrite <- fold_left_map.
  apply fold_left_same. intros map s. unfold clientName, Js.or_str.
  destruct (client s) as [[|a rest]|]; reflexivity.
Qed.

Lemma routeCounts_tally (yearShipments : list ShipmentRecord) :
  routeCounts yearShipments = tally (map routeOf yearShipments).
Proof. unfold routeCounts, tally. now rewrite <- fold_left_map. Qed.

Lemma topClients_pairs (yearShipments : list ShipmentRecord) :
  map clientPair (topClients yearShipments)
  = firstn 5 (Js.sort byCountDescending
                (JsMap.entries (tally (map clientName yearShipments)))).
Proof.
  unfold topClients. rewrite clientCounts_tally, map_map.
  rewrite <- (map_id (firstn 5 _)) at 2.
  apply map_ext. now intros [name count].
Qed.

Lemma topRoutes_pairs (yearShipments : list ShipmentRecord) :
  map routePair (topRoutes yearShipments)
  = firstn 5 (Js.sort byCountDescending
                (JsMap.entries (tally (map routeOf yearShipments)))).
Proof.
  unfold topRoutes. rewrite routeCounts_tally, map_map.
  rewrite <- (map_id (firstn 5 _)) at 2.
  apply map_ext. now intros [route count].
Qed.

(** C7: the top clients count the records per client name, the placeholder
    standing for a missing or empty client, and the top routes count them
    per route text built from origin and destination; each list is in
    descending order of count with ties in order of first appearance, holds
    five entries at most and leaves out only keys that rank after every
    listed one, so that among keys of equal count the cut keeps those first
    met.  Clients Acme, Acme, Beta give Acme 2, Beta 1. *)
Theorem top_groupings (yearShipments : list ShipmentRecord) :
  isTopFive (map clientName yearShipments)
    (map clientPair (topClients yearShipments))
  /\ isTopFive (map routeOf yearShipments)
       (map routePair (topRoutes yearShipments))
  /\ (forall s, routeOf s = (pol s ++ " → " ++ pod s)%string)
  /\ (map clientName yearShipments = ["Acme"; "Acme"; "Beta"] ->
      topClients yearShipments
      = [ClientCount.mk "Acme" 2; ClientCount.mk "Beta" 1]).
Proof.
  split; [|split; [|split]].
  - rewrite topClients_pairs. apply top_of_tally.
  - rewrite topRoutes_pairs. apply top_of_tally.
  - reflexivity.
  - intros Hnames. unfold topClients.
    rewrite clientCounts_tally, Hnames. reflexivity.
Qed.

End TopFive.

(** ** Grouping records under a key *)

Section GroupingFacts.

Lemma forEach_snoc {A S : Type} (body : S -> A -> option S) (l : list A) (x : A)
    (st : S) :
  Js.forEach body (l ++ [x]) st
  = match Js.forEach body l st with
    | Some st' => body st' x
    | None => None
    end.
Proof.
  revert st. induction l as [|y l IH]; intros st; simpl.
  - now destruct (body st x).
  - destruct (body st y); [apply IH|reflexivity].
Qed.

Lemma filter_nil_iff {A : Type} (keep : A -> bool) (l : list A) :
  filter keep l = [] <-> existsb keep l = false.
Proof.
  induction l as [|x l IH]; simpl; [tauto|].
  destruct (keep x); simpl; [split; discriminate|exact IH].
Qed.

Variables (E : Type) (groupKey : ShipmentRecord -> string)
  (init : ShipmentRecord -> E) (step : E -> ShipmentRecord -> E).

Local Notation "'loop'" := (groupLoop groupKey init step).
Local Notation "'entry'" := (groupEntry groupKey init step).

Lemma groupLoop_snoc (l : list ShipmentRecord) (s : ShipmentRecord) :
  loop (l ++ [s])
  = match loop l with
    | None => None
    | Some m =>
        let k := groupKey s in
        let m1 := if negb (JsMap.has k m) then JsMap.set k (init s) m else m in
        match JsMap.get k m1 with
        | None => None
        | Some e => Some (JsMap.set k (step e s) m1)
        end
    end.
Proof. unfold groupLoop. rewrite forEach_snoc. reflexivity. Qed.

Lemma filter_snoc_same (l : list ShipmentRecord) (s : ShipmentRecord) :
  filter (inGroup groupKey (groupKey s)) (l ++ [s])
  = filter (inGroup groupKey (groupKey s)) l ++ [s].
Proof.
  rewrite filter_app. simpl. unfold inGroup at 2. now rewrite String.eqb_refl.
Qed.

Lemma filter_snoc_other (k : string) (l : list ShipmentRecord) (s : ShipmentRecord) :
  groupKey s <> k ->
  filter (inGroup groupKey k) (l ++ [s]) = filter (inGroup groupKey k) l.
Proof.
  intros Hne. rewrite filter_app. simpl. unfold inGroup at 2.
  destruct (String.eqb_spec (groupKey s) k); [contradiction|].
  apply app_nil_r.
Qed.

Lemma groupEntry_snoc_other (k : string) (l : list ShipmentRecord) (s : ShipmentRecord) :
  groupKey s <> k -> entry k (l ++ [s]) = entry k l.
Proof. intros Hne. unfold groupEntry. now rewrite filter_snoc_other. Qed.

Lemma groupEntry_snoc_new (l : list ShipmentRecord) (s : ShipmentRecord) :
  entry (groupKey s) l = None ->
  entry (groupKey s) (l ++ [s]) = Some (step (init s) s).
Proof.
  unfold groupEntry. rewrite filter_snoc_same.
  destruct (filter (inGroup groupKey (groupKey s)) l); [reflexivity|discriminate].
Qed.

Lemma groupEntry_snoc_old (l : list ShipmentRecord) (s : ShipmentRecord) (e : E) :
  entry (groupKey s) l = Some e ->
  entry (groupKey s) (l ++ [s]) = Some (step e s).
Proof.
  unfold groupEntry. rewrite filter_snoc_same.
  destruct (filter (inGroup groupKey (groupKey s)) l) as [|first rest];
    [discriminate|].
  intros Heq. injection Heq as <-. simpl. f_equal.
  now rewrite fold_left_app.
Qed.

(** The loop never fails; it holds one entry per key that has a record, in
    the order in which the keys were first met, and each entry is
    [groupEntry]. *)
Lemma groupLoop_spec (l : list ShipmentRecord) :
  exists m,
    loop l = Some m
    /\ (forall k, JsMap.get k m = entry k l)
    /\ NoDup (JsMap.keys m)
    /\ (forall k, In k (JsMap.keys m) <-> In k (map groupKey l)).
Proof.
  induction l as [|s l IH] using rev_ind.
  - exists []. repeat split; simpl; try constructor; tauto.
  - destruct IH as [m [Hm [Hget [Hnodup Hkeys]]]].
    rewrite groupLoop_snoc, Hm. cbv zeta.
    set (k0 := groupKey s).
    assert (Hkeys' : forall ks,
               (forall k, In k ks <-> In k (map groupKey l) \/ k = k0) ->
               forall k, In k ks <-> In k (map groupKey (l ++ [s]))).
    { intros ks Hks k. rewrite Hks, map_app, in_app_iff. simpl. fold k0.
      intuition congruence. }
    destruct (JsMap.has k0 m) eqn:Hhas; simpl.
    + pose proof Hhas as Hold. unfold JsMap.has in Hold.
      destruct (JsMap.get k0 m) as [e|] eqn:He; [clear Hold|discriminate].
      eexists. split; [reflexivity|]. split; [|split].
      * intros k. destruct (String.eqb_spec k0 k) as [<-|Hne].
        -- rewrite get_set_same. symmetry. apply groupEntry_snoc_old.
           now rewrite <- Hget.
        -- rewrite get_set_other by assumption.
           now rewrite groupEntry_snoc_other.
      * rewrite keys_set, Hhas. exact Hnodup.
      * apply Hkeys'. intros k. rewrite keys_set, Hhas, Hkeys.
        split; [tauto|]. intros [Hk| ->]; [exact Hk|].
        apply Hkeys. now apply has_true_iff.
    + assert (Hnew : JsMap.get k0 m = None).
      { unfold JsMap.has in Hhas. now destruct (JsMap.get k0 m). }
      assert (Hhas1 : JsMap.has k0 (JsMap.set k0 (init s) m) = true).
      { unfold JsMap.has. now rewrite get_set_same. }
      rewrite get_set_same. eexists. split; [reflexivity|]. split; [|split].
      * intros k. destruct (String.eqb_spec k0 k) as [<-|Hne].
        -- rewrite get_set_same. symmetry. apply groupEntry_snoc_new.
           now rewrite <- Hget.
        -- rewrite !get_set_other by assumption.
           now rewrite groupEntry_snoc_other.
      * rewrite !keys_set, Hhas, Hhas1.
        apply NoDup_app; [exact Hnodup | repeat constructor; easy |].
        intros k Hk [<-|[]]. apply has_true_iff in Hk. congruence.
      * apply Hkeys'. intros k.
        rewrite !keys_set, Hhas, Hhas1, in_app_iff, Hkeys. simpl.
        intuition congruence.
Qed.

End GroupingFacts.

(** ** The statistics view *)

Section Stats.
Context `{DateFns}.
Import StatsView DateFormat.
Open Scope float_scope.

(** C8: on the empty collection the annual volume and profit are 0, both
    growth figures are 0, and the period buckets, the top clients and the
    top routes are empty, under every granularity and for every year. *)
Theorem empty_collection_neutral (viewMode : ViewMode) (selectedYear : option nat) :
  yearShipments [] selectedYear = []
  /\ annualTotals [] = Some (Totals.mk 0 0 0 0)
  /\ chartData [] viewMode = Some []
  /\ topClients [] = []
  /\ topRoutes [] = [].
Proof.
  split; [reflexivity|]. split; [|split; [|split]].
  - unfold annualTotals, currentTotals. simpl. reflexivity.
  - unfold chartData, grouped. simpl. reflexivity.
  - unfold topClients, clientCounts. simpl. reflexivity.
  - unfold topRoutes, routeCounts. simpl. reflexivity.
Qed.

Lemma currentTotals_spec (l : list ShipmentRecord) :
  currentTotals l = (countVolume l, sumProfit l).
Proof.
  unfold currentTotals, countVolume, sumProfit.
  enough (Hacc : forall v p,
             fold_left
               (fun '(currentVol, currentProfit) (s : ShipmentRecord) =>
                  (currentVol + 1, currentProfit + statsProfit s))
               l (v, p)
             = (fold_left (fun acc (_ : ShipmentRecord) => acc + 1) l v,
                fold_left (fun acc s => acc + statsProfit s) l p))
    by apply Hacc.
  induction l as [|s l IH]; intros v p; simpl; [reflexivity|].
  apply IH.
Qed.

Lemma monthlyStats_groupLoop (l : list ShipmentRecord) :
  monthlyStats l = groupLoop monthKey (fun _ => MonthEntry.mk 0 0) bump l.
Proof. reflexivity. Qed.

(** The loop over the months never fails; it holds one entry per month
    that has a record, and that entry is the fold over the month's records. *)
Lemma monthlyStats_spec (l : list ShipmentRecord) :
  exists m,
    monthlyStats l = Some m
    /\ (forall k, JsMap.get k m
                  = if existsb (inMonth k) l then Some (monthEntry k l) else None)
    /\ NoDup (JsMap.keys m)
    /\ (forall k, In k (JsMap.keys m) <-> In k (map monthKey l)).
Proof.
  destruct (groupLoop_spec monthKey (fun _ => MonthEntry.mk 0 0) bump l)
    as [m [Hm [Hget [Hnodup Hkeys]]]].
  exists m. rewrite monthlyStats_groupLoop.
  split; [exact Hm|]. split; [|split; assumption].
  intros k. rewrite Hget. unfold groupEntry, monthEntry.
  change (inGroup monthKey k) with (inMonth k).
  destruct (existsb (inMonth k) l) eqn:Hex.
  - destruct (filter (inMonth k) l) eqn:Hfilter; [|reflexivity].
    apply filter_nil_iff in Hfilter. congruence.
  - apply filter_nil_iff in Hex. now rewrite Hex.
Qed.

(** *** Period buckets *)

Lemma grouped_groupLoop (l : list ShipmentRecord) (viewMode : ViewMode) :
  grouped l viewMode
  = groupLoop (periodKey viewMode)
      (fun s => ChartEntry.mk (periodLabel viewMode s) (periodKey viewMode s) 0 0)
      chartStep l.
Proof. destruct viewMode; reflexivity. Qed.

Lemma fold_chartStep (l : list ShipmentRecord) (e : ChartEntry.t) :
  fold_left chartStep l e
  = ChartEntry.mk (ChartEntry.label e) (ChartEntry.dateStr e)
      (fold_left (fun acc (_ : ShipmentRecord) => acc + 1) l (ChartEntry.volume e))
      (fold_left (fun acc s => acc + statsProfit s) l (ChartEntry.profit e)).
Proof.
  revert e. induction l as [|s l IH]; intros e; simpl.
  - now destruct e.
  - now rewrite IH.
Qed.

(** The chart never fails; every bucket carries its key, holds the number
    of the records of its period and the sum of what the view books for
    them, and every record's period has its bucket. *)
Lemma chartData_buckets (l : list ShipmentRecord) (viewMode : ViewMode) :
  exists buckets,
    chartData l viewMode = Some buckets
    /\ NoDup (map ChartEntry.dateStr buckets)
    /\ (forall s, In s l ->
          In (periodKey viewMode s) (map ChartEntry.dateStr buckets))
    /\ (forall e, In e buckets ->
          let records := recordsIn viewMode (ChartEntry.dateStr e) l in
          records <> []
          /\ ChartEntry.volume e = countVolume records
          /\ ChartEntry.profit e = sumProfit records).
Proof.
  destruct (groupLoop_spec (periodKey viewMode)
              (fun s => ChartEntry.mk (periodLabel viewMode s) (periodKey viewMode s) 0 0)
              chartStep l) as [g [Hg [Hget [Hnodup Hkeys]]]].
  unfold chartData. rewrite grouped_groupLoop, Hg.
  set (compareFn := fun a b => localeCompare (ChartEntry.dateStr a) (ChartEntry.dateStr b)).
  assert (Hperm : Permutation (Js.sort compareFn (JsMap.values g)) (JsMap.values g))
    by apply sort_Permutation.
  assert (Hentry : forall k e, In (k, e) g ->
            ChartEntry.dateStr e = k
            /\ recordsIn viewMode k l <> []
            /\ ChartEntry.volume e = countVolume (recordsIn viewMode k l)
            /\ ChartEntry.profit e = sumProfit (recordsIn viewMode k l)).
  { intros k e Hin. apply In_get_Some in Hin; [|exact Hnodup].
    rewrite Hget in Hin. unfold groupEntry in Hin. fold (recordsIn viewMode k l) in Hin.
    destruct (recordsIn viewMode k l) as [|first rest] eqn:Hrecords; [discriminate|].
    injection Hin as <-. rewrite fold_chartStep. cbn [ChartEntry.dateStr
      ChartEntry.volume ChartEntry.profit ChartEntry.label].
    assert (Hfirst : periodKey viewMode first = k).
    { assert (Hin : In first (recordsIn viewMode k l))
        by (rewrite Hrecords; now left).
      apply filter_In in Hin as [_ Hkey]. now apply String.eqb_eq in Hkey. }
    repeat split; [exact Hfirst|discriminate]. }
  assert (Hdates : map ChartEntry.dateStr (JsMap.values g) = JsMap.keys g).
  { unfold JsMap.values, JsMap.keys. rewrite map_map. apply map_ext_in.
    intros [k e] Hin. now destruct (Hentry k e Hin) as [Hk _]. }
  eexists. split; [reflexivity|]. split; [|split].
  - apply (Permutation_NoDup (Permutation_sym (Permutation_map _ Hperm))).
    now rewrite Hdates.
  - intros s Hs.
    apply (Permutation_in _ (Permutation_sym (Permutation_map _ Hperm))).
    rewrite Hdates. apply Hkeys. now apply in_map.
  - intros e He. apply (Permutation_in _ Hperm) in He.
    apply in_map_iff in He as [[k e'] [Heq Hin]]. simpl in Heq. subst e'.
    destruct (Hentry k e Hin) as [Hk Hrest]. now rewrite Hk.
Qed.

(** *** Month keys and their order *)

Lemma monthKey_keyOf (s : ShipmentRecord) :
  monthKey s = keyOf (getFullYear (anchorDate s)) (monthOf s).
Proof. reflexivity. Qed.

Lemma append_inv_head (p a b : string) : (p ++ a = p ++ b)%string -> a = b.
Proof.
  induction p as [|c p IH]; simpl; [tauto|].
  intros Heq. injection Heq as Heq. now apply IH.
Qed.

Lemma utf16_plain (p rest : list N) :
  Forall (fun b => (b < 128)%N) p -> Js.utf16 (p ++ rest) = p ++ Js.utf16 rest.
Proof.
  induction p as [|b p IH]; intros Hplain; [reflexivity|].
  inversion Hplain as [| ? ? Hb Hp]; subst.
  cbn [app Js.utf16]. cbv zeta.
  assert (Hlow : (b <? 192)%N = true) by (apply N.ltb_lt; lia).
  rewrite Hlow. f_equal. now apply IH.
Qed.

Lemma list_ascii_of_string_app (a b : string) :
  list_ascii_of_string (a ++ b) = list_ascii_of_string a ++ list_ascii_of_string b.
Proof. induction a as [|c a IH]; simpl; [reflexivity|]. now rewrite IH. Qed.

Lemma codeUnits_plain_app (p a : string) :
  plainText p ->
  Js.codeUnits (p ++ a) = map N_of_ascii (list_ascii_of_string p) ++ Js.codeUnits a.
Proof.
  intros Hplain. unfold Js.codeUnits.
  rewrite list_ascii_of_string_app, map_app. apply utf16_plain.
  unfold plainText in Hplain. rewrite Forall_forall in *.
  intros b Hb. apply in_map_iff in Hb as [c [<- Hc]]. now apply Hplain.
Qed.

Lemma compare_units_refl (a : list N) : Js.compare_units a a = Eq.
Proof.
  induction a as [|x a IH]; simpl; [reflexivity|]. now rewrite N.compare_refl.
Qed.

Lemma compare_units_prefix (p a b : list N) :
  Js.compare_units (p ++ a) (p ++ b) = Js.compare_units a b.
Proof.
  induction p as [|x p IH]; simpl; [reflexivity|]. now rewrite N.compare_refl.
Qed.

Lemma plainText_app (a b : string) : plainText a -> plainText b -> plainText (a ++ b).
Proof.
  unfold plainText. rewrite list_ascii_of_string_app, Forall_app. tauto.
Qed.

Lemma plainText_digit (n : nat) (acc : string) :
  n < 10 -> plainText acc -> plainText (String (digit n) acc).
Proof.
  intros Hn Hacc. constructor; [|exact Hacc].
  do 10 (destruct n as [|n]; [vm_compute; reflexivity|]). lia.
Qed.

Lemma plainText_decimal_from (fuel n : nat) (acc : string) :
  plainText acc -> plainText (decimal_from fuel n acc).
Proof.
  revert n acc. induction fuel as [|fuel IH]; intros n acc Hacc; [exact Hacc|].
  cbn [decimal_from]. cbv zeta.
  assert (Hdigit : plainText (String (digit (n mod 10)) acc)).
  { apply plainText_digit; [|exact Hacc]. apply Nat.mod_upper_bound. lia. }
  destruct (n / 10 =? 0)%nat; [exact Hdigit|]. now apply IH.
Qed.

Lemma plainText_zeros (n : nat) : plainText (zeros n).
Proof.
  induction n as [|n IH]; [constructor|].
  constructor; [vm_compute; reflexivity|exact IH].
Qed.

Lemma plainText_yyyy (d : Date) : plainText (yyyy d).
Proof.
  unfold yyyy, padStart. apply plainText_app; [apply plainText_zeros|].
  apply plainText_decimal_from. constructor.
Qed.

(** Keys of one year compare as their months do. *)
Lemma compare_default_keyOf (year : nat) (a b : Month) :
  Js.compare_default (keyOf year a) (keyOf year b) = monthCmp a b.
Proof.
  unfold Js.compare_default, keyOf, format_yyyy_MM.
  change (yyyy (mkDate year a 1)) with (yyyy (mkDate year Jan 1)).
  change (yyyy (mkDate year b 1)) with (yyyy (mkDate year Jan 1)).
  rewrite !(@codeUnits_plain_app (yyyy (mkDate year Jan 1)))
    by apply plainText_yyyy.
  rewrite compare_units_prefix.
  destruct a, b; reflexivity.
Qed.

Lemma keyOf_inj (year : nat) (a b : Month) : keyOf year a = keyOf year b -> a = b.
Proof.
  unfold keyOf, format_yyyy_MM. intros Heq. apply append_inv_head in Heq.
  destruct a, b; solve [reflexivity | discriminate Heq].
Qed.

Lemma truthy_str_app (a : string) (c : ascii) (b : string) :
  Js.truthy_str (a ++ String c b) = true.
Proof. destruct a; reflexivity. Qed.

Lemma keyOf_truthy (year : nat) (mth : Month) : Js.truthy_str (keyOf year mth) = true.
Proof. unfold keyOf, format_yyyy_MM. apply truthy_str_app. Qed.

Lemma monthCmp_le (a b : Month) :
  (monthCmp a b <= 0)%Z <-> monthNumber a <= monthNumber b.
Proof.
  unfold monthCmp.
  destruct (Nat.compare_spec (monthNumber a) (monthNumber b)); lia.
Qed.

Lemma monthNumber_inj (a b : Month) : monthNumber a = monthNumber b -> a = b.
Proof. destruct a, b; simpl; intros Heq; solve [reflexivity | discriminate Heq]. Qed.

Lemma ascending_strict (l : list Month) :
  NoDup l ->
  StronglySorted (fun a b => monthNumber a <= monthNumber b) l ->
  StronglySorted (fun a b => monthNumber a < monthNumber b) l.
Proof.
  induction l as [|x l IH]; intros Hnodup Hsorted; [constructor|].
  inversion Hnodup as [| ? ? Hfresh Hrest]; subst.
  inversion Hsorted as [| ? ? Htail Hhead]; subst.
  constructor; [now apply IH|].
  rewrite Forall_forall in *. intros y Hy. specialize (Hhead y Hy).
  destruct (Nat.eq_dec (monthNumber x) (monthNumber y)) as [Heq|Hne]; [|lia].
  apply monthNumber_inj in Heq. subst y. contradiction.
Qed.

Lemma keys_as_months (year : nat) (ks : list string) :
  (forall k, In k ks -> exists mth, k = keyOf year mth) ->
  exists months, ks = map (keyOf year) months.
Proof.
  induction ks as [|k ks IH]; intros Hall.
  - now exists [].
  - destruct (Hall k (or_introl eq_refl)) as [mth ->].
    destruct IH as [months ->]; [intros k Hk; apply Hall; now right|].
    now exists (mth :: months).
Qed.

Lemma index_map {A B : Type} (f : A -> B) (l : list A) (i : Z) :
  Js.index (map f l) i = option_map f (Js.index l i).
Proof.
  unfold Js.index. destruct (i <? 0)%Z; [reflexivity|]. apply nth_error_map.
Qed.

(** *** The entry of a month *)

Lemma fold_bump (l : list ShipmentRecord) (e : MonthEntry.t) :
  fold_left bump l e
  = MonthEntry.mk
      (fold_left (fun acc (_ : ShipmentRecord) => acc + 1) l (MonthEntry.vol e))
      (fold_left (fun acc s => acc + statsProfit s) l (MonthEntry.profit e)).
Proof.
  revert e. induction l as [|s l IH]; intros e; simpl.
  - now destruct e.
  - now rewrite IH.
Qed.

Lemma monthEntry_recordsOf (year : nat) (mth : Month) (l : list ShipmentRecord) :
  Forall (fun s => getFullYear (anchorDate s) = year) l ->
  monthEntry (keyOf year mth) l
  = MonthEntry.mk (countVolume (recordsOf mth l)) (sumProfit (recordsOf mth l)).
Proof.
  intros Hyear. unfold monthEntry. rewrite fold_bump. simpl.
  unfold countVolume, sumProfit, recordsOf.
  replace (filter (inMonth (keyOf year mth)) l) with (filter (inCalendarMonth mth) l);
    [reflexivity|].
  apply filter_ext_in. intros s Hs.
  rewrite Forall_forall in Hyear. specialize (Hyear s Hs).
  unfold inCalendarMonth, inMonth. rewrite monthKey_keyOf, Hyear.
  destruct (Nat.eqb_spec (monthNumber (monthOf s)) (monthNumber mth)) as [Heq|Hne].
  - apply monthNumber_inj in Heq. rewrite Heq. symmetry. apply String.eqb_refl.
  - symmetry. apply String.eqb_neq. intros Hkey. apply keyOf_inj in Hkey.
    now rewrite Hkey in Hne.
Qed.

Lemma yearShipments_year (shipments : list ShipmentRecord) (selectedYear : nat) :
  Forall (fun s => getFullYear (anchorDate s) = selectedYear)
    (yearShipments shipments (Some selectedYear)).
Proof.
  apply Forall_forall. intros s Hs. unfold yearShipments in Hs.
  apply filter_In in Hs as [_ Hyear]. unfold anchorYear in Hyear. cbv zeta in Hyear.
  destruct (anchorValid s); [|discriminate]. now apply Nat.eqb_eq in Hyear.
Qed.

(** The year filter keeps no record whose date is invalid. *)
Lemma yearShipments_valid (shipments : list ShipmentRecord)
    (selectedYear : option nat) :
  Forall (fun s => anchorValid s = true) (yearShipments shipments selectedYear).
Proof.
  apply Forall_forall. intros s Hs. unfold yearShipments in Hs.
  apply filter_In in Hs as [_ Hyear]. unfold anchorYear in Hyear. cbv zeta in Hyear.
  now destruct (anchorValid s).
Qed.

(** *** Month-over-month growth *)

Lemma annualTotals_two_months (year : nat) (l : list ShipmentRecord)
    (curr prev : Month) :
  Forall (fun s => getFullYear (anchorDate s) = year) l ->
  In curr (map monthOf l) -> In prev (map monthOf l) ->
  monthNumber prev < monthNumber curr ->
  (forall s, In s l -> monthOf s = curr \/ monthNumber (monthOf s) <= monthNumber prev) ->
  annualTotals l
  = Some (Totals.mk (countVolume l) (sumProfit l)
            (growth (countVolume (recordsOf curr l)) (countVolume (recordsOf prev l)))
            (growth (sumProfit (recordsOf curr l)) (sumProfit (recordsOf prev l)))).
Proof.
  intros Hyear Hcurr Hprev Hlt Hall.
  destruct (monthlyStats_spec l) as [m [Hm [Hget [Hnodup Hkeys]]]].
  assert (Hkey_month : forall k, In k (JsMap.keys m) <->
                                 exists mth, k = keyOf year mth /\ In mth (map monthOf l)).
  { intros k. rewrite Hkeys, in_map_iff. split.
    - intros [s [<- Hs]]. exists (monthOf s). split; [|now apply in_map].
      rewrite monthKey_keyOf. rewrite Forall_forall in Hyear. now rewrite (Hyear s Hs).
    - intros [mth [-> Hmth]]. apply in_map_iff in Hmth as [s [<- Hs]].
      exists s. split; [|exact Hs].
      rewrite monthKey_keyOf. rewrite Forall_forall in Hyear. now rewrite (Hyear s Hs). }
  destruct (@keys_as_months year (JsMap.keys m)) as [months Hmonths].
  { intros k Hk. apply Hkey_month in Hk as [mth [-> _]]. now exists mth. }
  assert (Hmonth_in : forall mth, In mth months <-> In mth (map monthOf l)).
  { intros mth. split.
    - intros Hin. apply (in_map (keyOf year)) in Hin. rewrite <- Hmonths in Hin.
      apply Hkey_month in Hin as [mth' [Heq Hin]].
      apply keyOf_inj in Heq. now subst mth'.
    - intros Hin.
      assert (Hk : In (keyOf year mth) (JsMap.keys m))
        by (apply Hkey_month; now exists mth).
      rewrite Hmonths in Hk. apply in_map_iff in Hk as [mth' [Heq Hin']].
      apply keyOf_inj in Heq. now subst mth'. }
  set (sorted := Js.sort monthCmp months).
  assert (Hperm : Permutation sorted months) by apply sort_Permutation.
  assert (Hasc : StronglySorted (fun a b => monthNumber a < monthNumber b) sorted).
  { apply ascending_strict.
    - apply (Permutation_NoDup (Permutation_sym Hperm)).
      apply (NoDup_map_inv (keyOf year)). now rewrite <- Hmonths.
    - apply sort_by_key. apply monthCmp_le. }
  destruct (@ascending_last_two _ monthNumber sorted curr prev Hasc) as [front Hfront].
  { apply (Permutation_in _ (Permutation_sym Hperm)). now apply Hmonth_in. }
  { apply (Permutation_in _ (Permutation_sym Hperm)). now apply Hmonth_in. }
  { exact Hlt. }
  { intros x Hx. apply (Permutation_in _ Hperm), Hmonth_in in Hx.
    apply in_map_iff in Hx as [s [<- Hs]]. now apply Hall. }
  assert (Hnonempty : (List.length l =? 0)%nat = false).
  { destruct l; [contradiction|reflexivity]. }
  assert (Hentry : forall mth, In mth (map monthOf l) ->
            JsMap.get (keyOf year mth) m
            = Some (MonthEntry.mk (countVolume (recordsOf mth l))
                      (sumProfit (recordsOf mth l)))).
  { intros mth Hmth. rewrite Hget.
    assert (Hex : existsb (inMonth (keyOf year mth)) l = true).
    { apply existsb_exists. apply in_map_iff in Hmth as [s [<- Hs]].
      exists s. split; [exact Hs|]. unfold inMonth. apply String.eqb_eq.
      rewrite monthKey_keyOf. rewrite Forall_forall in Hyear. now rewrite (Hyear s Hs). }
    rewrite Hex. now rewrite (monthEntry_recordsOf mth Hyear). }
  unfold annualTotals. rewrite currentTotals_spec, Hnonempty, Hm.
  rewrite Hmonths.
  rewrite (sort_map (keyOf year) monthCmp Js.compare_default months
             (compare_default_keyOf year)).
  fold sorted. rewrite Hfront, !index_map, length_map.
  destruct (index_last_two front prev curr) as [Hlast Hbefore].
  cbv zeta in Hlast, Hbefore. rewrite Hlast, Hbefore.
  cbn [option_map truthy_key]. rewrite !keyOf_truthy. cbn [negb orb].
  rewrite (Hentry curr Hcurr), (Hentry prev Hprev).
  reflexivity.
Qed.

Lemma nodup_all_equal {A : Type} (a : A) (l : list A) :
  NoDup l -> In a l -> (forall x, In x l -> x = a) -> l = [a].
Proof.
  intros Hnodup Ha Hall. destruct l as [|x l]; [contradiction|].
  assert (x = a) by (apply Hall; now left). subst x.
  destruct l as [|y l]; [reflexivity|].
  assert (y = a) by (apply Hall; right; now left). subst y.
  inversion Hnodup as [| ? ? Hfresh _]; subst. elim Hfresh. now left.
Qed.

Lemma annualTotals_one_month (l : list ShipmentRecord) :
  l <> [] ->
  (forall s s', In s l -> In s' l -> monthKey s = monthKey s') ->
  annualTotals l = Some (Totals.mk (countVolume l) (sumProfit l) 0 0).
Proof.
  intros Hne Hsame.
  destruct (monthlyStats_spec l) as [m [Hm [Hget [Hnodup Hkeys]]]].
  destruct l as [|s0 l]; [contradiction|].
  assert (Hone : JsMap.keys m = [monthKey s0]).
  { apply nodup_all_equal; [exact Hnodup| |].
    - apply Hkeys. now left.
    - intros k Hk. apply Hkeys, in_map_iff in Hk as [s [<- Hs]].
      apply Hsame; [exact Hs|now left]. }
  unfold annualTotals. rewrite currentTotals_spec, Hm, Hone.
  change (Js.sort Js.compare_default [monthKey s0]) with [monthKey s0].
  change (Js.index [monthKey s0] (Z.of_nat (List.length [monthKey s0]) - 2)) with (@None string).
  cbn [List.length Nat.eqb truthy_key negb]. rewrite orb_true_r.
  reflexivity.
Qed.

(** *** The annual memo always yields its totals *)

Lemma index_In {A : Type} (l : list A) (i : Z) (x : A) :
  Js.index l i = Some x -> In x l.
Proof.
  unfold Js.index. destruct (i <? 0)%Z; [discriminate|]. apply nth_error_In.
Qed.

Lemma annualTotals_total (l : list ShipmentRecord) :
  l <> [] ->
  exists vGrowth pGrowth,
    annualTotals l = Some (Totals.mk (countVolume l) (sumProfit l) vGrowth pGrowth).
Proof.
  intros Hne.
  destruct (monthlyStats_spec l) as [m [Hm [Hget [Hnodup Hkeys]]]].
  assert (Hnonempty : (List.length l =? 0)%nat = false).
  { destruct l; [contradiction|reflexivity]. }
  assert (Hfound : forall k i,
             Js.index (Js.sort Js.compare_default (JsMap.keys m)) i = Some k ->
             exists e, JsMap.get k m = Some e).
  { intros k i Hk. apply index_In in Hk.
    apply (Permutation_in _ (sort_Permutation _ _)), has_true_iff in Hk.
    unfold JsMap.has in Hk. destruct (JsMap.get k m) as [e|]; [|discriminate].
    now exists e. }
  unfold annualTotals. rewrite currentTotals_spec, Hnonempty, Hm.
  set (sortedMonths := Js.sort Js.compare_default (JsMap.keys m)) in *.
  set (n := Z.of_nat (List.length sortedMonths)).
  destruct (Js.index sortedMonths (n - 1)) as [latest|] eqn:Hlatest;
    [|do 2 eexists; reflexivity].
  destruct (Js.index sortedMonths (n - 2)) as [before|] eqn:Hbefore;
    [|cbn [truthy_key negb]; rewrite orb_true_r; do 2 eexists; reflexivity].
  destruct (negb (truthy_key (Some latest)) || negb (truthy_key (Some before)));
    [do 2 eexists; reflexivity|].
  destruct (Hfound _ _ Hlatest) as [curr ->].
  destruct (Hfound _ _ Hbefore) as [prev ->].
  do 2 eexists; reflexivity.
Qed.

(** *** The month buckets behind the growth figures *)

Lemma records_of_month_key (year : nat) (mth : Month) (l : list ShipmentRecord) :
  Forall (fun s => getFullYear (anchorDate s) = year) l ->
  recordsIn month (keyOf year mth) l = recordsOf mth l.
Proof.
  intros Hyear. unfold recordsIn, recordsOf.
  apply filter_ext_in. intros s Hs.
  rewrite Forall_forall in Hyear. specialize (Hyear s Hs).
  change (inGroup (periodKey month) (keyOf year mth) s)
    with (inMonth (keyOf year mth) s).
  unfold inCalendarMonth, inMonth. rewrite monthKey_keyOf, Hyear.
  destruct (Nat.eqb_spec (monthNumber (monthOf s)) (monthNumber mth)) as [Heq|Hne].
  - apply monthNumber_inj in Heq. rewrite Heq. apply String.eqb_refl.
  - apply String.eqb_neq. intros Hkey. apply keyOf_inj in Hkey.
    now rewrite Hkey in Hne.
Qed.

(** Under the month view every month that has a record has its bucket,
    which holds what the month map of the annual memo holds for it. *)
Lemma month_bucket (year : nat) (l : list ShipmentRecord)
    (buckets : list ChartEntry.t) (mth : Month) :
  Forall (fun s => getFullYear (anchorDate s) = year) l ->
  chartData l month = Some buckets ->
  In mth (map monthOf l) ->
  exists bucket,
    In bucket buckets
    /\ ChartEntry.dateStr bucket = keyOf year mth
    /\ ChartEntry.volume bucket = countVolume (recordsOf mth l)
    /\ ChartEntry.profit bucket = sumProfit (recordsOf mth l).
Proof.
  intros Hyear Hchart Hmth.
  destruct (chartData_buckets l month) as [buckets' [Hchart' [_ [Hcover Hcontent]]]].
  rewrite Hchart in Hchart'. injection Hchart' as <-.
  apply in_map_iff in Hmth as [s [<- Hs]].
  pose proof (Hcover s Hs) as Hkey.
  apply in_map_iff in Hkey as [bucket [Hdate Hbucket]].
  assert (Hdate' : ChartEntry.dateStr bucket = keyOf year (monthOf s)).
  { rewrite Hdate. change (periodKey month s) with (monthKey s).
    rewrite monthKey_keyOf. rewrite Forall_forall in Hyear. now rewrite (Hyear s Hs). }
  exists bucket. split; [exact Hbucket|]. split; [exact Hdate'|].
  destruct (Hcontent bucket Hbucket) as [_ [Hvolume Hprofit]].
  rewrite Hdate', (records_of_month_key (monthOf s) Hyear) in Hvolume, Hprofit.
  now split.
Qed.

(** C4: for a non-empty collection of the selected year, the growth figures
    compare two buckets of the month view, whatever view is on display: the
    bucket of the latest month that has records and the bucket of the latest
    month before it, [(curr - prev) / prev * 100] on their volumes and on
    their profits, 100 when the earlier value is 0; with records in one
    month only both figures are 0.  Profits 100 then 150 give 50; 0 then 50
    give 100. *)
Theorem month_over_month_growth (shipments : list ShipmentRecord) (selectedYear : nat) :
  let l := yearShipments shipments (Some selectedYear) in
  l <> [] ->
  (exists totals buckets,
      annualTotals l = Some totals
      /\ chartData l month = Some buckets
      /\ (forall curr prev : Month,
            In curr (map monthOf l) -> In prev (map monthOf l) ->
            monthNumber prev < monthNumber curr ->
            (forall s, In s l ->
                       monthOf s = curr \/ monthNumber (monthOf s) <= monthNumber prev) ->
            exists currBucket prevBucket,
              In currBucket buckets /\ In prevBucket buckets
              /\ ChartEntry.dateStr currBucket = keyOf selectedYear curr
              /\ ChartEntry.dateStr prevBucket = keyOf selectedYear prev
              /\ ChartEntry.volume currBucket = countVolume (recordsOf curr l)
              /\ ChartEntry.volume prevBucket = countVolume (recordsOf prev l)
              /\ Totals.volGrowth totals
                 = growth (ChartEntry.volume currBucket) (ChartEntry.volume prevBucket)
              /\ Totals.profitGrowth totals
                 = growth (ChartEntry.profit currBucket) (ChartEntry.profit prevBucket))
      /\ ((forall s s', In s l -> In s' l -> monthOf s = monthOf s') ->
          Totals.volGrowth totals = 0 /\ Totals.profitGrowth totals = 0))
  /\ (forall curr prev : float,
         growth curr prev
         = if PrimFloat.eqb prev 0 then 100 else ((curr - prev) / prev) * 100)
  /\ growth 150 100 = 50
  /\ growth 50 0 = 100.
Proof.
  intros l Hne.
  pose proof (yearShipments_year shipments selectedYear) as Hyear. fold l in Hyear.
  split; [|repeat split].
  destruct (chartData_buckets l month) as [buckets [Hchart _]].
  destruct (annualTotals_total Hne) as [vGrowth [pGrowth Htotals]].
  exists (Totals.mk (countVolume l) (sumProfit l) vGrowth pGrowth), buckets.
  split; [exact Htotals|]. split; [exact Hchart|]. split.
  - intros curr prev Hcurr Hprev Hlt Hall.
    pose proof (@annualTotals_two_months selectedYear l curr prev Hyear Hcurr Hprev
                  Hlt Hall) as Htwo.
    rewrite Htotals in Htwo. injection Htwo as Hv Hp.
    destruct (month_bucket curr Hyear Hchart Hcurr)
      as [currBucket [Hcin [Hcdate [Hcvol Hcprofit]]]].
    destruct (month_bucket prev Hyear Hchart Hprev)
      as [prevBucket [Hpin [Hpdate [Hpvol Hpprofit]]]].
    exists currBucket, prevBucket.
    cbn [Totals.volGrowth Totals.profitGrowth].
    rewrite Hcvol, Hpvol, Hcprofit, Hpprofit.
    repeat split; assumption.
  - intros Hsame.
    assert (Hone : annualTotals l = Some (Totals.mk (countVolume l) (sumProfit l) 0 0)).
    { apply annualTotals_one_month; [exact Hne|].
      intros s s' Hs Hs'. rewrite !monthKey_keyOf.
      rewrite Forall_forall in Hyear.
      now rewrite (Hyear s Hs), (Hyear s' Hs'), (Hsame s s' Hs Hs'). }
    rewrite Htotals in Hone. injection Hone as Hv Hp.
    cbn [Totals.volGrowth Totals.profitGrowth]. now split.
Qed.

(** *** One record with an additional fee *)

(** C1, evaluated: a record whose only margin is a terminal handling charge
    sold at 10 has profit 10 in the list, while the statistics view books 0
    for it in the annual total and in its period bucket. *)
Theorem stats_profit_leaves_out_additional_fees (viewMode : ViewMode) :
  ShipmentList.calculateTotalProfit thcOnlyRecord = 10
  /\ annualTotals [thcOnlyRecord] = Some (Totals.mk 1 0 0 0)
  /\ exists label key,
       chartData [thcOnlyRecord] viewMode = Some [ChartEntry.mk label key 1 0].
Proof.
  split; [reflexivity|]. split.
  - rewrite annualTotals_one_month; [reflexivity|discriminate|].
    intros s s' [<-|[]] [<-|[]]. reflexivity.
  - unfold chartData, grouped. cbn [Js.forEach].
    destruct (periodOf viewMode (anchorDate thcOnlyRecord)) as [key label].
    cbn [JsMap.has JsMap.get JsMap.set negb].
    rewrite String.eqb_refl. exists label, key. reflexivity.
Qed.

End Stats.

(** ** Worked examples *)

Section Examples.
Import StatsView DateFormat.
Open Scope float_scope.

Example format_month_key :
  format_yyyy_MM (isoDate "2024-03-05") = "2024-03"
  /\ format_yyyy_MM_dd (isoDate "2024-03-05") = "2024-03-05"
  /\ format_yyyy_MM (mkDate 987 Dec 1) = "0987-12".
Proof. repeat split; reflexivity. Qed.

Example year_is_selected :
  @yearShipments iso_dates sampleShipments (Some 2024%nat)
  = [februaryRecord; marchRecord].
Proof. reflexivity. Qed.

(** Profit 100 in February and 150 in March: growth 50; one record each:
    volume growth 0. *)
Example growth_of_sample_year :
  @annualTotals iso_dates (@yearShipments iso_dates sampleShipments (Some 2024%nat))
  = Some (Totals.mk 2 250 0 50)
  /\ @chartData iso_dates (@yearShipments iso_dates sampleShipments (Some 2024%nat))
       month
     = Some [ChartEntry.mk "Feb" "2024-02" 1 100; ChartEntry.mk "Mar" "2024-03" 1 150].
Proof. split; reflexivity. Qed.

Lemma month_over_month_growth_witness :
  let l := @yearShipments iso_dates sampleShipments (Some 2024%nat) in
  exists totals buckets currBucket prevBucket,
    @annualTotals iso_dates l = Some totals
    /\ @chartData iso_dates l month = Some buckets
    /\ In currBucket buckets /\ In prevBucket buckets
    /\ ChartEntry.dateStr currBucket = "2024-03"
    /\ ChartEntry.dateStr prevBucket = "2024-02"
    /\ Totals.volGrowth totals
       = growth (ChartEntry.volume currBucket) (ChartEntry.volume prevBucket)
    /\ Totals.profitGrowth totals
       = growth (ChartEntry.profit currBucket) (ChartEntry.profit prevBucket).
Proof.
  intros l.
  assert (Hne : l <> []) by discriminate.
  destruct (@month_over_month_growth iso_dates sampleShipments 2024%nat Hne)
    as [[totals [buckets [Htotals [Hchart [Hgrowth _]]]]] _].
  destruct (Hgrowth Mar Feb) as [currBucket [prevBucket Hboth]].
  - right. left. reflexivity.
  - left. reflexivity.
  - simpl. lia.
  - intros s [<-|[<-|[]]]; [right; simpl; lia|left; reflexivity].
  - exists totals, buckets, currBucket, prevBucket.
    destruct Hboth as [Hcin [Hpin [Hcdate [Hpdate [_ [_ [Hv Hp]]]]]]].
    repeat split; assumption.
Defined.

Example search_ignores_case :
  @ShipmentList.filteredShipments ascii_case sampleShipments "abc" "all" "all"
  = [februaryRecord]
  /\ @ShipmentList.filteredShipments ascii_case sampleShipments "" "40HQ" "Acme"
     = [februaryRecord; marchRecord]
  /\ @ShipmentList.filteredShipments ascii_case sampleShipments "" "all" "all"
     = sampleShipments.
Proof. repeat split; reflexivity. Qed.

(** Among six clients met once each the cut keeps the five first met. *)
Example cut_keeps_first_met :
  map ClientCount.name (topClients singleClients) = ["a"; "b"; "c"; "d"; "e"].
Proof. reflexivity. Qed.

(** Where the margin of every month lies in an additional fee the month
    buckets hold profit 0, and the profit growth is the 100 of an earlier
    value 0. *)
Example growth_follows_bucket_profit :
  map (fun s : ShipmentRecord => ShipmentList.calculateTotalProfit s) thcMonths
  = [100; 150]
  /\ @annualTotals iso_dates thcMonths = Some (Totals.mk 2 0 0 100)
  /\ @chartData iso_dates thcMonths month
     = Some [ChartEntry.mk "Feb" "2024-02" 1 0; ChartEntry.mk "Mar" "2024-03" 1 0].
Proof. repeat split; reflexivity. Qed.

Lemma top_groupings_witness :
  topClients sampleShipments = [ClientCount.mk "Acme" 2; ClientCount.mk "Beta" 1]
  /\ topRoutes sampleShipments = [RouteCount.mk "Shanghai → Rotterdam" 3].
Proof.
  split; [|reflexivity].
  exact (proj2 (proj2 (proj2 (@top_groupings sampleShipments))) eq_refl).
Defined.

End Examples.

(** * Further properties *)

(** ** Sets *)

Section SetFacts.
Context {T : Type} (eqb : T -> T -> bool).
Hypothesis eqb_eq : forall x y, eqb x y = true <-> x = y.

Lemma set_has_In (x : T) (s : list T) : JsSet.has eqb x s = true <-> In x s.
Proof.
  unfold JsSet.has. rewrite existsb_exists. split.
  - intros [y [Hy Heq]]. apply eqb_eq in Heq. now subst y.
  - intros Hx. exists x. split; [exact Hx|]. now apply eqb_eq.
Qed.

Lemma set_add_In (x y : T) (s : list T) :
  In y (JsSet.add eqb x s) <-> y = x \/ In y s.
Proof.
  unfold JsSet.add. destruct (JsSet.has eqb x s) eqn:Hhas.
  - apply set_has_In in Hhas. split; [tauto|]. intros [->|Hy]; assumption.
  - rewrite in_app_iff. simpl. intuition congruence.
Qed.

Lemma set_add_NoDup (x : T) (s : list T) : NoDup s -> NoDup (JsSet.add eqb x s).
Proof.
  intros Hs. unfold JsSet.add. destruct (JsSet.has eqb x s) eqn:Hhas; [exact Hs|].
  apply NoDup_app; [exact Hs | repeat constructor; easy |].
  intros y Hy [<-|[]]. apply set_has_In in Hy. congruence.
Qed.

Lemma set_fold_add {B : Type} (f : B -> T) (l : list B) (s : list T) :
  NoDup s ->
  let s' := fold_left (fun acc b => JsSet.add eqb (f b) acc) l s in
  NoDup s' /\ forall y, In y s' <-> In y s \/ In y (map f l).
Proof.
  revert s. induction l as [|b l IH]; intros s Hs; simpl.
  - split; [exact Hs|]. tauto.
  - destruct (IH (JsSet.add eqb (f b) s) (set_add_NoDup (f b) Hs)) as [Hnodup Hin].
    split; [exact Hnodup|]. intros y. rewrite Hin, set_add_In.
    intuition congruence.
Qed.

Lemma set_delete_In (x y : T) (s : list T) :
  In y (JsSet.delete eqb x s) <-> In y s /\ y <> x.
Proof.
  unfold JsSet.delete. rewrite filter_In, negb_true_iff.
  split; intros [Hy Hne]; split; try exact Hy.
  - intros ->. assert (eqb x x = true) by now apply eqb_eq. congruence.
  - destruct (eqb x y) eqn:Heq; [|reflexivity]. apply eqb_eq in Heq. congruence.
Qed.

Lemma set_delete_NoDup (x : T) (s : list T) : NoDup s -> NoDup (JsSet.delete eqb x s).
Proof. apply NoDup_filter. Qed.

Lemma set_delete_absent (x : T) (s : list T) : ~ In x s -> JsSet.delete eqb x s = s.
Proof.
  intros Hx. apply filter_all_kept. intros y Hy. apply negb_true_iff.
  destruct (eqb x y) eqn:Heq; [|reflexivity]. apply eqb_eq in Heq. congruence.
Qed.

End SetFacts.

(** ** Sorting with any total order *)

Section SortOrder.
Context {A : Type} (R : A -> A -> Prop) (compareFn : A -> A -> Z).
Hypothesis before : forall a b, (compareFn a b <= 0)%Z -> R a b.
Hypothesis after : forall a b, (0 < compareFn a b)%Z -> R b a.
Hypothesis R_trans : forall a b c, R a b -> R b c -> R a c.

Lemma sort_insert_ordered (x : A) (l : list A) :
  StronglySorted R l -> StronglySorted R (Js.sort_insert compareFn x l).
Proof.
  induction l as [|y l IH]; simpl; intros Hsorted.
  - repeat constructor.
  - inversion Hsorted as [| ? ? Htail Hhead]; subst.
    destruct (Z.leb_spec (compareFn x y) 0) as [Hle|Hgt].
    + constructor; [exact Hsorted|]. constructor; [now apply before|].
      rewrite Forall_forall in *. intros z Hz.
      apply R_trans with y; [now apply before | now apply Hhead].
    + constructor; [now apply IH|].
      eapply Permutation_Forall.
      * symmetry. apply sort_insert_Permutation.
      * constructor; [now apply after | exact Hhead].
Qed.

Lemma sort_ordered (l : list A) : StronglySorted R (Js.sort compareFn l).
Proof.
  induction l as [|x l IH]; simpl; [constructor|].
  now apply sort_insert_ordered.
Qed.

End SortOrder.

(** ** The year selector *)

Section Years.
Context `{DateFns}.
Import StatsView.

Lemma sameYear_eq (x y : option nat) : sameYear x y = true <-> x = y.
Proof.
  destruct x as [x|], y as [y|]; simpl; try (split; congruence).
  rewrite Nat.eqb_eq. split; congruence.
Qed.

Lemma descending_strict (l : list nat) :
  NoDup l -> StronglySorted (fun a b => b <= a) l ->
  StronglySorted (fun a b => b < a) l.
Proof.
  induction l as [|x l IH]; intros Hnodup Hsorted; [constructor|].
  inversion Hnodup as [| ? ? Hfresh Hrest]; subst.
  inversion Hsorted as [| ? ? Htail Hhead]; subst.
  constructor; [now apply IH|].
  rewrite Forall_forall in *. intros y Hy. specialize (Hhead y Hy).
  destruct (Nat.eq_dec x y) as [->|Hne]; [contradiction|lia].
Qed.

(** The year the code reads off a record is the year the record falls in. *)
Lemma anchorYear_yearOf (s : ShipmentRecord) : anchorYear s = yearOf s.
Proof.
  unfold anchorYear, anchorValid, anchorDate, yearOf. cbv zeta.
  destruct (loadingDate s) as [[|c rest]|]; reflexivity.
Qed.

Lemma all_years (l : list (option nat)) :
  (forall y, In y l -> y <> None) -> exists years, l = map Some years.
Proof.
  induction l as [|[y|] l IH]; intros Hall.
  - now exists [].
  - destruct IH as [years ->]; [intros z Hz; apply Hall; now right|].
    now exists (y :: years).
  - elim (Hall None); [now left|reflexivity].
Qed.

Lemma availableYears_spec (currentYear : nat) (shipments : list ShipmentRecord) :
  NoDup (availableYears currentYear shipments)
  /\ forall y,
       In y (availableYears currentYear shipments)
       <-> y = Some currentYear \/ exists s, In s shipments /\ yearOf s = y.
Proof.
  unfold availableYears.
  destruct (@set_fold_add _ sameYear sameYear_eq ShipmentRecord anchorYear shipments
              (JsSet.add sameYear (Some currentYear) []))
    as [Hnodup Hin].
  { apply set_add_NoDup; [exact sameYear_eq|constructor]. }
  cbv zeta in Hnodup, Hin.
  set (years := fold_left _ shipments _) in *.
  assert (Hperm : Permutation (Js.sort laterFirst years) years)
    by apply sort_Permutation.
  split.
  - apply (Permutation_NoDup (Permutation_sym Hperm) Hnodup).
  - intros y. split.
    + intros Hy. apply (Permutation_in _ Hperm), Hin in Hy.
      destruct Hy as [[<-|[]]|Hy]; [now left|]. right.
      apply in_map_iff in Hy as [s [<- Hs]]. exists s.
      split; [exact Hs|]. symmetry. apply anchorYear_yearOf.
    + intros Hy. apply (Permutation_in _ (Permutation_sym Hperm)), Hin.
      destruct Hy as [->|[s [Hs <-]]]; [left; now left|right].
      rewrite <- anchorYear_yearOf. now apply in_map.
Qed.

Lemma availableYears_descending (currentYear : nat)
    (shipments : list ShipmentRecord) :
  (forall s, In s shipments -> yearOf s <> None) ->
  exists years,
    availableYears currentYear shipments = map Some years
    /\ StronglySorted (fun a b => b < a) years.
Proof.
  intros Hvalid.
  destruct (availableYears_spec currentYear shipments) as [Hnodup Hin].
  unfold availableYears in *. cbv zeta in *.
  set (set := fold_left _ shipments _) in *.
  destruct (@all_years set) as [years Hyears].
  { intros y Hy.
    apply (Permutation_in _ (Permutation_sym (sort_Permutation laterFirst set))) in Hy.
    apply Hin in Hy as [->|[s [Hs <-]]]; [discriminate|now apply Hvalid]. }
  rewrite Hyears in *.
  set (compareFn := fun a b : nat => (Z.of_nat b - Z.of_nat a)%Z).
  rewrite (sort_map Some compareFn laterFirst years) in * by reflexivity.
  exists (Js.sort compareFn years). split; [reflexivity|].
  apply descending_strict.
  - now apply NoDup_map_inv in Hnodup.
  - apply sort_ordered; unfold compareFn; intros; lia.
Qed.

(** X1: the year selector lists the current year and, for every record, the
    year it falls in (that of its loading date when it has one, else that of
    its creation stamp) or [NaN] when that date is invalid, each once; when
    no record has an invalid date the years are listed latest first. *)
Theorem availableYears_latest_first (currentYear : nat)
    (shipments : list ShipmentRecord) :
  NoDup (availableYears currentYear shipments)
  /\ (forall y,
        In y (availableYears currentYear shipments)
        <-> y = Some currentYear \/ exists s, In s shipments /\ yearOf s = y)
  /\ ((forall s, In s shipments -> yearOf s <> None) ->
      exists years,
        availableYears currentYear shipments = map Some years
        /\ StronglySorted (fun a b => b < a) years).
Proof.
  destruct (availableYears_spec currentYear shipments) as [Hnodup Hin].
  split; [exact Hnodup|]. split; [exact Hin|].
  apply availableYears_descending.
Qed.

(** X2: a record is listed under a year exactly when it falls in it, in the
    order of the collection; every record's year is offered by the selector,
    and every year offered other than the current one has a record.  A
    record whose date is invalid is listed under no year; the selector
    offers [NaN] exactly when there is such a record, and choosing [NaN]
    lists nothing. *)
Theorem yearShipments_partition (currentYear : nat)
    (shipments : list ShipmentRecord) :
  (forall y s,
      In s (yearShipments shipments (Some y))
      <-> In s shipments /\ yearOf s = Some y)
  /\ (forall selectedYear,
        Subsequence (yearShipments shipments selectedYear) shipments)
  /\ (forall s, In s shipments -> In (yearOf s) (availableYears currentYear shipments))
  /\ (forall y, In (Some y) (availableYears currentYear shipments) ->
                y <> currentYear -> yearShipments shipments (Some y) <> [])
  /\ (In None (availableYears currentYear shipments)
      <-> exists s, In s shipments /\ yearOf s = None)
  /\ (forall s selectedYear,
        yearOf s = None -> ~ In s (yearShipments shipments selectedYear))
  /\ yearShipments shipments None = [].
Proof.
  assert (Hmem : forall selectedYear s,
             In s (yearShipments shipments selectedYear)
             <-> In s shipments
                 /\ exists y, yearOf s = Some y /\ selectedYear = Some y).
  { intros selectedYear s. unfold yearShipments.
    rewrite filter_In, anchorYear_yearOf.
    destruct (yearOf s) as [year|], selectedYear as [y|]; simpl.
    - rewrite Nat.eqb_eq. split.
      + intros [Hs <-]. split; [exact Hs|]. now exists year.
      + intros [Hs [y' [Hy Hy']]]. split; congruence.
    - split; [intros [_ Hf]; discriminate|intros [_ [y [_ Hy]]]; discriminate].
    - split; [intros [_ Hf]; discriminate|intros [_ [y' [Hy _]]]; discriminate].
    - split; [intros [_ Hf]; discriminate|intros [_ [y [Hy _]]]; discriminate]. }
  destruct (availableYears_spec currentYear shipments) as [_ Hin].
  split; [|split; [|split; [|split; [|split; [|split]]]]].
  - intros y s. rewrite Hmem. split.
    + intros [Hs [y' [Hy Hy']]]. split; congruence.
    + intros [Hs Hy]. split; [exact Hs|]. now exists y.
  - intros selectedYear. apply filter_Subsequence.
  - intros s Hs. apply Hin. right. now exists s.
  - intros y Hy Hne Hempty.
    apply Hin in Hy as [Hy|[s [Hs Hyear]]]; [congruence|].
    assert (Hs' : In s (yearShipments shipments (Some y))).
    { apply Hmem. split; [exact Hs|]. now exists y. }
    rewrite Hempty in Hs'. contradiction.
  - rewrite Hin. split; [intros [Hnone|Hex]; [discriminate|exact Hex]|now right].
  - intros s selectedYear Hnone Hs.
    apply Hmem in Hs as [_ [y [Hyear _]]]. congruence.
  - destruct (yearShipments shipments None) as [|s rest] eqn:Hlist; [reflexivity|].
    assert (Hs : In s (yearShipments shipments None)) by (rewrite Hlist; now left).
    apply Hmem in Hs as [_ [y [_ Hy]]]. discriminate.
Qed.

End Years.

(** ** Counts add up *)

Section CountSums.
Import StatsView.

Lemma total_set (k : string) (v : nat) (m : JsMap.t nat) :
  total (JsMap.set k v m) + Js.or_count (JsMap.get k m) 0 = total m + v.
Proof.
  unfold total. induction m as [|[k' v'] m IH]; simpl.
  - lia.
  - destruct (String.eqb_spec k' k) as [->|Hne]; simpl.
    + unfold Js.or_count. destruct (Nat.eqb_spec v' 0); lia.
    + lia.
Qed.

Lemma tally_total (names : list string) : total (tally names) = List.length names.
Proof.
  induction names as [|name names IH] using rev_ind; [reflexivity|].
  rewrite tally_snoc, length_app. simpl List.length.
  pose proof (total_set name (Js.or_count (JsMap.get name (tally names)) 0 + 1)
                (tally names)) as Hset.
  lia.
Qed.

Lemma list_sum_firstn (n : nat) (l : list nat) : list_sum (firstn n l) <= list_sum l.
Proof.
  rewrite <- (firstn_skipn n l) at 2. rewrite list_sum_app. lia.
Qed.

Lemma typeCounts_tally (yearShipments : list ShipmentRecord) :
  fold_left
    (fun map (s : ShipmentRecord) =>
       let type := Js.or_str (Some (containerType s)) "Other" in
       JsMap.set type (Js.or_count (JsMap.get type map) 0 + 1) map)
    yearShipments []
  = tally (map typeName yearShipments).
Proof.
  unfold tally. rewrite <- fold_left_map. apply fold_left_same.
  intros map s. unfold typeName, Js.or_str. now destruct (containerType s).
Qed.

Lemma containerTypes_tally (yearShipments : list ShipmentRecord) :
  map typePair (containerTypes yearShipments) = tally (map typeName yearShipments).
Proof.
  unfold containerTypes, JsMap.entries. rewrite typeCounts_tally, map_map.
  generalize (tally (map typeName yearShipments)) as m.
  induction m as [|[name value] m IH]; simpl; [reflexivity|]. now rewrite IH.
Qed.

(** X3: the container-type distribution has one entry per type that occurs,
    the placeholder standing for an empty type, in the order the types are
    first met; each entry counts the records of its type and the counts add
    up to the number of records. *)
Theorem containerTypes_distribution (yearShipments : list ShipmentRecord) :
  let names := map typeName yearShipments in
  let types := containerTypes yearShipments in
  NoDup (map TypeCount.name types)
  /\ (forall k, In k (map TypeCount.name types) <-> In k names)
  /\ StronglySorted (fun a b => firstIndex a names < firstIndex b names)
       (map TypeCount.name types)
  /\ (forall t, In t types -> TypeCount.value t = occurrences (TypeCount.name t) names)
  /\ list_sum (map TypeCount.value types) = List.length yearShipments.
Proof.
  intros names types.
  pose proof (containerTypes_tally yearShipments) as Hpairs. fold names types in Hpairs.
  assert (Hnames : map TypeCount.name types = JsMap.keys (tally names)).
  { unfold JsMap.keys. rewrite <- Hpairs, map_map. reflexivity. }
  assert (Hvalues : map TypeCount.value types = map snd (tally names)).
  { rewrite <- Hpairs, map_map. reflexivity. }
  split; [|split; [|split; [|split]]].
  - rewrite Hnames. apply tally_keys_NoDup.
  - intros k. rewrite Hnames. apply tally_keys_In.
  - rewrite Hnames. apply tally_keys_ordered.
  - intros t Ht. apply (in_map typePair) in Ht. rewrite Hpairs in Ht.
    now apply tally_entry in Ht.
  - rewrite Hvalues. change (list_sum (map snd (tally names))) with (total (tally names)).
    rewrite tally_total. unfold names. apply length_map.
Qed.

Lemma top_total (names : list string) :
  let top := firstn 5 (Js.sort byCountDescending (JsMap.entries (tally names))) in
  list_sum (map snd top) <= List.length names
  /\ (List.length (nodup string_dec names) <= 5 ->
      list_sum (map snd top) = List.length names).
Proof.
  intros top. unfold top, JsMap.entries.
  set (sorted := Js.sort byCountDescending (tally names)).
  assert (Hperm : Permutation sorted (tally names)) by apply sort_Permutation.
  assert (Hall : list_sum (map snd sorted) = List.length names).
  { rewrite <- tally_total. unfold total. apply Permutation_list_sum.
    now apply Permutation_map. }
  split.
  - rewrite <- Hall, <- firstn_map. apply list_sum_firstn.
  - intros Hfew. rewrite firstn_all2; [exact Hall|].
    rewrite (Permutation_length Hperm).
    rewrite <- (length_map fst). change (map fst (tally names)) with (JsMap.keys (tally names)).
    rewrite (@Permutation_length _ _ (nodup string_dec names)); [exact Hfew|].
    apply NoDup_Permutation; [apply tally_keys_NoDup | apply NoDup_nodup |].
    intros k. rewrite tally_keys_In, nodup_In. tauto.
Qed.

(** X4: the counts listed for the top clients and for the top routes never
    add up to more than the number of records, and they add up to exactly
    that number when no more than five clients, respectively routes, occur. *)
Theorem top_counts_add_up (yearShipments : list ShipmentRecord) :
  let clientTotal := list_sum (map ClientCount.count (topClients yearShipments)) in
  let routeTotal := list_sum (map RouteCount.count (topRoutes yearShipments)) in
  clientTotal <= List.length yearShipments
  /\ routeTotal <= List.length yearShipments
  /\ (List.length (nodup string_dec (map clientName yearShipments)) <= 5 ->
      clientTotal = List.length yearShipments)
  /\ (List.length (nodup string_dec (map routeOf yearShipments)) <= 5 ->
      routeTotal = List.length yearShipments).
Proof.
  intros clientTotal routeTotal.
  assert (Hclients : clientTotal
                     = list_sum (map snd (map clientPair (topClients yearShipments)))).
  { unfold clientTotal. now rewrite map_map. }
  assert (Hroutes : routeTotal
                    = list_sum (map snd (map routePair (topRoutes yearShipments)))).
  { unfold routeTotal. now rewrite map_map. }
  rewrite Hclients, Hroutes, topClients_pairs, topRoutes_pairs.
  destruct (top_total (map clientName yearShipments)) as [Hc1 Hc2].
  destruct (top_total (map routeOf yearShipments)) as [Hr1 Hr2].
  cbv zeta in *. rewrite !length_map in *. tauto.
Qed.

End CountSums.

(** ** The monthly profit series *)

Section MonthlySeries.
Context `{DateFns}.
Import StatsView DateFormat.
Open Scope float_scope.

Lemma mapValues_get {V W : Type} (f : V -> W) (k : string) (m : JsMap.t V) :
  JsMap.get k (mapValues f m) = option_map f (JsMap.get k m).
Proof.
  induction m as [|[k' v] m IH]; simpl; [reflexivity|].
  destruct (k' =? k)%string; [reflexivity|exact IH].
Qed.

Lemma mapValues_has {V W : Type} (f : V -> W) (k : string) (m : JsMap.t V) :
  JsMap.has k (mapValues f m) = JsMap.has k m.
Proof. unfold JsMap.has. rewrite mapValues_get. now destruct (JsMap.get k m). Qed.

Lemma mapValues_set {V W : Type} (f : V -> W) (k : string) (v : V) (m : JsMap.t V) :
  JsMap.set k (f v) (mapValues f m) = mapValues f (JsMap.set k v m).
Proof.
  induction m as [|[k' v'] m IH]; simpl; [reflexivity|].
  destruct (k' =? k)%string; simpl; [reflexivity|]. now rewrite IH.
Qed.

(** Two grouping loops whose entries correspond under [f] build
    corresponding maps. *)
Lemma groupLoop_mapValues {E1 E2 : Type} (f : E1 -> E2)
    (groupKey : ShipmentRecord -> string)
    (init1 : ShipmentRecord -> E1) (step1 : E1 -> ShipmentRecord -> E1)
    (init2 : ShipmentRecord -> E2) (step2 : E2 -> ShipmentRecord -> E2)
    (l : list ShipmentRecord) :
  (forall s, f (init1 s) = init2 s) ->
  (forall e s, f (step1 e s) = step2 (f e) s) ->
  groupLoop groupKey init2 step2 l
  = option_map (mapValues f) (groupLoop groupKey init1 step1 l).
Proof.
  intros Hinit Hstep. induction l as [|s l IH] using rev_ind; [reflexivity|].
  rewrite !groupLoop_snoc, IH.
  destruct (groupLoop groupKey init1 step1 l) as [m|]; [|reflexivity].
  cbn [option_map]. cbv zeta. rewrite mapValues_has.
  destruct (JsMap.has (groupKey s) m); cbn [negb].
  - rewrite mapValues_get.
    destruct (JsMap.get (groupKey s) m) as [e|]; [|reflexivity].
    cbn [option_map]. now rewrite <- Hstep, mapValues_set.
  - rewrite <- Hinit, mapValues_set, mapValues_get.
    destruct (JsMap.get (groupKey s) (JsMap.set (groupKey s) (init1 s) m)) as [e|];
      [|reflexivity].
    cbn [option_map]. now rewrite <- Hstep, mapValues_set.
Qed.

(** X5: the monthly profit series is the chart of the month view with the
    volumes left out: the same months in the same order, with the same
    labels and the same profits. *)
Theorem monthlyProfitData_is_month_chart (yearShipments : list ShipmentRecord) :
  monthlyProfitData yearShipments
  = option_map (map withoutVolume) (chartData yearShipments month).
Proof.
  unfold monthlyProfitData, chartData.
  rewrite (grouped_groupLoop yearShipments month).
  change (Js.forEach _ yearShipments [])
    with (groupLoop (periodKey month)
            (fun s => ProfitEntry.mk (periodLabel month s) (periodKey month s) 0)
            (fun e s => ProfitEntry.mk (ProfitEntry.label e) (ProfitEntry.dateStr e)
                          (ProfitEntry.profit e + statsProfit s))
            yearShipments).
  rewrite (@groupLoop_mapValues _ _ withoutVolume (periodKey month)
             (fun s => ChartEntry.mk (periodLabel month s) (periodKey month s) 0 0)
             chartStep);
    [|reflexivity|reflexivity].
  destruct (groupLoop (periodKey month) _ chartStep yearShipments) as [g|];
    [|reflexivity].
  cbn [option_map]. f_equal.
  unfold JsMap.values, mapValues. rewrite map_map. cbn [snd].
  rewrite <- (map_map snd withoutVolume).
  apply sort_map. reflexivity.
Qed.

End MonthlySeries.

(** ** The order of strings *)

Section StringOrder.

Lemma compare_units_antisym (a b : list N) :
  Js.compare_units b a = CompOpp (Js.compare_units a b).
Proof.
  revert b. induction a as [|x a IH]; intros [|y b]; simpl; try reflexivity.
  rewrite (N.compare_antisym x y).
  destruct (x ?= y)%N; simpl; [apply IH|reflexivity|reflexivity].
Qed.

Lemma compare_units_trans (a b c : list N) :
  Js.compare_units a b <> Gt -> Js.compare_units b c <> Gt ->
  Js.compare_units a c <> Gt.
Proof.
  revert b c. induction a as [|x a IH]; intros [|y b] [|z c]; simpl;
    try congruence.
  destruct (N.compare_spec x y) as [->|Hxy|Hxy]; [|intros _|congruence].
  - destruct (z ?= y)%N eqn:Hzy; rewrite (N.compare_antisym z y), Hzy; simpl;
      [apply IH|congruence|congruence].
  - destruct (N.compare_spec y z) as [<-|Hyz|Hyz]; [|intros _|congruence].
    + intros _. apply N.compare_lt_iff in Hxy. rewrite Hxy. congruence.
    + assert (Hxz : (x ?= z)%N = Lt) by (apply N.compare_lt_iff; lia).
      rewrite Hxz. congruence.
Qed.

Lemma notAfter_trans (a b c : string) : notAfter a b -> notAfter b c -> notAfter a c.
Proof. unfold notAfter. apply compare_units_trans. Qed.

Lemma compare_default_before (a b : string) :
  (Js.compare_default a b <= 0)%Z -> notAfter a b.
Proof.
  unfold Js.compare_default, notAfter.
  destruct (Js.compare_units (Js.codeUnits a) (Js.codeUnits b));
    intros; [discriminate|discriminate|lia].
Qed.

Lemma compare_default_after (a b : string) :
  (0 < Js.compare_default a b)%Z -> notAfter b a.
Proof.
  unfold Js.compare_default, notAfter.
  rewrite (compare_units_antisym (Js.codeUnits a) (Js.codeUnits b)).
  destruct (Js.compare_units (Js.codeUnits a) (Js.codeUnits b)); simpl;
    intros Hpos; try lia. discriminate.
Qed.

Lemma sort_default_ascending (l : list string) :
  StronglySorted notAfter (Js.sort Js.compare_default l).
Proof.
  apply sort_ordered.
  - exact compare_default_before.
  - exact compare_default_after.
  - exact notAfter_trans.
Qed.

End StringOrder.

(** ** The client filter *)

Section Clients.
Import ShipmentList.

Lemma same_client_eq (a b : option string) : same_client a b = true <-> a = b.
Proof.
  destruct a as [x|], b as [y|]; simpl; try (split; congruence).
  rewrite String.eqb_eq. split; congruence.
Qed.

Lemma presentClients_In (l : list (option string)) (c : string) :
  In c (presentClients l) <-> c <> "" /\ In (Some c) l.
Proof.
  unfold presentClients. rewrite in_flat_map. split.
  - intros [[[|a text]|] [Hx Hc]]; simpl in Hc; try contradiction.
    destruct Hc as [<-|[]]. split; [discriminate|exact Hx].
  - intros [Hne Hin]. exists (Some c). split; [exact Hin|].
    destruct c; [contradiction|]. now left.
Qed.

Lemma presentClients_NoDup (l : list (option string)) :
  NoDup l -> NoDup (presentClients l).
Proof.
  induction l as [|x l IH]; intros Hnodup; [constructor|].
  inversion Hnodup as [| ? ? Hfresh Hrest]; subst.
  change (presentClients (x :: l))
    with (match x with
          | Some text => if Js.truthy_str text then [text] else []
          | None => []
          end ++ presentClients l).
  destruct x as [[|a text]|]; simpl; try now apply IH.
  constructor; [|now apply IH].
  intros Hin. apply presentClients_In in Hin as [_ Hin]. contradiction.
Qed.

Lemma uniqueClients_spec (shipments : list ShipmentRecord) :
  (StronglySorted notAfter (uniqueClients shipments)
   /\ NoDup (uniqueClients shipments))
  /\ forall c, In c (uniqueClients shipments)
               <-> c <> "" /\ exists s, In s shipments /\ client s = Some c.
Proof.
  unfold uniqueClients. fold presentClients. cbv zeta.
  destruct (@set_fold_add _ same_client same_client_eq _ (fun c : option string => c)
              (map (fun s : ShipmentRecord => client s) shipments) [])
    as [Hnodup Hin]; [constructor|].
  cbv zeta in Hnodup, Hin. fold (JsSet.from same_client
    (map (fun s : ShipmentRecord => client s) shipments)) in Hnodup, Hin.
  set (distinct := JsSet.from same_client _) in *.
  assert (Hperm : Permutation (Js.sort Js.compare_default (presentClients distinct))
                    (presentClients distinct)) by apply sort_Permutation.
  split.
  - split; [apply sort_default_ascending|].
    apply (Permutation_NoDup (Permutation_sym Hperm)).
    now apply presentClients_NoDup.
  - intros c. split.
    + intros Hc. apply (Permutation_in _ Hperm), presentClients_In in Hc.
      destruct Hc as [Hne Hc]. split; [exact Hne|].
      apply Hin in Hc as [[]|Hc]. rewrite map_id in Hc.
      apply in_map_iff in Hc as [s [Hs Hin']]. now exists s.
    + intros [Hne [s [Hs Hclient]]].
      apply (Permutation_in _ (Permutation_sym Hperm)), presentClients_In.
      split; [exact Hne|]. apply Hin. right. rewrite map_id, <- Hclient.
      exact (in_map (fun s0 : ShipmentRecord => client s0) _ _ Hs).
Qed.

(** X6: the client filter offers exactly the non-empty clients of the
    records, each once, in ascending order of their UTF-16 code units. *)
Theorem uniqueClients_sorted_distinct (shipments : list ShipmentRecord) :
  StronglySorted
    (fun a b => Js.compare_units (Js.codeUnits a) (Js.codeUnits b) <> Gt)
    (uniqueClients shipments)
  /\ NoDup (uniqueClients shipments)
  /\ forall c, In c (uniqueClients shipments)
               <-> c <> "" /\ exists s, In s shipments /\ client s = Some c.
Proof.
  destruct (uniqueClients_spec shipments) as [[Hsorted Hnodup] Hin].
  split; [exact Hsorted|]. split; [exact Hnodup|exact Hin].
Qed.

Context `{StringCase}.

(** X7: choosing a client the filter offers, with no search text and every
    container type, shows that client's records and nothing else, and shows
    at least one; a client that is itself called "all" is the exception: it
    selects every record. *)
Theorem client_filter_shows_client (shipments : list ShipmentRecord) :
  (forall c, In c (uniqueClients shipments) -> c <> "all" ->
     filteredShipments shipments "" "all" c <> []
     /\ forall s, In s (filteredShipments shipments "" "all" c)
                  <-> In s shipments /\ client s = Some c)
  /\ filteredShipments shipments "" "all" "all" = shipments.
Proof.
  split.
  - intros c Hc Hne.
    assert (Hmem : forall s, In s (filteredShipments shipments "" "all" c)
                             <-> In s shipments /\ client s = Some c).
    { intros s. unfold filteredShipments. rewrite filter_In.
      rewrite matchesSearch_empty. cbn [andb].
      change (matchesFilter "all" s) with true. cbn [andb].
      rewrite matchesClient_spec. intuition congruence. }
    split; [|exact Hmem].
    apply uniqueClients_spec in Hc as [_ [s [Hs Hclient]]].
    intros Hempty. assert (Hin : In s (filteredShipments shipments "" "all" c))
      by now apply Hmem.
    rewrite Hempty in Hin. contradiction.
  - unfold filteredShipments. apply filter_all_kept. intros s _.
    now rewrite matchesSearch_empty.
Qed.

End Clients.

(** ** Selecting rows and exporting them *)

Section SelectionFacts.
Import Selection ShipmentStore.

Lemma string_eqb_eq (x y : string) : (x =? y)%string = true <-> x = y.
Proof. apply String.eqb_eq. Qed.

Lemma set_from_fold_NoDup {T : Type} (eqb : T -> T -> bool)
    (eqb_eq : forall x y, eqb x y = true <-> x = y) (l acc : list T) :
  NoDup (acc ++ l) ->
  fold_left (fun s x => JsSet.add eqb x s) l acc = acc ++ l.
Proof.
  revert acc. induction l as [|x l IH]; intros acc Hnodup; simpl.
  - now rewrite app_nil_r.
  - assert (Hfresh : JsSet.has eqb x acc = false).
    { destruct (JsSet.has eqb x acc) eqn:Hhas; [|reflexivity].
      apply (set_has_In eqb eqb_eq) in Hhas.
      apply NoDup_remove_2 in Hnodup. elim Hnodup. apply in_or_app. now left. }
    unfold JsSet.add at 2. rewrite Hfresh.
    rewrite IH; rewrite <- app_assoc; [reflexivity|exact Hnodup].
Qed.

Lemma set_from_NoDup (l : list string) : NoDup l -> JsSet.from String.eqb l = l.
Proof.
  intros Hnodup. unfold JsSet.from.
  now rewrite (set_from_fold_NoDup String.eqb string_eqb_eq l []).
Qed.

Lemma targets_of_selection (selectedIds : list string)
    (filteredShipments : list ShipmentRecord) :
  selectedIds <> [] ->
  getExportTargets selectedIds filteredShipments
  = filter (fun s => JsSet.has String.eqb (id s) selectedIds) filteredShipments.
Proof.
  intros Hne. unfold getExportTargets, JsSet.size.
  destruct selectedIds; [contradiction|reflexivity].
Qed.

(** X8: with distinct record ids in view, ticking the header box selects
    exactly the visible ids; the export then covers every visible record,
    the header box shows "all" whenever a record is in view and never
    "some".  Unticking it empties the selection, and with an empty selection
    the export covers every visible record as well. *)
Theorem select_all_covers_view (filteredShipments : list ShipmentRecord) :
  NoDup (map (fun s : ShipmentRecord => id s) filteredShipments) ->
  let selectedIds := handleSelectAll filteredShipments true in
  selectedIds = map (fun s : ShipmentRecord => id s) filteredShipments
  /\ getExportTargets selectedIds filteredShipments = filteredShipments
  /\ allSelected selectedIds filteredShipments
     = negb (List.length filteredShipments =? 0)%nat
  /\ isIndeterminate selectedIds filteredShipments = false
  /\ handleSelectAll filteredShipments false = []
  /\ getExportTargets [] filteredShipments = filteredShipments.
Proof.
  intros Hnodup selectedIds.
  assert (Hsel : selectedIds = map (fun s : ShipmentRecord => id s) filteredShipments).
  { unfold selectedIds, handleSelectAll. now apply set_from_NoDup. }
  split; [exact Hsel|]. rewrite Hsel. split; [|split; [|split; [|split]]].
  - unfold getExportTargets, JsSet.size. rewrite length_map.
    destruct filteredShipments as [|s0 rest]; [reflexivity|].
    cbn [List.length Nat.ltb Nat.leb]. apply filter_all_kept.
    intros s Hs. apply (set_has_In String.eqb string_eqb_eq).
    exact (in_map (fun s : ShipmentRecord => id s) _ _ Hs).
  - unfold allSelected, JsSet.size. rewrite length_map, Nat.eqb_refl, andb_true_r.
    now destruct filteredShipments.
  - unfold isIndeterminate, JsSet.size. rewrite length_map, Nat.ltb_irrefl.
    apply andb_false_r.
  - reflexivity.
  - reflexivity.
Qed.

(** X9: a selection left over from another view, none of whose ids is
    visible, exports no record at all, while the header box still shows
    "all" when it happens to have as many ids as there are visible rows. *)
Theorem stale_selection_exports_nothing (selectedIds : list string)
    (filteredShipments : list ShipmentRecord) :
  selectedIds <> [] ->
  (forall i, In i selectedIds ->
             ~ In i (map (fun s : ShipmentRecord => id s) filteredShipments)) ->
  getExportTargets selectedIds filteredShipments = []
  /\ (List.length selectedIds = List.length filteredShipments ->
      allSelected selectedIds filteredShipments = true).
Proof.
  intros Hne Hstale. split.
  - rewrite targets_of_selection by assumption.
    apply filter_nil_iff. apply not_true_is_false. intros Hex.
    apply existsb_exists in Hex as [s [Hs Hhas]].
    apply (set_has_In String.eqb string_eqb_eq) in Hhas.
    apply (Hstale _ Hhas).
    exact (in_map (fun s : ShipmentRecord => id s) _ _ Hs).
  - intros Hsize. unfold allSelected, JsSet.size.
    rewrite Hsize, Nat.eqb_refl, andb_true_r.
    destruct filteredShipments; [|reflexivity].
    destruct selectedIds; [contradiction|discriminate].
Qed.

(** X10: ticking a row adds its id to the selection, unticking removes it,
    and neither touches the other ids; a selection without repetitions stays
    so, and ticking then unticking a row that was not selected gives back
    the selection as it was. *)
Theorem select_one_updates_one (selectedIds : list string) (i : string) :
  (forall j, In j (handleSelectOne selectedIds i true) <-> j = i \/ In j selectedIds)
  /\ (forall j, In j (handleSelectOne selectedIds i false) <-> In j selectedIds /\ j <> i)
  /\ (NoDup selectedIds ->
      NoDup (handleSelectOne selectedIds i true)
      /\ NoDup (handleSelectOne selectedIds i false))
  /\ (~ In i selectedIds ->
      handleSelectOne (handleSelectOne selectedIds i true) i false = selectedIds)
  /\ (In i selectedIds -> handleSelectOne selectedIds i true = selectedIds).
Proof.
  unfold handleSelectOne. cbv zeta. split; [|split; [|split; [|split]]].
  - intros j. apply set_add_In, string_eqb_eq.
  - intros j. apply set_delete_In, string_eqb_eq.
  - intros Hnodup. split.
    + apply set_add_NoDup; [exact string_eqb_eq|exact Hnodup].
    + now apply set_delete_NoDup.
  - intros Hfresh. unfold JsSet.add.
    destruct (JsSet.has String.eqb i selectedIds) eqn:Hhas.
    { apply (set_has_In String.eqb string_eqb_eq) in Hhas. contradiction. }
    unfold JsSet.delete. rewrite filter_app. simpl. rewrite String.eqb_refl. simpl.
    rewrite app_nil_r. now apply (set_delete_absent String.eqb string_eqb_eq).
  - intros Hin. unfold JsSet.add.
    apply (set_has_In String.eqb string_eqb_eq) in Hin. now rewrite Hin.
Qed.

Lemma export_cases (extension : string) (selectedIds : list string)
    (filteredShipments : list ShipmentRecord) :
  handleBatchExport extension selectedIds filteredShipments = Throws
  <-> exists i, selectedIds = [i]
                /\ ~ In i (map (fun s : ShipmentRecord => id s) filteredShipments).
Proof.
  unfold handleBatchExport, JsSet.size. cbv zeta.
  destruct selectedIds as [|i [|j rest]].
  - simpl. split; [discriminate|]. intros [i [Heq _]]. discriminate Heq.
  - cbn [List.length Nat.eqb].
    rewrite targets_of_selection by discriminate.
    set (visible := filter _ filteredShipments).
    assert (Hvisible : forall s, In s visible <-> In s filteredShipments /\ id s = i).
    { intros s. unfold visible. rewrite filter_In. cbn [JsSet.has existsb].
      rewrite orb_false_r, String.eqb_eq. tauto. }
    destruct visible as [|item others] eqn:Heq.
    + change (Js.index (@nil ShipmentRecord) 0) with (@None ShipmentRecord).
      split; [intros _|reflexivity]. exists i. split; [reflexivity|].
      intros Hin. apply in_map_iff in Hin as [s [Hid Hs]].
      apply (Hvisible s). now split.
    + change (Js.index (item :: others) 0) with (Some item).
      split; [discriminate|]. intros [i' [Hsel Hhidden]].
      injection Hsel as <-. elim Hhidden.
      destruct (proj1 (Hvisible item) (or_introl eq_refl)) as [Hin Hid].
      rewrite <- Hid. exact (in_map (fun s : ShipmentRecord => id s) _ _ Hin).
  - cbn [List.length Nat.eqb]. split; [discriminate|].
    intros [i' [Heq _]]. discriminate Heq.
Qed.

(** X11: an export throws exactly when one id is selected and no visible
    record has it.  With nothing selected it is the report of every visible
    record; with one visible record selected it is the detail of that
    record, named after its booking number. *)
Theorem export_outcome (extension : string) (selectedIds : list string)
    (filteredShipments : list ShipmentRecord) :
  (handleBatchExport extension selectedIds filteredShipments = Throws
   <-> exists i, selectedIds = [i]
                 /\ ~ In i (map (fun s : ShipmentRecord => id s) filteredShipments))
  /\ handleBatchExport extension [] filteredShipments
     = Report "Shipment Report List" filteredShipments ("shipments_list." ++ extension)
  /\ (forall item before after,
         filteredShipments = before ++ item :: after ->
         ~ In (id item) (map (fun s : ShipmentRecord => id s) before) ->
         handleBatchExport extension [id item] filteredShipments
         = Detail item ("shipment_" ++ bookingNo item ++ "_detail." ++ extension)).
Proof.
  split; [apply export_cases|]. split; [reflexivity|].
  intros item before after -> Hfirst.
  unfold handleBatchExport, JsSet.size. cbv zeta. cbn [List.length Nat.eqb].
  rewrite targets_of_selection by discriminate.
  rewrite filter_app.
  replace (filter _ before) with (@nil ShipmentRecord).
  - cbn [app filter JsSet.has existsb]. rewrite String.eqb_refl. reflexivity.
  - symmetry. apply filter_nil_iff. apply not_true_is_false. intros Hex.
    apply existsb_exists in Hex as [s [Hs Hhas]].
    cbn [JsSet.has existsb] in Hhas. rewrite orb_false_r in Hhas.
    apply String.eqb_eq in Hhas. apply Hfirst. rewrite <- Hhas.
    exact (in_map (fun s : ShipmentRecord => id s) _ _ Hs).
Qed.

End SelectionFacts.

(** ** The store: optimistic updates *)

Section StoreFacts.
Import ShipmentStore Selection.

Lemma state_eta (state : State) :
  mkState (shipments state) (loading state) (error state) = state.
Proof. now destruct state. Qed.

Lemma filter_filter {A : Type} (f g : A -> bool) (l : list A) :
  filter g (filter f l) = filter (fun x => f x && g x) l.
Proof.
  induction l as [|x l IH]; simpl; [reflexivity|].
  destruct (f x); simpl; [destruct (g x)|]; now rewrite IH.
Qed.

Lemma filter_same {A : Type} (f g : A -> bool) (l : list A) :
  (forall x, f x = g x) -> filter f l = filter g l.
Proof. intros Hfg. apply filter_ext. exact Hfg. Qed.

Lemma includes_id_In (ids : list string) (x : string) :
  includes_id ids x = true <-> In x ids.
Proof.
  unfold includes_id. rewrite existsb_exists. split.
  - intros [y [Hy Heq]]. apply String.eqb_eq in Heq. now subst.
  - intros Hx. exists x. split; [exact Hx|apply String.eqb_refl].
Qed.

Lemma deleteShipments_one_by_one (ids : list string) (state : State) :
  fst (deleteShipments_begin ids state)
  = fold_left (fun st i => fst (deleteShipment_begin i st)) ids state.
Proof.
  revert state. induction ids as [|i ids IH]; intros state.
  - unfold deleteShipments_begin. cbn [fst fold_left includes_id existsb negb].
    rewrite filter_all_kept by reflexivity. apply state_eta.
  - cbn [fold_left]. rewrite <- IH.
    unfold deleteShipments_begin, deleteShipment_begin.
    cbn [fst shipments loading error]. f_equal.
    rewrite filter_filter. apply filter_same. intros s.
    cbn [includes_id existsb]. rewrite negb_orb. f_equal.
    now rewrite String.eqb_sym.
Qed.

(** X12: a confirmed batch delete removes from the store exactly the
    records whose id is selected, keeps the others in order, and clears the
    selection; it leaves the store as deleting the selected ids one after
    the other would, and without confirmation nothing changes. *)
Theorem batch_delete_removes_selected (selectedIds : list string) (state : State) :
  let after := fst (handleBatchDelete true selectedIds state) in
  snd (handleBatchDelete true selectedIds state) = []
  /\ shipments after
     = filter (fun s => negb (includes_id selectedIds (id s))) (shipments state)
  /\ (forall s, In s (shipments after)
                <-> In s (shipments state) /\ ~ In (id s) selectedIds)
  /\ Subsequence (shipments after) (shipments state)
  /\ after = fold_left (fun st i => fst (deleteShipment_begin i st)) selectedIds state
  /\ handleBatchDelete false selectedIds state = (state, selectedIds).
Proof.
  intros after. unfold after, handleBatchDelete. cbn [fst snd].
  split; [reflexivity|]. split; [reflexivity|]. split; [|split; [|split]].
  - intros s. unfold deleteShipments_begin. cbn [fst shipments].
    rewrite filter_In, negb_true_iff, <- not_true_iff_false, includes_id_In. tauto.
  - apply filter_Subsequence.
  - apply deleteShipments_one_by_one.
  - reflexivity.
Qed.

(** X13: when the insert succeeds, the store holds the provisional record
    in front of the list and starts a refresh; if the refresh succeeds the
    list is what the server returned, and if it fails the provisional record
    stays in front of the list, with its provisional id, next to the error.
    Deleting that id then gives back the list as it was before the addition,
    provided no earlier record had the same id. *)
Theorem add_then_refresh (shipment : ShipmentData) (tempId now : string)
    (state : State) :
  let added := addShipment shipment tempId now (Done tt) state in
  added = mkState (newRecord shipment tempId now :: shipments state) true None
  /\ (forall data,
         fetchShipments_settle (Done data) added = mkState data false None)
  /\ (forall message,
         fetchShipments_settle (Failed message) added
         = mkState (newRecord shipment tempId now :: shipments state) false
             (Some message))
  /\ id (newRecord shipment tempId now) = tempId
  /\ (~ In tempId (map (fun s : ShipmentRecord => id s) (shipments state)) ->
      forall message,
        shipments (fst (deleteShipment_begin tempId
                          (fetchShipments_settle (Failed message) added)))
        = shipments state).
Proof.
  intros added. split; [reflexivity|]. split; [reflexivity|].
  split; [reflexivity|]. split; [reflexivity|].
  intros Hfresh message. unfold deleteShipment_begin.
  cbn [fst shipments fetchShipments_settle added addShipment addShipment_settle
       addShipment_begin fetchShipments_begin filter newRecord id].
  rewrite String.eqb_refl. cbn [negb].
  apply filter_all_kept. intros s Hs.
  apply negb_true_iff, String.eqb_neq. intros Heq.
  apply Hfresh. rewrite <- Heq.
  exact (in_map (fun s : ShipmentRecord => id s) _ _ Hs).
Qed.

Lemma spread_emptyPatch (s : ShipmentRecord) : spread s emptyPatch = s.
Proof. destruct s as [i c d]. destruct d. reflexivity. Qed.

Lemma spread_patchOfData (s : ShipmentRecord) (data : ShipmentData) :
  spread s (patchOfData data) = mkShipment (id s) (createdAt s) data.
Proof. destruct data. reflexivity. Qed.

Lemma map_unchanged {A : Type} (f : A -> A) (l : list A) :
  (forall x, In x l -> f x = x) -> map f l = l.
Proof.
  intros Hf. induction l as [|x l IH]; simpl; [reflexivity|].
  rewrite Hf by now left. f_equal. apply IH. intros y Hy. apply Hf. now right.
Qed.

(** X14: the optimistic half of an update rewrites the records with the
    given id and no other: the list keeps its length, and its ids in order
    when the patch carries no id; a record with another id stays at its
    place as it is; an id that no record has, or an empty patch, leaves the
    store as it was.  When the remote call succeeds the store stays as the
    optimistic half left it. *)
Theorem update_rewrites_matching (i : string) (patch : PartialShipment)
    (state : State) :
  let after := fst (updateShipment_begin i patch state) in
  List.length (shipments after) = List.length (shipments state)
  /\ (set_id patch = None ->
      map (fun s : ShipmentRecord => id s) (shipments after)
      = map (fun s : ShipmentRecord => id s) (shipments state))
  /\ (forall n s, nth_error (shipments state) n = Some s ->
        nth_error (shipments after) n
        = Some (if (id s =? i)%string then spread s patch else s))
  /\ (~ In i (map (fun s : ShipmentRecord => id s) (shipments state)) ->
      after = state)
  /\ fst (updateShipment_begin i emptyPatch state) = state
  /\ updateShipment i patch (Done tt) state = after.
Proof.
  intros after. unfold after, updateShipment, updateShipment_begin.
  cbn [fst shipments loading error revert].
  split; [apply length_map|]. split; [|split; [|split; [|split]]].
  - intros Hid. rewrite map_map. apply map_ext. intros s.
    destruct (id s =? i)%string; [|reflexivity].
    destruct s as [si sc sd]. unfold spread. cbn [id]. now rewrite Hid.
  - intros n s Hn. rewrite nth_error_map, Hn. reflexivity.
  - intros Habsent. rewrite map_unchanged; [apply state_eta|].
    intros s Hs. destruct (String.eqb_spec (id s) i) as [Heq|Hne]; [|reflexivity].
    elim Habsent. rewrite <- Heq.
    exact (in_map (fun s : ShipmentRecord => id s) _ _ Hs).
  - rewrite map_unchanged; [apply state_eta|].
    intros s _. rewrite spread_emptyPatch. now destruct (id s =? i)%string.
  - reflexivity.
Qed.

(** X15: the optimistic half of a delete removes every record with the
    given id and keeps the others in order; deleting an id that no record
    has leaves the store as it was, and deleting the same id again changes
    nothing more.  When the remote call succeeds the store stays as the
    optimistic half left it. *)
Theorem delete_removes_matching (i : string) (state : State) :
  let after := fst (deleteShipment_begin i state) in
  (forall s, In s (shipments after) <-> In s (shipments state) /\ id s <> i)
  /\ Subsequence (shipments after) (shipments state)
  /\ (~ In i (map (fun s : ShipmentRecord => id s) (shipments state)) ->
      after = state)
  /\ fst (deleteShipment_begin i after) = after
  /\ deleteShipment i (Done tt) state = after.
Proof.
  intros after. unfold after, deleteShipment, deleteShipment_begin.
  cbn [fst shipments loading error revert].
  split; [|split; [|split; [|split]]].
  - intros s. rewrite filter_In, negb_true_iff. now rewrite String.eqb_neq.
  - apply filter_Subsequence.
  - intros Habsent. rewrite filter_all_kept; [apply state_eta|].
    intros s Hs. apply negb_true_iff, String.eqb_neq. intros Heq.
    elim Habsent. rewrite <- Heq.
    exact (in_map (fun s : ShipmentRecord => id s) _ _ Hs).
  - f_equal. apply filter_all_kept. intros s Hs.
    now apply filter_In in Hs as [_ Hkeep].
  - reflexivity.
Qed.

End StoreFacts.

(** ** Opening a record in the form and saving it *)

Section FormFacts.
Context `{StringToNumber}.
Import ShipmentStore FormSubmit.
Open Scope float_scope.

Lemma or_num_twice (x : option float) : Some (x |? 0) |? 0 = x |? 0.
Proof.
  unfold Js.or_num at 2 3. destruct x as [v|]; [|reflexivity].
  destruct (Js.truthy_num v) eqn:Hv; [|reflexivity].
  unfold Js.or_num. now rewrite Hv.
Qed.

Lemma keyProfit_resetValues (key : FeeKey) (r : ShipmentRecord) :
  keyProfit key (ShipmentForm.resetValues (Some r)) = keyProfit key r.
Proof.
  unfold keyProfit. destruct key; cbn [keyPrice keyCost ShipmentForm.resetValues
    vgmFeeCost vgmFeePrice amendmentFeeCost amendmentFeePrice detentionFeeCost
    detentionFeePrice demurrageFeeCost demurrageFeePrice handlingFeeCost
    handlingFeePrice insuranceFeeCost insuranceFeePrice thcCost thcPrice
    printingFeeCost printingFeePrice sealFeeCost sealFeePrice docFeeCost docFeePrice
    telexFeeCost telexFeePrice blFeeCost blFeePrice diffPickupFeeCost
    diffPickupFeePrice weighingFeeCost weighingFeePrice];
    rewrite ?or_num_twice; reflexivity.
Qed.

Lemma resetValues_profit (r : ShipmentRecord) :
  ShipmentForm.estimatedProfit (ShipmentForm.ofValues (ShipmentForm.resetValues (Some r)))
  = ShipmentList.calculateTotalProfit r.
Proof.
  rewrite form_profit_is_list_profit.
  unfold ShipmentList.calculateTotalProfit. rewrite !additionalProfit_unfold.
  f_equal.
  apply fold_left_same. intros acc key. now rewrite keyProfit_resetValues.
Qed.

(** X16: opening a record for editing shows, as estimated profit, the
    profit the list shows for it, whatever fields of the record are missing.
    The six nullable texts arrive as strings and the six optional fee pairs
    as numbers; every other field arrives as the record has it.  A new form
    starts at profit 0. *)
Theorem edit_form_shows_list_profit (r : ShipmentRecord) :
  let values := ShipmentForm.resetValues (Some r) in
  ShipmentForm.estimatedProfit (ShipmentForm.ofValues values)
  = ShipmentList.calculateTotalProfit r
  /\ client values = Some (Js.or_str (client r) "")
  /\ fleet values = Some (Js.or_str (fleet r) "")
  /\ loadingDate values = Some (Js.or_str (loadingDate r) "")
  /\ sailingDate values = Some (Js.or_str (sailingDate r) "")
  /\ arrivalDate values = Some (Js.or_str (arrivalDate r) "")
  /\ vesselName values = Some (Js.or_str (vesselName r) "")
  /\ (forall key, In key [vgmFee; amendmentFee; detentionFee; demurrageFee;
                          handlingFee; insuranceFee] ->
        keyCost key values = Some (keyCost key r |? 0)
        /\ keyPrice key values = Some (keyPrice key r |? 0))
  /\ (forall key, In key [thc; printingFee; sealFee; docFee; telexFee; blFee;
                          diffPickupFee; weighingFee] ->
        keyCost key values = keyCost key r /\ keyPrice key values = keyPrice key r)
  /\ (forall input, In input [ShipmentForm.exchangeRateInput;
                              ShipmentForm.oceanFreightCostInput;
                              ShipmentForm.oceanFreightPriceInput;
                              ShipmentForm.truckingFeeCostInput;
                              ShipmentForm.truckingFeePriceInput;
                              ShipmentForm.customsFeeCostInput;
                              ShipmentForm.customsFeePriceInput] ->
        ShipmentForm.fieldOf input values = ShipmentForm.fieldOf input r)
  /\ (bookingNo values, businessNo values, shipper values, pol values, pod values,
      containerType values, containerNo values, isSpecialDeclaration values)
     = (bookingNo r, businessNo r, shipper r, pol r, pod r, containerType r,
        containerNo r, isSpecialDeclaration r)
  /\ ShipmentForm.estimatedProfit (ShipmentForm.ofValues (ShipmentForm.resetValues None))
     = 0.
Proof.
  intros values. split; [apply resetValues_profit|].
  do 6 (split; [reflexivity|]).
  split; [|split; [|split; [|split]]].
  - intros key Hkey. simpl in Hkey.
    repeat (destruct Hkey as [<-|Hkey]; [split; reflexivity|]). contradiction.
  - intros key Hkey. simpl in Hkey.
    repeat (destruct Hkey as [<-|Hkey]; [split; reflexivity|]). contradiction.
  - intros input Hinput. simpl in Hinput.
    repeat (destruct Hinput as [<-|Hinput]; [reflexivity|]). contradiction.
  - reflexivity.
  - rewrite form_profit_is_list_profit. reflexivity.
Qed.

(** X17: saving an edit rewrites the records with the id of the record
    opened, keeping their id and creation stamp and taking every other field
    from the submitted values, so the list then shows for them the profit
    the form estimates for these values; the other records stay as they are.
    Saving the form as it was opened keeps the profit of the record. *)
Theorem saved_edit_shows_form_profit (r : ShipmentRecord) (data : ShipmentData)
    (tempId now : string) (state : State) :
  let after := onSubmit (Some r) data tempId now state in
  (forall n s, nth_error (shipments state) n = Some s ->
     nth_error (shipments after) n
     = Some (if (id s =? id r)%string then mkShipment (id s) (createdAt s) data else s))
  /\ (forall n s s', nth_error (shipments state) n = Some s -> id s = id r ->
        nth_error (shipments after) n = Some s' ->
        ShipmentList.calculateTotalProfit s'
        = ShipmentForm.estimatedProfit (ShipmentForm.ofValues data))
  /\ (forall n s', nth_error (shipments state) n = Some r ->
        nth_error
          (shipments (onSubmit (Some r) (ShipmentForm.resetValues (Some r))
                        tempId now state)) n = Some s' ->
        id s' = id r /\ createdAt s' = createdAt r
        /\ ShipmentList.calculateTotalProfit s' = ShipmentList.calculateTotalProfit r).
Proof.
  intros after.
  assert (Hnth : forall data' n s, nth_error (shipments state) n = Some s ->
            nth_error (shipments (onSubmit (Some r) data' tempId now state)) n
            = Some (if (id s =? id r)%string
                    then mkShipment (id s) (createdAt s) data' else s)).
  { intros data' n s Hn. unfold onSubmit, updateShipment_begin.
    cbn [fst shipments]. rewrite nth_error_map, Hn. cbn [option_map].
    now rewrite spread_patchOfData. }
  split; [apply Hnth|]. split.
  - intros n s s' Hn Hid Hafter. unfold after in Hafter.
    rewrite (Hnth data n s Hn), Hid, String.eqb_refl in Hafter.
    injection Hafter as <-. symmetry. apply form_profit_is_list_profit.
  - intros n s' Hn Hafter.
    rewrite (Hnth _ n r Hn), String.eqb_refl in Hafter. injection Hafter as <-.
    split; [reflexivity|]. split; [reflexivity|].
    transitivity (ShipmentForm.estimatedProfit
                    (ShipmentForm.ofValues (ShipmentForm.resetValues (Some r)))).
    + symmetry. apply form_profit_is_list_profit.
    + apply resetValues_profit.
Qed.

End FormFacts.

(** ** The session and the screen *)

Section AuthFacts.
Import AuthStore.
Variables (User Session : Type) (sessionUser : Session -> User).

Lemma step_consistent (state : State User Session) (e : Event Session) :
  consistent sessionUser state -> consistent sessionUser (step sessionUser state e).
Proof. intros _. destruct e; reflexivity. Qed.

Lemma run_consistent (events : list (Event Session)) (state : State User Session) :
  consistent sessionUser state -> consistent sessionUser (run sessionUser events state).
Proof.
  revert state. induction events as [|e events IH]; intros state Hstate;
    [exact Hstate|].
  apply IH. now apply step_consistent.
Qed.

Lemma run_loaded (events : list (Event Session)) (state : State User Session) :
  loading state = false -> loading (run sessionUser events state) = false.
Proof.
  revert state. induction events as [|e events IH]; intros state Hstate;
    [exact Hstate|].
  apply IH. now destruct e.
Qed.

(** X18: from the start, whatever sessions arrive and whenever the user
    logs out, the user the store holds is the user of its session.  Once
    [initialize] has stored a session the spinner is never shown again, the
    dashboard is shown exactly while the store holds a session, and a logout
    leads to the login page. *)
Theorem session_decides_screen (first : option Session)
    (events : list (Event Session)) :
  let state := run sessionUser (Initialized first :: events) (initial User Session) in
  consistent sessionUser state
  /\ screen state <> Spinner
  /\ (screen state = Dashboard <-> session state <> None)
  /\ screen (step sessionUser state (LoggedOut Session)) = Login.
Proof.
  intros state.
  assert (Hconsistent : consistent sessionUser state).
  { apply run_consistent. reflexivity. }
  assert (Hloaded : loading state = false).
  { unfold state. cbn [run fold_left]. now apply run_loaded. }
  split; [exact Hconsistent|]. unfold screen. cbn [step logout loading user].
  rewrite Hloaded, Hconsistent.
  destruct (session state); cbn [option_map]; repeat split; congruence.
Qed.

End AuthFacts.

(** ** The login page *)

Section LoginFacts.
Import LoginPage.

Lemma or_str_truthy (message : option string) (fallback : string) :
  Js.truthy_str fallback = true ->
  Js.truthy_str (Js.or_str message fallback) = true.
Proof.
  intros Hfallback. unfold Js.or_str. destruct message as [text|]; [|exact Hfallback].
  destruct (Js.truthy_str text) eqn:Htext; assumption.
Qed.

(** X19: after a submission the page never shows an error and a success
    message together.  A failed call leaves a non-empty error text and ends
    the loading state without changing the view or the fields; a successful
    registration returns to the login view with the password and the user
    name cleared and the e-mail kept; a successful login leaves the page
    loading. *)
Theorem submit_outcome (authError : AuthError) (state : State) :
  let after := handleSubmit authError state in
  (error after = None \/ successMsg after = None)
  /\ email after = email state
  /\ (forall message, authError = Some message ->
        loading after = false
        /\ (exists text, error after = Some text /\ Js.truthy_str text = true)
        /\ view after = view state /\ password after = password state
        /\ username after = username state)
  /\ (authError = None -> view state = register ->
      view after = login /\ password after = "" /\ username after = ""
      /\ loading after = false /\ successMsg after <> None)
  /\ (authError = None -> view state = login ->
      loading after = true /\ error after = None /\ successMsg after = None).
Proof.
  intros after. unfold after, handleSubmit. cbv zeta. cbn [view email password
    username loading error successMsg].
  split; [|split; [|split; [|split]]].
  - destruct (view state), authError; cbn [error successMsg]; tauto.
  - destruct (view state), authError; reflexivity.
  - intros message ->.
    destruct (view state); cbn [loading error view password username];
      (split; [reflexivity|]; split; [|repeat split]);
      eexists; (split; [reflexivity|]); now apply or_str_truthy.
  - intros -> ->. cbn [view password username loading successMsg].
    repeat split. discriminate.
  - intros -> ->. repeat split.
Qed.

End LoginFacts.

(** ** The PDF font *)

Section FontFacts.
Import PdfFont.
Variable btoa : string -> string.

Lemma existsFileInVFS_added (fileName data : string) (doc : Doc) :
  existsFileInVFS fileName (addFileToVFS fileName data doc) = true.
Proof.
  unfold existsFileInVFS, addFileToVFS. cbn [vfs].
  rewrite existsb_app. cbn [existsb fst]. rewrite String.eqb_refl.
  now rewrite orb_true_r.
Qed.

(** X20: the loader answers with the Chinese font only when the document
    holds the font file afterwards, and with "helvetica" otherwise, leaving
    the document untouched; it never drops a file or a font.  Once the file
    is in the document the loader answers at once, whatever the network
    does, and changes nothing. *)
Theorem font_loaded_or_fallback (fetched : Fetched) (doc : Doc) :
  let fontName := fst (loadChineseFont btoa fetched doc) in
  let after := snd (loadChineseFont btoa fetched doc) in
  ((fontName = "NotoSansSC"
    /\ existsFileInVFS "NotoSansSC-Regular.ttf" after = true)
   \/ (fontName = "helvetica" /\ after = doc))
  /\ (exists files fonts',
         vfs after = vfs doc ++ files /\ fonts after = fonts doc ++ fonts')
  /\ (forall again,
         fontName = "NotoSansSC" ->
         loadChineseFont btoa again after = ("NotoSansSC", after)).
Proof.
  intros fontName after. unfold fontName, after, loadChineseFont. cbv zeta.
  destruct (existsFileInVFS "NotoSansSC-Regular.ttf" doc) eqn:Hcached.
  - cbn [fst snd]. split; [left; now split|]. split.
    + exists [], []. now rewrite !app_nil_r.
    + intros again _. now rewrite Hcached.
  - destruct fetched as [|[|] [buffer|]]; cbn [fst snd].
    + split; [right; now split|]. split.
      * exists [], []. now rewrite !app_nil_r.
      * discriminate.
    + assert (Hexists : existsFileInVFS "NotoSansSC-Regular.ttf"
                (addFont "NotoSansSC-Regular.ttf" "NotoSansSC" "normal"
                   (addFileToVFS "NotoSansSC-Regular.ttf"
                      (arrayBufferToBase64 btoa buffer) doc)) = true).
      { unfold addFont, existsFileInVFS. cbn [vfs].
        apply (existsFileInVFS_added "NotoSansSC-Regular.ttf"
                 (arrayBufferToBase64 btoa buffer) doc). }
      split; [left; now split|]. split.
      * eexists. eexists. split; reflexivity.
      * intros again _. now rewrite Hexists.
    + split; [right; now split|]. split.
      * exists [], []. now rewrite !app_nil_r.
      * discriminate.
    + split; [right; now split|]. split.
      * exists [], []. now rewrite !app_nil_r.
      * discriminate.
    + split; [right; now split|]. split.
      * exists [], []. now rewrite !app_nil_r.
      * discriminate.
Qed.

End FontFacts.

(** ** The statistics never fail *)

Section StatsTotal.
Context `{DateFns}.
Import StatsView.
Open Scope float_scope.

(** X21: the annual memo never fails on a missing month entry: for every
    collection it yields totals, whose volume is the count of the records
    and whose profit is the sum, in order, of what the view books for each
    record (ocean freight at the rate, trucking and customs). *)
Theorem annual_totals_always_yield (yearShipments : list ShipmentRecord) :
  exists vGrowth pGrowth,
    annualTotals yearShipments
    = Some (Totals.mk (countVolume yearShipments) (sumProfit yearShipments)
              vGrowth pGrowth).
Proof.
  destruct yearShipments as [|s l].
  - exists 0, 0. reflexivity.
  - apply annualTotals_total. discriminate.
Qed.

(** X22: the chart never fails on a missing bucket: under every
    granularity it yields buckets with distinct keys, one for the period of
    every record, each holding the count of the records of its period and
    the sum, in order, of what the view books for them. *)
Theorem chart_buckets_hold_their_records (yearShipments : list ShipmentRecord)
    (viewMode : ViewMode) :
  exists buckets,
    chartData yearShipments viewMode = Some buckets
    /\ NoDup (map ChartEntry.dateStr buckets)
    /\ (forall s, In s yearShipments ->
          In (periodKey viewMode s) (map ChartEntry.dateStr buckets))
    /\ (forall e, In e buckets ->
          recordsIn viewMode (ChartEntry.dateStr e) yearShipments <> []
          /\ ChartEntry.volume e
             = countVolume (recordsIn viewMode (ChartEntry.dateStr e) yearShipments)
          /\ ChartEntry.profit e
             = sumProfit (recordsIn viewMode (ChartEntry.dateStr e) yearShipments)).
Proof.
  destruct (chartData_buckets yearShipments viewMode)
    as [buckets [Hchart [Hnodup [Hcover Hcontent]]]].
  exists buckets. split; [exact Hchart|]. split; [exact Hnodup|].
  split; [exact Hcover|]. intros e He. exact (Hcontent e He).
Qed.

End StatsTotal.

(** ** Further examples *)

Section FurtherExamples.
Import StatsView ShipmentList ShipmentStore Selection FormSubmit.

Example selector_years :
  @availableYears iso_dates 2025%nat sampleShipments
  = [Some 2025; Some 2024; Some 2023]%nat
  /\ uniqueClients sampleShipments = ["Acme"; "Beta"]
  /\ containerTypes sampleShipments = [TypeCount.mk "40HQ" 3%nat].
Proof. repeat split; reflexivity. Qed.

(** A loading date that does not parse puts [NaN] among the years, and its
    record under no year. *)
Example misdated_record :
  @availableYears iso_dates 2025%nat [februaryRecord; misdatedRecord]
  = [Some 2025; Some 2024; None]%nat
  /\ @yearShipments iso_dates [februaryRecord; misdatedRecord] (Some 2024%nat)
     = [februaryRecord]
  /\ @yearShipments iso_dates [februaryRecord; misdatedRecord] None = [].
Proof. repeat split; reflexivity. Qed.

(** Code units order the emoji, whose first surrogate is D83D, before the
    full-width letter FF21, where the bytes of the two texts order them the
    other way round. *)
Example clients_by_code_units :
  uniqueClients [wideRecord; emojiRecord] = ["😀 Freight"; "Ａcme"]
  /\ Js.codeUnits "Ａ" = [65313%N]
  /\ Js.codeUnits "😀" = [55357%N; 56832%N]
  /\ String.compare "Ａcme" "😀 Freight" = Lt.
Proof. repeat split; reflexivity. Qed.

Lemma availableYears_latest_first_witness :
  exists years,
    @availableYears iso_dates 2025%nat sampleShipments = map Some years
    /\ StronglySorted (fun a b => (b < a)%nat) years.
Proof.
  refine (proj2 (proj2
            (@availableYears_latest_first iso_dates 2025%nat sampleShipments)) _).
  intros s [<-|[<-|[<-|[]]]]; discriminate.
Defined.

Lemma yearShipments_partition_witness :
  @yearShipments iso_dates sampleShipments (Some 2023%nat) <> [].
Proof.
  refine (proj1 (proj2 (proj2 (proj2
            (@yearShipments_partition iso_dates 2025%nat sampleShipments))))
            2023%nat _ _).
  - right. right. left. reflexivity.
  - discriminate.
Defined.

Lemma top_counts_add_up_witness :
  list_sum (map ClientCount.count (topClients sampleShipments)) = 3%nat.
Proof.
  refine (proj1 (proj2 (proj2 (@top_counts_add_up sampleShipments))) _).
  simpl. lia.
Defined.

Lemma client_filter_shows_client_witness :
  @filteredShipments ascii_case sampleShipments "" "all" "Beta" <> [].
Proof.
  refine (proj1 (proj1 (@client_filter_shows_client ascii_case sampleShipments)
                   "Beta" _ _)).
  - right. left. reflexivity.
  - discriminate.
Defined.

Lemma visibleShipments_ids :
  NoDup (map (fun s : ShipmentRecord => id s) visibleShipments).
Proof.
  repeat constructor; simpl; intuition discriminate.
Defined.

Lemma select_all_covers_view_witness :
  getExportTargets (handleSelectAll visibleShipments true) visibleShipments
  = visibleShipments.
Proof.
  exact (proj1 (proj2 (@select_all_covers_view visibleShipments visibleShipments_ids))).
Defined.

Lemma stale_selection_exports_nothing_witness :
  getExportTargets ["s3"] visibleShipments = []
  /\ handleBatchExportPDF ["s3"] visibleShipments = Throws.
Proof.
  split; [|reflexivity].
  refine (proj1 (@stale_selection_exports_nothing ["s3"] visibleShipments _ _)).
  - discriminate.
  - intros i [<-|[]]. simpl. intuition discriminate.
Defined.

(** Of two stored records the one with id [a1] gets the new rate, which
    moves its profit from 1550 to 1530; the other one and the ids stay. *)
Lemma update_rewrites_matching_witness :
  let after := fst (updateShipment_begin "a1" ratePatch twoRecordState) in
  nth_error (shipments after) 0%nat = Some (spread storedRecord ratePatch)
  /\ nth_error (shipments after) 1%nat = Some thcOnlyRecord
  /\ map (fun s : ShipmentRecord => id s) (shipments after) = ["a1"; "r1"]
  /\ exchangeRate (spread storedRecord ratePatch) = Some 6.9%float
  /\ fst (updateShipment_begin "zz" ratePatch twoRecordState) = twoRecordState.
Proof.
  destruct (@update_rewrites_matching "a1" ratePatch twoRecordState)
    as [_ [Hids [Hnth _]]].
  destruct (@update_rewrites_matching "zz" ratePatch twoRecordState)
    as [_ [_ [_ [Habsent _]]]].
  split; [exact (Hnth 0%nat storedRecord eq_refl)|].
  split; [exact (Hnth 1%nat thcOnlyRecord eq_refl)|].
  split; [exact (Hids eq_refl)|].
  split; [reflexivity|].
  apply Habsent. simpl. intuition discriminate.
Defined.

Lemma add_then_refresh_witness :
  shipments (fst (deleteShipment_begin "t1"
                    (fetchShipments_settle (Failed "offline")
                       (addShipment scenarioRecord "t1" "2024-03-16T08:00:00.000Z"
                          (Done tt) storedState))))
  = [storedRecord].
Proof.
  refine (proj2 (proj2 (proj2 (proj2
            (@add_then_refresh scenarioRecord "t1" "2024-03-16T08:00:00.000Z"
               storedState)))) _ "offline").
  simpl. intuition discriminate.
Defined.

(** Of two stored records the one with id [a1] goes and the other stays. *)
Lemma delete_removes_matching_witness :
  let after := fst (deleteShipment_begin "a1" twoRecordState) in
  In thcOnlyRecord (shipments after)
  /\ ~ In storedRecord (shipments after)
  /\ fst (deleteShipment_begin "zz" twoRecordState) = twoRecordState.
Proof.
  destruct (@delete_removes_matching "a1" twoRecordState) as [Hmem _].
  destruct (@delete_removes_matching "zz" twoRecordState) as [_ [_ [Habsent _]]].
  split; [|split].
  - apply Hmem. split; [right; left; reflexivity|discriminate].
  - intros Hin. apply Hmem in Hin as [_ Hid]. now apply Hid.
  - apply Habsent. simpl. intuition discriminate.
Defined.

(** Values the schema accepts are saved over the first of two records:
    its trucking price and terminal handling charge change, its profit moves
    from 1550 to 1680, which is what the form estimates, and the second
    record stays. *)
Lemma saved_edit_shows_form_profit_witness :
  let after := onSubmit (Some storedRecord) editedData "t" "n" twoRecordState in
  let saved := mkShipment "a1" (CreatedIso "2024-03-15T08:00:00.000Z") editedData in
  ShipmentForm.schemaAccepts editedData = true
  /\ nth_error (shipments after) 0%nat = Some saved
  /\ nth_error (shipments after) 1%nat = Some thcOnlyRecord
  /\ calculateTotalProfit saved
     = @ShipmentForm.estimatedProfit decimal_texts (ShipmentForm.ofValues editedData)
  /\ calculateTotalProfit storedRecord = 1550%float
  /\ calculateTotalProfit saved = 1680%float.
Proof.
  destruct (@saved_edit_shows_form_profit decimal_texts storedRecord editedData
              "t" "n" twoRecordState) as [Hnth [Hprofit _]].
  split; [reflexivity|].
  split; [exact (Hnth 0%nat storedRecord eq_refl)|].
  split; [exact (Hnth 1%nat thcOnlyRecord eq_refl)|].
  split; [exact (Hprofit 0%nat storedRecord _ eq_refl eq_refl
                   (Hnth 0%nat storedRecord eq_refl))|].
  split; reflexivity.
Defined.

Lemma select_one_updates_one_witness :
  handleSelectOne (handleSelectOne ["s1"] "s2" true) "s2" false = ["s1"].
Proof.
  refine (proj1 (proj2 (proj2 (proj2 (@select_one_updates_one ["s1"] "s2")))) _).
  simpl. intuition discriminate.
Defined.

Lemma export_outcome_witness :
  handleBatchExportPDF ["s2"] visibleShipments
  = Detail marchRecord "shipment_XYZ900_detail.pdf".
Proof.
  refine (proj2 (proj2 (@export_outcome "pdf" ["s2"] visibleShipments))
            marchRecord [februaryRecord] [] eq_refl _).
  simpl. intuition discriminate.
Defined.

(** A record without client, dates, optional fees and exchange rate is
    opened: the form holds empty texts and zeros in their place, and the
    profit 15 of the list. *)
Lemma edit_form_shows_list_profit_witness :
  let values := ShipmentForm.resetValues (Some sparseRecord) in
  @ShipmentForm.estimatedProfit decimal_texts (ShipmentForm.ofValues values)
  = calculateTotalProfit sparseRecord
  /\ calculateTotalProfit sparseRecord = 15%float
  /\ client values = Some ""
  /\ loadingDate values = Some ""
  /\ keyCost vgmFee values = Some 0%float
  /\ keyPrice insuranceFee values = Some 5%float
  /\ exchangeRate values = None.
Proof.
  destruct (@edit_form_shows_list_profit decimal_texts sparseRecord)
    as [Hprofit [Hclient [_ [Hloading [_ [_ [_ [Hfees [_ [Hmain _]]]]]]]]]].
  split; [exact Hprofit|]. split; [reflexivity|].
  split; [exact Hclient|]. split; [exact Hloading|].
  split; [exact (proj1 (Hfees vgmFee (or_introl eq_refl)))|].
  split; [exact (proj2 (Hfees insuranceFee
                          (or_intror (or_intror (or_intror (or_intror (or_intror
                             (or_introl eq_refl))))))))|].
  exact (Hmain ShipmentForm.exchangeRateInput (or_introl eq_refl)).
Defined.

Lemma submit_outcome_witness :
  LoginPage.view (LoginPage.handleSubmit None registerPage) = LoginPage.login.
Proof.
  exact (proj1 (proj1 (proj2 (proj2 (proj2 (@submit_outcome None registerPage))))
                  eq_refl eq_refl)).
Defined.

Lemma font_loaded_or_fallback_witness :
  let loaded := snd (PdfFont.loadChineseFont (fun text => text)
                       (PdfFont.Response true (Some [])) emptyDoc) in
  PdfFont.loadChineseFont (fun text => text) PdfFont.Rejected loaded
  = ("NotoSansSC", loaded).
Proof.
  exact (proj2 (proj2 (@font_loaded_or_fallback (fun text => text)
                         (PdfFont.Response true (Some [])) emptyDoc))
           PdfFont.Rejected eq_refl).
Defined.

End FurtherExamples.
